(** * PropFlow: the prop lineage engine

    A shallow embedding of the two classes that make up the lineage
    engine of the extension:

    - [ASTAnalyzer] (src/astAnalyzer.ts): which declarations of a file are
      components, and which value a JSX tag passes for a prop;
    - [GraphBuilder] (graphBuilder.ts): the bounded walk from a component
      to the components that render it;

    and, on top of them, of the command [tracePropUpstream] of extension.ts
    with the cursor loop it shares with the other commands.

    The TypeScript parser (ts-morph) and the editor's workspace search are
    collaborators of the engine: a source file is modelled by what they
    report about it (its declarations, its JSX tags, the places where the
    text search hits), and the code of the two classes is translated on
    top of that view.  Strings are sequences of code units below 256. *)

From Stdlib Require Import String Ascii List Arith Bool Lia.
From stdpp Require Import base list strings.

Set Warnings "-register-all".

Local Open Scope string_scope.
Local Open Scope nat_scope.

(** ** JavaScript string and regular-expression primitives *)

Module Js.

Definition code (c : ascii) : nat := nat_of_ascii c.

Definition between (lo hi : nat) (c : ascii) : bool :=
  (lo <=? code c) && (code c <=? hi).

(** [[A-Z]] *)
Definition isUpper (c : ascii) : bool := between 65 90 c.

(** [\d] *)
Definition isDigit (c : ascii) : bool := between 48 57 c.

(** [\w] is [[A-Za-z0-9_]] *)
Definition isWord (c : ascii) : bool :=
  isUpper c || between 97 122 c || isDigit c || (code c =? 95).

(** [\s] on code units below 256: tab, line feed, vertical tab, form
    feed, carriage return, space and the no-break space. *)
Definition isSpace (c : ascii) : bool :=
  between 9 13 c || (code c =? 32) || (code c =? 160).

(** A string is truthy when it is not empty. *)
Definition truthy (s : string) : bool :=
  match s with EmptyString => false | String _ _ => true end.

Definition startsWith (s p : string) : bool := String.prefix p s.

Definition endsWith (s suffix : string) : bool :=
  let ls := String.length s in
  let lx := String.length suffix in
  (lx <=? ls) && String.eqb (substring (ls - lx) lx s) suffix.

(** [/^[A-Z]/.test(s)] *)
Definition testUpperFirst (s : string) : bool :=
  match s with
  | EmptyString => false
  | String c _ => isUpper c
  end.

Fixpoint dropWhile (p : ascii -> bool) (s : string) : string :=
  match s with
  | EmptyString => EmptyString
  | String c r => if p c then dropWhile p r else s
  end.

Fixpoint takeWhile (p : ascii -> bool) (s : string) : string :=
  match s with
  | EmptyString => EmptyString
  | String c r => if p c then String c (takeWhile p r) else EmptyString
  end.

Fixpoint all (p : ascii -> bool) (s : string) : bool :=
  match s with
  | EmptyString => true
  | String c r => p c && all p r
  end.

(** [/^\d+$/.test(s)] *)
Definition testDigits (s : string) : bool := truthy s && all isDigit s.

Definition stripOpen (s : string) : string :=
  match s with
  | String "{"%char r => r
  | _ => s
  end.

(** [s.match(/^{?\s*(\w+)\s*}?$/)], the first group.  The four classes
    of the pattern are disjoint, so the greedy match is the only one. *)
Definition matchSimpleIdentifier (s : string) : option string :=
  let s1 := dropWhile isSpace (stripOpen s) in
  let w := takeWhile isWord s1 in
  let s2 := dropWhile isSpace (dropWhile isWord s1) in
  if truthy w then
    match s2 with
    | EmptyString => Some w
    | String "}"%char EmptyString => Some w
    | _ => None
    end
  else None.

(** [s.match(/props\.(\w+)/)], the first group: the leftmost place where
    [props.] is followed by a word character. *)
Fixpoint matchPropsAccess (s : string) : option string :=
  match s with
  | EmptyString => None
  | String _ r =>
      if startsWith s "props." && truthy (takeWhile isWord (substring 6 (String.length s - 6) s))
      then Some (takeWhile isWord (substring 6 (String.length s - 6) s))
      else matchPropsAccess r
  end.

(** [s.trim()] *)
Fixpoint trimEnd (s : string) : string :=
  match s with
  | EmptyString => EmptyString
  | String c r =>
      let r' := trimEnd r in
      if isSpace c && negb (truthy r') then EmptyString else String c r'
  end.

Definition trim (s : string) : string := trimEnd (dropWhile isSpace s).

(** [.] matches any code unit but a line terminator. *)
Definition isLineTerminator (c : ascii) : bool := (code c =? 10) || (code c =? 13).

(** [s.match(/^(?:React\.)?Wrapper<(.+)>$/)], the first group. *)
Definition matchGenericWrapper (wrapper s : string) : option string :=
  let s := if startsWith s "React." then substring 6 (String.length s - 6) s else s in
  let opener := wrapper ++ "<" in
  if startsWith s opener && endsWith s ">" then
    let inner := substring (String.length opener)
                           (String.length s - String.length opener - 1) s in
    if truthy inner && all (fun c => negb (isLineTerminator c)) inner
    then Some inner else None
  else None.

(** The double-quote character, and a string literal's source text. *)
Definition dquote : string := String (ascii_of_nat 34) EmptyString.

Definition quoted (s : string) : string := dquote ++ s ++ dquote.

End Js.

(** ** The syntax tree, as ts-morph presents it *)

Inductive TypeMember : Type :=
| PropertySignature (name : string)
| OtherMember.

Inductive TypeNode : Type :=
| TypeLiteral (members : list TypeMember)
| TypeReference (typeName : string) (text : string) (typeArguments : list TypeNode)
| IntersectionType (types : list TypeNode)
| UnionType (types : list TypeNode)
| OtherTypeNode.

Inductive BindingName : Type :=
| IdentifierName (text : string)
| ObjectBindingPattern (elements : list string)
| ArrayBindingPattern.

Record ParameterDeclaration : Type := {
  paramNameNode : BindingName;
  paramTypeNode : option TypeNode
}.

Inductive Expression : Type :=
| ArrowFunction (parameters : list ParameterDeclaration)
| FunctionExpression (parameters : list ParameterDeclaration)
| CallExpression (expression : Expression) (arguments : list Expression)
| Identifier (text : string)
| PropertyAccessExpression (expressionText : string) (name : string)
| OtherExpression.

Record FunctionDeclaration : Type := {
  funcName : option string;
  funcParameters : list ParameterDeclaration;
  funcStartLine : nat;
  funcKeywordLine : option nat
}.

Record VariableDeclaration : Type := {
  varName : string;
  varInitializer : option Expression;
  varTypeNode : option TypeNode;
  varStartLine : nat;
  varStatementLine : option nat
}.

Record TypeAliasDeclaration : Type := {
  aliasName : string;
  aliasTypeNode : option TypeNode
}.

Record InterfaceDeclaration : Type := {
  interfaceName : string;
  interfaceProperties : list string;
  interfaceExtends : list string
}.

Record ExportSpecifier : Type := {
  exportName : string;
  exportAlias : option string
}.

(** [exportResolvedPath] is what [resolveModulePath] answers for the
    module specifier: it asks node's [path] and [fs] modules. *)
Record ExportDeclaration : Type := {
  exportModuleSpecifier : option string;
  exportResolvedPath : option string;
  exportNamedExports : list ExportSpecifier;
  exportStartLine : nat
}.

Inductive JsxInitializer : Type :=
| StringLiteral (text : string)
| JsxExpression (expression : option string)
| JsxElementInitializer.

Inductive JsxAttributeLike : Type :=
| JsxAttribute (name : string) (initializer : option JsxInitializer) (startLine : nat)
| JsxSpreadAttribute.

Inductive JsxKind : Type := JsxOpeningElement | JsxSelfClosingElement.

Record JsxTag : Type := {
  tagKind : JsxKind;
  tagName : string;
  tagStartLine : nat;
  tagAttributes : list JsxAttributeLike
}.

(** A place where the workspace text search for [<Name] followed by white
    space, [/] or [>] hits: the name and the 0-based line. *)
Record TextHit : Type := {
  hitName : string;
  hitLine : nat
}.

Record SourceFile : Type := {
  fsPath : string;
  functions : list FunctionDeclaration;
  variableDeclarations : list VariableDeclaration;
  typeAliases : list TypeAliasDeclaration;
  interfaces : list InterfaceDeclaration;
  exportDeclarations : list ExportDeclaration;
  jsxElements : list JsxTag;
  textHits : list TextHit
}.

(** Document order is the order of [jsxElements];
    [getDescendantsOfKind] selects from it. *)
Definition isKind (k : JsxKind) (t : JsxTag) : bool :=
  match k, tagKind t with
  | JsxOpeningElement, JsxOpeningElement => true
  | JsxSelfClosingElement, JsxSelfClosingElement => true
  | _, _ => false
  end.

Definition getDescendantsOfKind (sf : SourceFile) (k : JsxKind) : list JsxTag :=
  filter (fun t => isKind k t = true) (jsxElements sf).

(** ** types.ts *)

Inductive NodeType : Type := DEFINITION | USAGE | SOURCE.

Record ComponentInfo : Type := {
  ciName : string;
  ciFilePath : string;
  ciProps : list string;
  ciLine : nat
}.

Record PropUsage : Type := {
  usageLine : nat;
  usageValue : option string
}.

(** The files on disk, the paths the editor's [findFiles] lists for the
    glob of the workspace search (in its order, before the cut at 200
    results), and the nesting of calls the engine's stack allows before
    it raises a [RangeError]. *)
Record World : Type := {
  disk : list SourceFile;
  workspaceFiles : list string;
  stackLimit : nat
}.

(** ** ASTAnalyzer (src/astAnalyzer.ts) *)

(** A result of type [option] below is [None] when the call throws; the
    one error the analyzer can raise by itself is the [RangeError] of a
    recursion that nests deeper than the stack allows, and [stack] counts
    the nesting that is left. *)

Definition memberNames (members : list TypeMember) : list string :=
  omap (fun m => match m with
                 | PropertySignature n => if Js.truthy n then Some n else None
                 | OtherMember => None
                 end) members.

Definition getTypeAlias (sf : SourceFile) (n : string) : option TypeAliasDeclaration :=
  find (fun a => String.eqb (aliasName a) n) (typeAliases sf).

Definition getInterface (sf : SourceFile) (n : string) : option InterfaceDeclaration :=
  find (fun i => String.eqb (interfaceName i) n) (interfaces sf).

Definition extractPropsFromTypeDefinition (sf : SourceFile) (componentName : string)
  : list string :=
  let typeName := componentName ++ "Props" in
  let fromAlias :=
    match getTypeAlias sf typeName with
    | Some a => match aliasTypeNode a with
                | Some (TypeLiteral members) => memberNames members
                | _ => []
                end
    | None => []
    end in
  let fromInterface :=
    match getInterface sf typeName with
    | Some i => filter (fun n => Js.truthy n = true) (interfaceProperties i)
    | None => []
    end in
  (fromAlias ++ fromInterface)%list.

(** [[...new Set(props)]]: the first occurrence of each name, in order. *)
Definition dedupe (props : list string) : list string :=
  fold_left (fun seen p => if existsb (String.eqb p) seen then seen else (seen ++ [p])%list)
            props [].

(** One branch of an intersection or a union. *)
Definition branchProps (resolve : string -> option (list string)) (typeNode : TypeNode)
  : option (list string) :=
  match typeNode with
  | TypeLiteral members => Some (memberNames members)
  | TypeReference _ text _ => resolve text
  | _ => Some []
  end.

Fixpoint resolveTypeToProps (stack : nat) (sf : SourceFile) (typeName : string)
  : option (list string) :=
  match stack with
  | 0 => None
  | S stack' =>
      let resolve := resolveTypeToProps stack' sf in
      let fromInterface :=
        match getInterface sf typeName with
        | Some interfaceDecl =>
            match mapM resolve (interfaceExtends interfaceDecl) with
            | Some extendedProps =>
                Some (dedupe (filter (fun n => Js.truthy n = true)
                                     (interfaceProperties interfaceDecl)
                              ++ concat extendedProps)%list)
            | None => None
            end
        | None => Some []
        end in
      match Js.matchGenericWrapper "PropsWithChildren" typeName with
      | Some inner =>
          match resolve (Js.trim inner) with
          | Some innerProps => Some (dedupe ("children" :: innerProps))
          | None => None
          end
      | None =>
          match Js.matchGenericWrapper "PropsWithRef" typeName with
          | Some inner =>
              match resolve (Js.trim inner) with
              | Some innerProps => Some (dedupe ("ref" :: innerProps))
              | None => None
              end
          | None =>
              match getTypeAlias sf typeName with
              | Some typeAlias =>
                  match aliasTypeNode typeAlias with
                  | Some (TypeLiteral members) => Some (memberNames members)
                  | Some (IntersectionType types) | Some (UnionType types) =>
                      match mapM (branchProps resolve) types with
                      | Some parts => Some (dedupe (concat parts))
                      | None => None
                      end
                  | Some (TypeReference _ text _) => resolve text
                  | _ => fromInterface
                  end
              | None => fromInterface
              end
          end
      end
  end.

Definition extractPropsFromParameter (stack : nat) (sf : SourceFile)
  (param : ParameterDeclaration) : option (list string) :=
  let props :=
    match paramNameNode param with
    | ObjectBindingPattern elements => filter (fun n => Js.truthy n = true) elements
    | _ => []
    end in
  if 0 <? length props then Some props
  else
    match paramTypeNode param with
    | Some (TypeLiteral members) => Some (memberNames members)
    | Some (TypeReference typeName _ _) =>
        match resolveTypeToProps stack sf typeName with
        | Some resolvedProps =>
            Some (if 0 <? length resolvedProps then resolvedProps else props)
        | None => None
        end
    | _ => Some props
    end.

(** [params.length > 0 ? this.extractPropsFromParameter(params[0]) : []] *)
Definition propsOfFirstParameter (stack : nat) (sf : SourceFile)
  (params : list ParameterDeclaration) : option (list string) :=
  match params with
  | p :: _ => extractPropsFromParameter stack sf p
  | [] => Some []
  end.

(** The inner [None] is the [null] of a declaration that is no
    component. *)
Definition extractComponentFromFunction (stack : nat) (sf : SourceFile)
  (func : FunctionDeclaration) (filePath : string) : option (option ComponentInfo) :=
  match funcName func with
  | None => Some None
  | Some name =>
      if negb (Js.truthy name) then Some None
      else if negb (Js.testUpperFirst name) then Some None
      else
        match propsOfFirstParameter stack sf (funcParameters func) with
        | None => None
        | Some props =>
            let props := if length props =? 0
                         then extractPropsFromTypeDefinition sf name else props in
            let line := match funcKeywordLine func with
                        | Some l => l
                        | None => funcStartLine func
                        end in
            Some (Some {| ciName := name; ciFilePath := filePath; ciProps := props;
                          ciLine := line |})
        end
  end.

Definition variableLine (varDecl : VariableDeclaration) : nat :=
  match varStatementLine varDecl with
  | Some l => l
  | None => varStartLine varDecl
  end.

(** The props a variable's own annotation gives ([React.FC<Props>]). *)
Definition propsFromAnnotation (stack : nat) (sf : SourceFile)
  (varDecl : VariableDeclaration) : option (list string) :=
  match varTypeNode varDecl with
  | Some (TypeReference _ _ (propsTypeArg :: _)) =>
      match propsTypeArg with
      | TypeLiteral members => Some (memberNames members)
      | TypeReference _ propsTypeName _ => resolveTypeToProps stack sf propsTypeName
      | _ => Some []
      end
  | _ => Some []
  end.

Definition wrapperFunctions : list string :=
  ["memo"; "forwardRef"; "React.memo"; "React.forwardRef"; "observer"; "connect"].

(** The name of the called function: ['memo'], ['React.memo'], or empty
    when the callee is neither an identifier nor a property access. *)
Definition calleeName (expression : Expression) : string :=
  match expression with
  | Identifier text => text
  | PropertyAccessExpression expressionText name => expressionText ++ "." ++ name
  | _ => ""
  end.

Definition isRecognizedWrapper (funcName : string) : bool :=
  existsb (fun wrapper => Js.endsWith funcName wrapper) wrapperFunctions.

(** The component of a wrapped function: [memo((props) => ...)]. *)
Definition wrappedComponent (stack : nat) (sf : SourceFile) (varDecl : VariableDeclaration)
  (filePath : string) (params : list ParameterDeclaration) : option (option ComponentInfo) :=
  match propsOfFirstParameter stack sf params with
  | None => None
  | Some props =>
      let props := if length props =? 0
                   then extractPropsFromTypeDefinition sf (varName varDecl) else props in
      Some (Some {| ciName := varName varDecl; ciFilePath := filePath; ciProps := props;
                    ciLine := variableLine varDecl |})
  end.

Definition extractComponentFromVariable (stack : nat) (sf : SourceFile)
  (varDecl : VariableDeclaration) (filePath : string) : option (option ComponentInfo) :=
  let name := varName varDecl in
  if negb (Js.testUpperFirst name) then Some None
  else
    match varInitializer varDecl with
    | None => Some None
    | Some (ArrowFunction params) | Some (FunctionExpression params) =>
        match propsOfFirstParameter stack sf params with
        | None => None
        | Some props =>
            match (if length props =? 0 then propsFromAnnotation stack sf varDecl
                   else Some props) with
            | None => None
            | Some props =>
                let props := if length props =? 0
                             then extractPropsFromTypeDefinition sf name else props in
                Some (Some {| ciName := name; ciFilePath := filePath; ciProps := props;
                              ciLine := variableLine varDecl |})
            end
        end
    | Some (CallExpression expression args) =>
        if isRecognizedWrapper (calleeName expression) then
          match args with
          | ArrowFunction params :: _ | FunctionExpression params :: _ =>
              wrappedComponent stack sf varDecl filePath params
          | _ => Some None
          end
        else Some None
    | Some _ => Some None
    end.

Section ASTAnalyzer.

Variable w : World.

(** [project.getSourceFile(path)], falling back on
    [project.addSourceFileAtPath(path)], which throws for a path that is
    not on disk. *)
Definition getSourceFile (filePath : string) : option SourceFile :=
  find (fun f => String.eqb (fsPath f) filePath) (disk w).

Definition findComponent (name : string) (components : list ComponentInfo)
  : option ComponentInfo :=
  find (fun c => String.eqb (ciName c) name) components.

(** One named export of [export { A as B } from './path'].  [analyze] is
    the nested [analyzeFile]; what it or [getSourceFile] throws is caught
    and the export skipped. *)
Definition reExportedComponent (analyze : string -> option (list ComponentInfo))
  (filePath resolvedPath : string) (line : nat) (namedExport : ExportSpecifier)
  : option ComponentInfo :=
  let exportedName := match exportAlias namedExport with
                      | Some a => if Js.truthy a then a else exportName namedExport
                      | None => exportName namedExport
                      end in
  let originalName := exportName namedExport in
  if negb (Js.testUpperFirst exportedName) then None
  else
    match getSourceFile resolvedPath with
    | None => None
    | Some _ =>
        match analyze resolvedPath with
        | None => None
        | Some originalComponents =>
            match findComponent originalName originalComponents with
            | Some originalComponent =>
                Some {| ciName := exportedName; ciFilePath := filePath;
                        ciProps := ciProps originalComponent; ciLine := line |}
            | None => None
            end
        end
    end.

Definition findReExportedComponents (analyze : string -> option (list ComponentInfo))
  (sf : SourceFile) (filePath : string) : list ComponentInfo :=
  flat_map (fun exportDecl =>
    match exportModuleSpecifier exportDecl with
    | None => []
    | Some moduleSpecifier =>
        if negb (Js.truthy moduleSpecifier) then []
        else
          match exportResolvedPath exportDecl with
          | None => []
          | Some resolvedPath =>
              omap (reExportedComponent analyze filePath resolvedPath
                      (exportStartLine exportDecl))
                   (exportNamedExports exportDecl)
          end
    end) (exportDeclarations sf).

(** [analyzeFile(filePath)] without in-memory text.  It throws when the
    file is not on disk and when a type resolution under it does. *)
Fixpoint analyzeFileAt (stack : nat) (filePath : string) : option (list ComponentInfo) :=
  match stack with
  | 0 => None
  | S stack' =>
      match getSourceFile filePath with
      | None => None
      | Some sf =>
          match mapM (fun func => extractComponentFromFunction stack' sf func filePath)
                     (functions sf) with
          | None => None
          | Some fromFunctions =>
              match mapM (fun varDecl =>
                            extractComponentFromVariable stack' sf varDecl filePath)
                         (variableDeclarations sf) with
              | None => None
              | Some fromVariables =>
                  Some (omap id fromFunctions
                        ++ omap id fromVariables
                        ++ findReExportedComponents (analyzeFileAt stack') sf filePath)%list
              end
          end
      end
  end.

Definition analyzeFile (filePath : string) : option (list ComponentInfo) :=
  analyzeFileAt (stackLimit w) filePath.

End ASTAnalyzer.

(** *** Prop usage in JSX *)

Definition spreadSentinel : string := "{...spread}".

Definition isSpreadAttribute (attr : JsxAttributeLike) : bool :=
  match attr with
  | JsxSpreadAttribute => true
  | JsxAttribute _ _ _ => false
  end.

Definition hasSpread (attributes : list JsxAttributeLike) : bool :=
  existsb isSpreadAttribute attributes.

(** The loop over the attributes of a matching tag: the first attribute
    named [propName] whose initializer is absent, a string literal or a
    brace expression decides. *)
Fixpoint scanAttributes (propName : string) (attributes : list JsxAttributeLike)
  : option PropUsage :=
  match attributes with
  | [] => None
  | JsxSpreadAttribute :: rest => scanAttributes propName rest
  | JsxAttribute attrName initializer line :: rest =>
      if String.eqb attrName propName then
        match initializer with
        | None => Some {| usageLine := line; usageValue := Some "true" |}
        | Some (StringLiteral text) => Some {| usageLine := line; usageValue := Some text |}
        | Some (JsxExpression expression) =>
            Some {| usageLine := line; usageValue := expression |}
        | Some JsxElementInitializer => scanAttributes propName rest
        end
      else scanAttributes propName rest
  end.

(** What one matching tag yields: the explicit attribute, else the
    sentinel when the tag carries a spread. *)
Definition usageInTag (propName : string) (element : JsxTag) : option PropUsage :=
  match scanAttributes propName (tagAttributes element) with
  | Some usage => Some usage
  | None =>
      if hasSpread (tagAttributes element)
      then Some {| usageLine := tagStartLine element; usageValue := Some spreadSentinel |}
      else None
  end.

Fixpoint firstUsage (componentName propName : string) (elements : list JsxTag)
  : option PropUsage :=
  match elements with
  | [] => None
  | element :: rest =>
      if String.eqb (tagName element) componentName then
        match usageInTag propName element with
        | Some usage => Some usage
        | None => firstUsage componentName propName rest
        end
      else firstUsage componentName propName rest
  end.

(** [findPropUsage]: the whole file, over
    [getDescendantsOfKind(SyntaxKind.JsxOpeningElement)]. *)
Definition findPropUsage (sf : SourceFile) (componentName propName : string)
  : option PropUsage :=
  firstUsage componentName propName (getDescendantsOfKind sf JsxOpeningElement).

(** [Math.abs(a - b)] *)
Definition distance (a b : nat) : nat := if a <? b then b - a else a - b.

Definition closestTo (nearLine : nat) (first : JsxTag) (matching : list JsxTag) : JsxTag :=
  fold_left (fun closestMatch m =>
               if distance (tagStartLine m) nearLine
                  <? distance (tagStartLine closestMatch) nearLine
               then m else closestMatch)
            matching first.

(** [findPropUsageAtLocation]: opening elements, then self-closing ones;
    of the tags named [componentName] the first one closest to
    [nearLine]. *)
Definition findPropUsageAtLocation (sf : SourceFile) (componentName propName : string)
  (nearLine : nat) : option PropUsage :=
  let allElements := (getDescendantsOfKind sf JsxOpeningElement
                      ++ getDescendantsOfKind sf JsxSelfClosingElement)%list in
  let matchingComponents :=
    filter (fun element => String.eqb (tagName element) componentName = true) allElements in
  match matchingComponents with
  | [] => None
  | first :: _ => usageInTag propName (closestTo nearLine first matchingComponents)
  end.

(** ** GraphBuilder (graphBuilder.ts) *)

(** A [PropNode] is an object: [parent] holds a reference, here the
    address of the parent in the store of nodes. *)
Module PropNode.
Record t : Type := {
  componentName : string;
  filePath : string;
  propName : string;
  lineCode : nat;
  type : NodeType;
  parent : option nat
}.

Definition setType (ty : NodeType) (n : t) : t :=
  {| componentName := componentName n; filePath := filePath n; propName := propName n;
     lineCode := lineCode n; type := ty; parent := parent n |}.

Definition setParent (p : option nat) (n : t) : t :=
  {| componentName := componentName n; filePath := filePath n; propName := propName n;
     lineCode := lineCode n; type := type n; parent := p |}.
End PropNode.

(** The returned trace: [chain] lists addresses into [store], the nodes
    the call allocated. *)
Module PropTrace.
Record t : Type := {
  propName : string;
  chain : list nat;
  isComplete : bool;
  ambiguous : bool;
  store : list PropNode.t
}.

(** [chain[i]], the node the [i]-th entry of the chain refers to. *)
Definition nodeAt (tr : t) (i : nat) : option PropNode.t :=
  match chain tr !! i with
  | Some a => store tr !! a
  | None => None
  end.
End PropTrace.

Record Location : Type := {
  locationPath : string;
  locationLine : nat
}.

Definition extractPropName (value : option string) : string :=
  match value with
  | None => "unknown"
  | Some v =>
      if negb (Js.truthy v) then "unknown"
      else if String.eqb v "{...spread}" then "{...spread}"
      else match Js.matchSimpleIdentifier v with
           | Some name => name
           | None =>
               match Js.matchPropsAccess v with
               | Some name => name
               | None => v
               end
           end
  end.

Definition determineNodeType (value : option string) : NodeType :=
  match value with
  | None => SOURCE
  | Some v =>
      if negb (Js.truthy v) then SOURCE
      else if Js.startsWith v Js.dquote || Js.startsWith v "'"
              || String.eqb v "true" || String.eqb v "false" || Js.testDigits v
      then SOURCE
      else USAGE
  end.

Section GraphBuilder.

Variable w : World.

(** The files [vscode.workspace.findFiles] returns, at most 200; in each
    file that opens, every hit of the text search for the tag. *)
Definition findComponentUsagesInWorkspace (componentName : string) : list Location :=
  flat_map (fun file =>
              match getSourceFile w file with
              | None => []
              | Some document =>
                  map (fun hit => {| locationPath := file; locationLine := hitLine hit |})
                      (filter (fun hit => String.eqb (hitName hit) componentName = true)
                              (textHits document))
              end)
           (firstn 200 (workspaceFiles w)).

(** The closest component at or before [line]; the outer [None] is an
    error thrown by [analyzeFile]. *)
Definition findComponentAtLine (filePath : string) (line : nat) : option (option string) :=
  match analyzeFile w filePath with
  | None => None
  | Some components =>
      Some (option_map fst
        (fold_left (fun closestComponent comp =>
                      if ciLine comp <=? line then
                        match closestComponent with
                        | None => Some (ciName comp, ciLine comp)
                        | Some (_, closestLine) =>
                            if closestLine <? ciLine comp
                            then Some (ciName comp, ciLine comp)
                            else closestComponent
                        end
                      else closestComponent)
                   components None))
  end.

(** The usage the tag at [location] resolves to for the prop of [node],
    when the enclosing component is found as well. *)
Definition resolveUsage (location : Location) (node : PropNode.t)
  : option (PropUsage * string) :=
  let refFilePath := locationPath location in
  match getSourceFile w refFilePath with
  | None => None
  | Some sourceFile =>
      match findPropUsageAtLocation sourceFile (PropNode.componentName node)
              (PropNode.propName node) (locationLine location + 1) with
      | None => None
      | Some propUsage =>
          match findComponentAtLine refFilePath (usageLine propUsage) with
          | Some (Some parentComponent) => Some (propUsage, parentComponent)
          | _ => None
          end
      end
  end.

(** Every error inside is caught and answered with [null]. *)
Definition analyzeLocationForPropUsage (location : Location) (node : PropNode.t)
  : option PropNode.t :=
  match resolveUsage location node with
  | None => None
  | Some (propUsage, parentComponent) =>
      let extractedPropName := extractPropName (usageValue propUsage) in
      let nodeType := determineNodeType (usageValue propUsage) in
      Some {| PropNode.componentName := parentComponent;
              PropNode.filePath := locationPath location;
              PropNode.propName := extractedPropName;
              PropNode.lineCode := usageLine propUsage;
              PropNode.type := nodeType;
              PropNode.parent := None |}
  end.

Fixpoint firstParent (usages : list Location) (node : PropNode.t) : option PropNode.t :=
  match usages with
  | [] => None
  | location :: rest =>
      if String.eqb (locationPath location) (PropNode.filePath node)
      then firstParent rest node
      else match analyzeLocationForPropUsage location node with
           | Some parentNode => Some parentNode
           | None => firstParent rest node
           end
  end.

Definition findParentNode (node : PropNode.t) : option PropNode.t :=
  let usages := findComponentUsagesInWorkspace (PropNode.componentName node) in
  if length usages =? 0 then None else firstParent usages node.

(** *** The walk of [buildPropChain] *)

(** The local variables of the loop, and the store the nodes live in. *)
Record Frame : Type := {
  heap : list PropNode.t;
  chain : list nat;
  currentNode : nat;
  depth : nat;
  ambiguous : bool
}.

Definition setTypeAt (a : nat) (ty : NodeType) (h : list PropNode.t) : list PropNode.t :=
  alter (PropNode.setType ty) a h.

Definition setParentAt (a : nat) (p : option nat) (h : list PropNode.t)
  : list PropNode.t :=
  alter (PropNode.setParent p) a h.

(** [chain[chain.length - 1].type = "SOURCE"] *)
Definition markLastAsSource (f : Frame) : Frame :=
  match last (chain f) with
  | Some a => {| heap := setTypeAt a SOURCE (heap f); chain := chain f;
                 currentNode := currentNode f; depth := depth f;
                 ambiguous := ambiguous f |}
  | None => f
  end.

(** The three statements after the spread test: push the new node, link
    the current node to it, move on to it. *)
Definition advance (f : Frame) (parentNode : PropNode.t) : Frame :=
  let a := length (heap f) in
  {| heap := setParentAt (currentNode f) (Some a) (heap f ++ [parentNode]);
     chain := chain f ++ [a];
     currentNode := a;
     depth := depth f;
     ambiguous := if String.eqb (PropNode.propName parentNode) "{...spread}"
                  then true else ambiguous f |}.

Definition incrementDepth (f : Frame) : Frame :=
  {| heap := heap f; chain := chain f; currentNode := currentNode f;
     depth := S (depth f); ambiguous := ambiguous f |}.

(** [while (depth < maxDepth) { ... }]; [fuel] bounds the iterations and
    [maxDepth] of them are always enough. *)
Fixpoint walk (maxDepth fuel : nat) (f : Frame) : Frame :=
  if depth f <? maxDepth then
    match fuel with
    | 0 => f
    | S fuel' =>
        let f := incrementDepth f in
        match heap f !! currentNode f with
        | None => f
        | Some node =>
            match findParentNode node with
            | None => markLastAsSource f
            | Some parentNode => walk maxDepth fuel' (advance f parentNode)
            end
        end
    end
  else f.

(** [reversedChain[i].type = ty] *)
Definition setTypeOf (reversedChain : list nat) (ty : NodeType) (h : list PropNode.t)
  (i : nat) : list PropNode.t :=
  match reversedChain !! i with
  | Some a => setTypeAt a ty h
  | None => h
  end.

(** The relabelling after the reversal. *)
Definition relabel (reversedChain : list nat) (h : list PropNode.t) : list PropNode.t :=
  if 0 <? length reversedChain then
    let h := setTypeOf reversedChain SOURCE h 0 in
    if 1 <? length reversedChain then
      let h := setTypeOf reversedChain DEFINITION h (length reversedChain - 1) in
      fold_left (setTypeOf reversedChain USAGE) (seq 1 (length reversedChain - 2)) h
    else h
  else h.

Definition buildPropChainWith (maxDepth : nat) (filePath componentName propName : string)
  : option PropTrace.t :=
  match analyzeFile w filePath with
  | None => None
  | Some components =>
      let lineCode := match findComponent componentName components with
                      | Some currentComponent => ciLine currentComponent
                      | None => 0
                      end in
      let currentNode :=
        {| PropNode.componentName := componentName;
           PropNode.filePath := filePath;
           PropNode.propName := propName;
           PropNode.lineCode := lineCode;
           PropNode.type := DEFINITION;
           PropNode.parent := None |} in
      let f := walk maxDepth maxDepth
                 {| heap := [currentNode]; chain := [0]; currentNode := 0;
                    depth := 0; ambiguous := false |} in
      let isComplete := negb (maxDepth <=? depth f) in
      let reversedChain := reverse (chain f) in
      Some {| PropTrace.propName := propName;
              PropTrace.chain := reversedChain;
              PropTrace.isComplete := isComplete;
              PropTrace.ambiguous := ambiguous f;
              PropTrace.store := relabel reversedChain (heap f) |}
  end.

(** [private maxDepth = 20] *)
Definition maxDepth : nat := 20.

Definition buildPropChain (filePath componentName propName : string)
  : option PropTrace.t :=
  buildPropChainWith maxDepth filePath componentName propName.

End GraphBuilder.

(** ** The walk as a list of hops *)

Section Hops.

Variable w : World.

(** The first usage location, in search order and outside the node's own
    file, at which a usage and its enclosing component resolve. *)
Fixpoint firstResolution (usages : list Location) (node : PropNode.t)
  : option (Location * (PropUsage * string)) :=
  match usages with
  | [] => None
  | location :: rest =>
      if String.eqb (locationPath location) (PropNode.filePath node)
      then firstResolution rest node
      else match resolveUsage w location node with
           | Some r => Some (location, r)
           | None => firstResolution rest node
           end
  end.

Definition findParentResolution (node : PropNode.t)
  : option (Location * (PropUsage * string)) :=
  firstResolution (findComponentUsagesInWorkspace w (PropNode.componentName node)) node.

Definition resolvedValue (r : Location * (PropUsage * string)) : option string :=
  usageValue (fst (snd r)).

Definition nodeOfResolution (r : Location * (PropUsage * string)) : PropNode.t :=
  {| PropNode.componentName := snd (snd r);
     PropNode.filePath := locationPath (fst r);
     PropNode.propName := extractPropName (resolvedValue r);
     PropNode.lineCode := usageLine (fst (snd r));
     PropNode.type := determineNodeType (resolvedValue r);
     PropNode.parent := None |}.

(** The resolutions of a walk of at most [n] lookups that starts at
    [node], in the order they are found. *)
Fixpoint resolutions (n : nat) (node : PropNode.t)
  : list (Location * (PropUsage * string)) :=
  match n with
  | 0 => []
  | S n' =>
      match findParentResolution node with
      | None => []
      | Some r => r :: resolutions n' (nodeOfResolution r)
      end
  end.

(** The parents [findParentNode] answers along the same walk. *)
Fixpoint hops (n : nat) (node : PropNode.t) : list PropNode.t :=
  match n with
  | 0 => []
  | S n' =>
      match findParentNode w node with
      | None => []
      | Some parentNode => parentNode :: hops n' parentNode
      end
  end.

End Hops.

Definition isSpreadNamed (n : PropNode.t) : bool :=
  String.eqb (PropNode.propName n) spreadSentinel.

(** The node [buildPropChain] starts from. *)
Definition definitionNode (filePath componentName propName : string) (lineCode : nat)
  : PropNode.t :=
  {| PropNode.componentName := componentName;
     PropNode.filePath := filePath;
     PropNode.propName := propName;
     PropNode.lineCode := lineCode;
     PropNode.type := DEFINITION;
     PropNode.parent := None |}.

(** The store the loop leaves behind for the nodes [nodes], allocated from
    address [a] on: each node but the last points to the next address, and
    the last one is marked when the loop left through [break]. *)
Fixpoint link (a : nat) (broke : bool) (nodes : list PropNode.t) : list PropNode.t :=
  match nodes with
  | [] => []
  | n :: rest =>
      match rest with
      | [] => [if broke then PropNode.setType SOURCE n else n]
      | _ :: _ => PropNode.setParent (Some (S a)) n :: link (S a) broke rest
      end
  end.

(** The label of position [i] in a reversed chain of [len] nodes. *)
Definition finalType (len i : nat) : NodeType :=
  if i =? 0 then SOURCE
  else if i =? len - 1 then DEFINITION
  else USAGE.

(** No attribute of any tag on disk is named like the sentinel. *)
Definition attributeNames (element : JsxTag) : list string :=
  omap (fun attr => match attr with
                    | JsxAttribute name _ _ => Some name
                    | JsxSpreadAttribute => None
                    end) (tagAttributes element).

Definition noSentinelAttribute (w : World) : bool :=
  forallb (fun sf =>
             forallb (fun element =>
                        forallb (fun name => negb (String.eqb name spreadSentinel))
                                (attributeNames element))
                     (jsxElements sf))
          (disk w).

(** ** Example workspaces *)

Module Examples.

Definition file (path : string) (fs : list FunctionDeclaration)
  (vs : list VariableDeclaration) (tags : list JsxTag) (hits : list TextHit)
  : SourceFile :=
  {| fsPath := path; functions := fs; variableDeclarations := vs;
     typeAliases := []; interfaces := []; exportDeclarations := [];
     jsxElements := tags; textHits := hits |}.

Definition func (name : string) (props : list string) (line : nat) : FunctionDeclaration :=
  {| funcName := Some name;
     funcParameters :=
       match props with
       | [] => []
       | _ => [{| paramNameNode := ObjectBindingPattern props; paramTypeNode := None |}]
       end;
     funcStartLine := line; funcKeywordLine := Some line |}.

Definition selfClosing (name : string) (line : nat) (attrs : list JsxAttributeLike)
  : JsxTag :=
  {| tagKind := JsxSelfClosingElement; tagName := name; tagStartLine := line;
     tagAttributes := attrs |}.

Definition workspace (files : list SourceFile) : World :=
  {| disk := files; workspaceFiles := map fsPath files; stackLimit := 64 |}.

(** Scenario A.
    Parent.tsx: [function Parent(){ return <Child label="hi"/> }]
    Child.tsx:  [function Child({label}){...}] *)
Definition parentA : SourceFile :=
  file "/ws/Parent.tsx" [func "Parent" [] 1] []
       [selfClosing "Child" 1 [JsxAttribute "label" (Some (StringLiteral (Js.quoted "hi"))) 1]]
       [{| hitName := "Child"; hitLine := 0 |}].

Definition childA : SourceFile :=
  file "/ws/Child.tsx" [func "Child" ["label"] 1] [] [] [].

Definition scenarioA : World := workspace [parentA; childA].

(** Scenario C.
    Parent.tsx: [function Parent(){ return <Child {...rest}/> }] *)
Definition parentC : SourceFile :=
  file "/ws/Parent.tsx" [func "Parent" [] 1] []
       [selfClosing "Child" 1 [JsxSpreadAttribute]]
       [{| hitName := "Child"; hitLine := 0 |}].

Definition scenarioC : World := workspace [parentC; childA].

(** A spread two levels up.
    App.tsx: [function App(){ return <Parent {...all}/> }] over
    Parent.tsx: [function Parent(){ return <Child {...rest}/> }] *)
Definition appC : SourceFile :=
  file "/ws/App.tsx" [func "App" [] 1] []
       [selfClosing "Parent" 1 [JsxSpreadAttribute]]
       [{| hitName := "Parent"; hitLine := 0 |}].

Definition scenarioSpreads : World := workspace [appC; parentC; childA].

(** Scenario D: [function Orphan({label}){...}], rendered nowhere. *)
Definition orphanD : SourceFile :=
  file "/ws/Orphan.tsx" [func "Orphan" ["label"] 1] [] [] [].

Definition scenarioD : World := workspace [orphanD].

(** The letters A, B, C, ... as component names. *)
Definition letter (i : nat) : string := String (ascii_of_nat (65 + i)) EmptyString.

Definition pathOf (i : nat) : string := "/ws/" ++ letter i ++ ".tsx".

(** X.tsx, rendering the component [child]:
    [function X({ value }) {]
    [  return <Child value={value} />; }] *)
Definition passThrough (i : nat) (child : option nat) : SourceFile :=
  file (pathOf i) [func (letter i) ["value"] 1] []
       match child with
       | Some c => [selfClosing (letter c) 2
                      [JsxAttribute "value" (Some (JsxExpression (Some "value"))) 2]]
       | None => []
       end
       match child with
       | Some c => [{| hitName := letter c; hitLine := 1 |}]
       | None => []
       end.

(** [n] components in a line: B renders A, C renders B, ..., and the
    last one is rendered nowhere. *)
Definition lineOf (n : nat) : World :=
  workspace (map (fun i => passThrough i (match i with 0 => None | S c => Some c end))
                 (seq 0 n)).

(** [n] components in a ring: as in the line, and A renders the last. *)
Definition ringOf (n : nat) : World :=
  workspace (map (fun i => passThrough i (Some (match i with 0 => n - 1 | S c => c end)))
                 (seq 0 n)).

(** The input of the repository's test of [findPropUsage]:
    [function Parent() {]
    [  return <Button label="Click me" onClick={handleClick} />; }] *)
Definition buttonUser : SourceFile :=
  file "/tmp/Parent.tsx" [func "Parent" [] 5] []
       [selfClosing "Button" 6
          [JsxAttribute "label" (Some (StringLiteral (Js.quoted "Click me"))) 6;
           JsxAttribute "onClick" (Some (JsxExpression (Some "handleClick"))) 6]]
       [{| hitName := "Button"; hitLine := 5 |}].

(** [const Widget = disconnect(() => null);] *)
Definition widgetDecl : VariableDeclaration :=
  {| varName := "Widget";
     varInitializer := Some (CallExpression (Identifier "disconnect") [ArrowFunction []]);
     varTypeNode := None; varStartLine := 1; varStatementLine := Some 1 |}.

Definition widgetFile : SourceFile :=
  file "/ws/Widget.tsx" [] [widgetDecl] [] [].

(** [const MemoCard = React.memo(({ title }) => null);] *)
Definition memoCardDecl : VariableDeclaration :=
  {| varName := "MemoCard";
     varInitializer :=
       Some (CallExpression (PropertyAccessExpression "React" "memo")
               [ArrowFunction [{| paramNameNode := ObjectBindingPattern ["title"];
                                  paramTypeNode := None |}]]);
     varTypeNode := None; varStartLine := 1; varStatementLine := Some 1 |}.

(** [interface LayoutProps { sidebar?: boolean }]
    [type Props = React.PropsWithChildren<LayoutProps>;]
    [function Layout(props: Props) { ... }] *)
Definition layoutFile : SourceFile :=
  {| fsPath := "/ws/Layout.tsx";
     functions :=
       [{| funcName := Some "Layout";
           funcParameters :=
             [{| paramNameNode := IdentifierName "props";
                 paramTypeNode := Some (TypeReference "Props" "Props" []) |}];
           funcStartLine := 7; funcKeywordLine := Some 7 |}];
     variableDeclarations := [];
     typeAliases :=
       [{| aliasName := "Props";
           aliasTypeNode :=
             Some (TypeReference "React.PropsWithChildren"
                     "React.PropsWithChildren<LayoutProps>"
                     [TypeReference "LayoutProps" "LayoutProps" []]) |}];
     interfaces :=
       [{| interfaceName := "LayoutProps"; interfaceProperties := ["sidebar"];
           interfaceExtends := [] |}];
     exportDeclarations := []; jsxElements := []; textHits := [] |}.

(** [interface A extends B { a: string }]
    [interface B extends A { b: string }]
    [function Knot(props: A) { ... }] *)
Definition knotFile : SourceFile :=
  {| fsPath := "/ws/Knot.tsx";
     functions :=
       [{| funcName := Some "Knot";
           funcParameters :=
             [{| paramNameNode := IdentifierName "props";
                 paramTypeNode := Some (TypeReference "A" "A" []) |}];
           funcStartLine := 3; funcKeywordLine := Some 3 |}];
     variableDeclarations := []; typeAliases := [];
     interfaces :=
       [{| interfaceName := "A"; interfaceProperties := ["a"]; interfaceExtends := ["B"] |};
        {| interfaceName := "B"; interfaceProperties := ["b"]; interfaceExtends := ["A"] |}];
     exportDeclarations := []; jsxElements := []; textHits := [] |}.

(** The nodes a walk on the ring of three meets. *)
Definition onRing3 (nd : PropNode.t) : Prop :=
  PropNode.propName nd = "value"
  /\ ((PropNode.componentName nd = "A" /\ PropNode.filePath nd = "/ws/A.tsx")
      \/ (PropNode.componentName nd = "B" /\ PropNode.filePath nd = "/ws/B.tsx")
      \/ (PropNode.componentName nd = "C" /\ PropNode.filePath nd = "/ws/C.tsx")).

End Examples.

(** ** The props of one component (astAnalyzer.ts) *)

(** ts-morph's [getFunction(name)] and [getVariableDeclaration(name)]. *)
Definition getFunction (sf : SourceFile) (name : string) : option FunctionDeclaration :=
  find (fun func => match funcName func with
                    | Some n => String.eqb n name
                    | None => false
                    end) (functions sf).

Definition getVariableDeclaration (sf : SourceFile) (name : string)
  : option VariableDeclaration :=
  find (fun varDecl => String.eqb (varName varDecl) name) (variableDeclarations sf).

(** [extractPropsFromComponent(filePath, componentName)]; [project] holds
    the source files the project has loaded, and a file that is not
    among them yields no props. *)
Definition extractPropsFromComponent (stack : nat) (project : list SourceFile)
  (filePath componentName : string) : option (list string) :=
  match find (fun f => String.eqb (fsPath f) filePath) project with
  | None => Some []
  | Some sourceFile =>
      let fromFunction :=
        match getFunction sourceFile componentName with
        | Some func => propsOfFirstParameter stack sourceFile (funcParameters func)
        | None => Some []
        end in
      let fromVariable :=
        match getVariableDeclaration sourceFile componentName with
        | Some varDecl =>
            match varInitializer varDecl with
            | Some (ArrowFunction params) | Some (FunctionExpression params) =>
                propsOfFirstParameter stack sourceFile params
            | _ => Some []
            end
        | None => Some []
        end in
      match fromFunction, fromVariable with
      | Some fromFunction, Some fromVariable =>
          let props := (fromFunction ++ fromVariable)%list in
          Some (if length props =? 0
                then extractPropsFromTypeDefinition sourceFile componentName
                else props)
      | _, _ => None
      end
  end.

(** ** The commands (extension.ts) *)

(** The loop of [showPropLineage], [tracePropUpstream] and the hover:
    [for (const comp of components) if (comp.line <= line) componentName = comp.name] *)
Definition componentUnderCursor (components : list ComponentInfo) (line : nat)
  : option string :=
  fold_left (fun componentName comp =>
               if ciLine comp <=? line then Some (ciName comp) else componentName)
            components None.

Inductive Navigation : Type :=
| CouldNotDetermineComponent
| NoParentComponentFound
| ErrorNavigating
| NavigateTo (parent : PropNode.t).

(** [tracePropUpstream] for the word [propName] under a cursor on the
    0-based line [positionLine]: the message shown, or the node the
    command goes on to open.  [analyzeFile] is called outside the
    [try], so its error leaves the command. *)
Definition tracePropUpstream (w : World) (filePath : string) (positionLine : nat)
  (propName : string) : option Navigation :=
  match analyzeFile w filePath with
  | None => None
  | Some components =>
      match componentUnderCursor components (positionLine + 1) with
      | None => Some CouldNotDetermineComponent
      | Some componentName =>
          if negb (Js.truthy componentName) then Some CouldNotDetermineComponent
          else
            match buildPropChain w filePath componentName propName with
            | None => Some ErrorNavigating
            | Some trace =>
                if length (PropTrace.chain trace) <? 2 then Some NoParentComponentFound
                else
                  match PropTrace.nodeAt trace 1 with
                  | Some parent => Some (NavigateTo parent)
                  | None => Some ErrorNavigating
                  end
            end
      end
  end.

(** ** Auxiliary definitions *)

(** The closing part of a brace expression: nothing, or white space and
    an optional closing brace. *)
Definition closes (s : string) : Prop :=
  exists ws, Js.all Js.isSpace ws = true /\ (s = ws \/ s = (ws ++ "}")%string).

Definition isExplicit (attr : JsxAttributeLike) : bool := negb (isSpreadAttribute attr).

(** The tags [findPropUsageAtLocation] chooses from. *)
Definition tagsNamed (sf : SourceFile) (componentName : string) : list JsxTag :=
  List.filter (fun element => String.eqb (tagName element) componentName)
              (getDescendantsOfKind sf JsxOpeningElement
               ++ getDescendantsOfKind sf JsxSelfClosingElement)%list.

(** One step of [dedupe]. *)
Definition dedupeStep (seen : list string) (p : string) : list string :=
  if existsb (String.eqb p) seen then seen else (seen ++ [p])%list.

(** No type-literal alias of the file repeats a member name. *)
Definition literalsDistinct (sf : SourceFile) : bool :=
  forallb (fun a => match aliasTypeNode a with
                    | Some (TypeLiteral members) => bool_decide (NoDup (memberNames members))
                    | _ => true
                    end) (typeAliases sf).

(** The body of the loop of [findComponentAtLine], and what holds of
    [closestComponent] once the components [seen] have gone by. *)
Definition closestStep (line : nat) (closestComponent : option (string * nat))
  (comp : ComponentInfo) : option (string * nat) :=
  if ciLine comp <=? line then
    match closestComponent with
    | None => Some (ciName comp, ciLine comp)
    | Some (_, closestLine) =>
        if closestLine <? ciLine comp
        then Some (ciName comp, ciLine comp)
        else closestComponent
    end
  else closestComponent.

Definition closestInvariant (line : nat) (seen : list ComponentInfo)
  (closestComponent : option (string * nat)) : Prop :=
  match closestComponent with
  | None => forall c, In c seen -> line < ciLine c
  | Some (name, closestLine) =>
      (exists c, In c seen /\ ciName c = name /\ ciLine c = closestLine)
      /\ closestLine <= line
      /\ forall c, In c seen -> ciLine c <= line -> ciLine c <= closestLine
  end.

(** The components are listed by strictly increasing line. *)
Fixpoint linesIncrease (components : list ComponentInfo) : bool :=
  match components with
  | [] => true
  | c :: rest => forallb (fun c' => ciLine c <? ciLine c') rest && linesIncrease rest
  end.

(** An attribute whose value reads like the sentinel, as the object
    literal of [data={{...spread}}] does. *)
Definition carriesSentinel (attr : JsxAttributeLike) : bool :=
  match attr with
  | JsxAttribute _ (Some (StringLiteral text)) _ => String.eqb text spreadSentinel
  | JsxAttribute _ (Some (JsxExpression (Some expression))) _ =>
      String.eqb expression spreadSentinel
  | _ => false
  end.

(** No tag on disk carries a spread or a value that reads like the
    sentinel. *)
Definition spreadFree (w : World) : bool :=
  forallb (fun sf =>
             forallb (fun element =>
                        forallb (fun attr => negb (isSpreadAttribute attr)
                                             && negb (carriesSentinel attr))
                                (tagAttributes element))
                     (jsxElements sf))
          (disk w).

(** What the loop over the attributes takes from an attribute named like
    the prop: nothing from an element initializer, which it passes over. *)
Definition attributeValue (initializer : option JsxInitializer) : option (option string) :=
  match initializer with
  | None => Some (Some "true")
  | Some (StringLiteral text) => Some (Some text)
  | Some (JsxExpression expression) => Some expression
  | Some JsxElementInitializer => None
  end.

(** The attribute ends the loop for the prop [propName]. *)
Definition decides (propName : string) (attr : JsxAttributeLike) : bool :=
  match attr with
  | JsxAttribute name initializer _ =>
      String.eqb name propName
      && match attributeValue initializer with Some _ => true | None => false end
  | JsxSpreadAttribute => false
  end.

(** [analyzeFile] throws on the path. *)
Definition analysisThrows (w : World) (filePath : string) : bool :=
  match analyzeFile w filePath with
  | Some _ => false
  | None => true
  end.

(** ** Further example files *)

Module Samples.
Import Examples.

(** [interface Base { id: string }]
    [interface CardProps extends Base { title: string }]
    [type BadgeProps = { text: string; tone: string }]
    [function Card(props: CardProps) { ... }] *)
Definition cardFile : SourceFile :=
  {| fsPath := "/ws/Card.tsx";
     functions :=
       [{| funcName := Some "Card";
           funcParameters :=
             [{| paramNameNode := IdentifierName "props";
                 paramTypeNode := Some (TypeReference "CardProps" "CardProps" []) |}];
           funcStartLine := 4; funcKeywordLine := Some 4 |}];
     variableDeclarations := [];
     typeAliases :=
       [{| aliasName := "BadgeProps";
           aliasTypeNode :=
             Some (TypeLiteral [PropertySignature "text"; PropertySignature "tone"]) |}];
     interfaces :=
       [{| interfaceName := "Base"; interfaceProperties := ["id"]; interfaceExtends := [] |};
        {| interfaceName := "CardProps"; interfaceProperties := ["title"];
           interfaceExtends := ["Base"] |}];
     exportDeclarations := []; jsxElements := []; textHits := [] |}.

(** index.ts: [export { Child as Kid } from './Child';] *)
Definition barrelFile : SourceFile :=
  {| fsPath := "/ws/index.ts";
     functions := []; variableDeclarations := []; typeAliases := []; interfaces := [];
     exportDeclarations :=
       [{| exportModuleSpecifier := Some "./Child";
           exportResolvedPath := Some "/ws/Child.tsx";
           exportNamedExports := [{| exportName := "Child"; exportAlias := Some "Kid" |}];
           exportStartLine := 1 |}];
     jsxElements := []; textHits := [] |}.

Definition barrelWorld : World := workspace [barrelFile; childA].

Definition kid : ComponentInfo :=
  {| ciName := "Kid"; ciFilePath := "/ws/index.ts"; ciProps := ["label"]; ciLine := 1 |}.

(** Panel.tsx, two components of which the first renders the second:
    [function Panel() {]
    [  return <Row label="x" />; }]
    [function Row({ label }) { ... }] *)
Definition panelFile : SourceFile :=
  file "/ws/Panel.tsx" [func "Panel" [] 1; func "Row" ["label"] 4] []
       [selfClosing "Row" 2 [JsxAttribute "label" (Some (StringLiteral (Js.quoted "x"))) 2]]
       [{| hitName := "Row"; hitLine := 1 |}].

Definition panelWorld : World := workspace [panelFile].

(** [<Child {...rest} label={title} />] and [<Child label={title} {...rest} />] *)
Definition spreadFirst : JsxTag :=
  selfClosing "Child" 3
    [JsxSpreadAttribute; JsxAttribute "label" (Some (JsxExpression (Some "title"))) 3].

Definition spreadLast : JsxTag :=
  selfClosing "Child" 3
    [JsxAttribute "label" (Some (JsxExpression (Some "title"))) 3; JsxSpreadAttribute].

(** Tangle.tsx, a file that renders [Child] and whose analysis runs out
    of stack:
    [interface A extends B { a: string }]
    [interface B extends A { b: string }]
    [function Tangle(props: A) {]
    [  return <Child label="lost" />; }] *)
Definition tangleFile : SourceFile :=
  {| fsPath := "/ws/Tangle.tsx";
     functions :=
       [{| funcName := Some "Tangle";
           funcParameters :=
             [{| paramNameNode := IdentifierName "props";
                 paramTypeNode := Some (TypeReference "A" "A" []) |}];
           funcStartLine := 3; funcKeywordLine := Some 3 |}];
     variableDeclarations := []; typeAliases := [];
     interfaces :=
       [{| interfaceName := "A"; interfaceProperties := ["a"]; interfaceExtends := ["B"] |};
        {| interfaceName := "B"; interfaceProperties := ["b"]; interfaceExtends := ["A"] |}];
     exportDeclarations := [];
     jsxElements :=
       [selfClosing "Child" 4
          [JsxAttribute "label" (Some (StringLiteral (Js.quoted "lost"))) 4]];
     textHits := [{| hitName := "Child"; hitLine := 3 |}] |}.

Definition tangleWorld : World := workspace [tangleFile; parentA; childA].

End Samples.

(** ** Workspaces of pass-through components *)

(** [name].tsx, where the component [name] takes the prop [value] and
    passes it on to [child]:
    [function Name({ value }) {]
    [  return <Child value={value} />; }] *)
Definition pathName (name : string) : string := "/ws/" ++ name ++ ".tsx".

Definition passName (name child : string) : SourceFile :=
  Examples.file (pathName name) [Examples.func name ["value"] 1] []
    [Examples.selfClosing child 2
       [JsxAttribute "value" (Some (JsxExpression (Some "value"))) 2]]
    [{| hitName := child; hitLine := 1 |}].

(** One file for each link [(name, child)]. *)
Definition passWorld (links : list (string * string)) : World :=
  Examples.workspace (map (fun link => passName (fst link) (snd link)) links).

(** Every component has a file of its own and an upper-case name, none
    renders itself, each is rendered by some component, and the
    workspace search reaches every file. *)
Definition allRendered (links : list (string * string)) : bool :=
  bool_decide (NoDup (map fst links))
  && forallb Js.testUpperFirst (map fst links)
  && forallb (fun link => negb (String.eqb (fst link) (snd link))) links
  && forallb (fun name => existsb (String.eqb name) (map snd links)) (map fst links)
  && (length links <=? 200).

(** The nodes of a walk in such a workspace. *)
Definition onLinks (links : list (string * string)) (nd : PropNode.t) : Prop :=
  PropNode.propName nd = "value"
  /\ In (PropNode.componentName nd) (map fst links)
  /\ PropNode.filePath nd = pathName (PropNode.componentName nd).

(** The ring of the letters: B renders A, C renders B, ..., and A renders
    the last. *)
Definition ringLinks (n : nat) : list (string * string) :=
  map (fun i => (Examples.letter i,
                 Examples.letter (match i with 0 => n - 1 | S c => c end)))
      (seq 0 n).

(** A ring of 21 usages in which A and B share a file:
    AB.tsx holds [function A({ value }) { return <U value={value} />; }]
    and [function B({ value }) { return <A value={value} />; }],
    C renders B, D renders C, ..., U renders T. *)
Definition sharedFile : SourceFile :=
  Examples.file "/ws/AB.tsx"
    [Examples.func "A" ["value"] 1; Examples.func "B" ["value"] 4] []
    [Examples.selfClosing "U" 2
       [JsxAttribute "value" (Some (JsxExpression (Some "value"))) 2];
     Examples.selfClosing "A" 5
       [JsxAttribute "value" (Some (JsxExpression (Some "value"))) 5]]
    [{| hitName := "U"; hitLine := 1 |}; {| hitName := "A"; hitLine := 4 |}].

Definition sharedRing : World :=
  Examples.workspace
    (sharedFile :: map (fun i => Examples.passThrough i (Some (i - 1))) (seq 2 19)).

(** The file a component of the shared ring lives in. *)
Definition homeOf (i : nat) : string :=
  if i <? 2 then "/ws/AB.tsx" else Examples.pathOf i.

(** * Facts *)

Local Open Scope list_scope.

(** ** The walk and its hops *)

Lemma alter_last {A} (f : A -> A) (pre : list A) (x : A) (rest : list A) :
  alter f (length pre) (pre ++ x :: rest) = pre ++ f x :: rest.
Proof.
  rewrite alter_app_r_alt by lia. rewrite Nat.sub_diag. reflexivity.
Qed.

Lemma link_length nodes : forall a broke, length (link a broke nodes) = length nodes.
Proof.
  induction nodes as [|n rest IH]; intros a broke; [reflexivity|].
  destruct rest as [|r rest]; [reflexivity|].
  change (S (length (link (S a) broke (r :: rest))) = S (length (r :: rest))).
  now rewrite IH.
Qed.

Lemma link_lookup nodes : forall a broke j nd,
  nodes !! j = Some nd ->
  link a broke nodes !! j
  = Some (if S j <? length nodes then PropNode.setParent (Some (S (a + j))) nd
          else if broke then PropNode.setType SOURCE nd else nd).
Proof.
  induction nodes as [|n rest IH]; intros a broke j nd Hj; [discriminate|].
  destruct rest as [|r rest].
  - destruct j as [|j]; [|discriminate]. injection Hj as ->. reflexivity.
  - destruct j as [|j].
    + injection Hj as ->. cbn [link lookup list_lookup]. rewrite Nat.add_0_r. reflexivity.
    + change (link (S a) broke (r :: rest) !! j = Some
               (if S (S j) <? S (length (r :: rest))
                then PropNode.setParent (Some (S (a + S j))) nd
                else if broke then PropNode.setType SOURCE nd else nd)).
      rewrite (IH (S a) broke j nd Hj).
      replace (S (a + S j)) with (S (S a + j)) by lia. reflexivity.
Qed.

(** *** The relabelling *)

Lemma setTypeOf_miss r ty h i (a : nat) :
  r !! i <> Some a -> setTypeOf r ty h i !! a = h !! a.
Proof.
  intros Hmiss. unfold setTypeOf, setTypeAt.
  destruct (r !! i) as [b|]; [|reflexivity].
  apply list_lookup_alter_ne. congruence.
Qed.

Lemma setTypeOf_hit r ty h i (a : nat) nd :
  r !! i = Some a -> h !! a = Some nd ->
  setTypeOf r ty h i !! a = Some (PropNode.setType ty nd).
Proof.
  intros Hi Ha. unfold setTypeOf, setTypeAt.
  rewrite Hi, list_lookup_alter_eq, Ha. reflexivity.
Qed.

Lemma usage_loop_miss r (indices : list nat) : forall h (a : nat),
  (forall j, j ∈ indices -> r !! j <> Some a) ->
  fold_left (setTypeOf r USAGE) indices h !! a = h !! a.
Proof.
  induction indices as [|j js IH]; intros h a Hmiss; [reflexivity|].
  cbn [fold_left]. rewrite IH by (intros j' Hj'; apply Hmiss; now right).
  apply setTypeOf_miss, Hmiss. now left.
Qed.

Lemma usage_loop_hit r (indices : list nat) : forall h (a i : nat) nd,
  NoDup r -> NoDup indices -> i ∈ indices -> r !! i = Some a -> h !! a = Some nd ->
  fold_left (setTypeOf r USAGE) indices h !! a = Some (PropNode.setType USAGE nd).
Proof.
  induction indices as [|j js IH]; intros h a i nd Hr Hnd Hin Hi Ha; [inversion Hin|].
  apply NoDup_cons in Hnd as [Hj Hjs]. cbn [fold_left].
  apply elem_of_cons in Hin as [->|Hin].
  - rewrite usage_loop_miss; [now apply setTypeOf_hit|].
    intros j' Hj' Hrj. apply Hj.
    now rewrite <- (NoDup_lookup r j' j a Hr Hrj Hi).
  - apply (IH _ a i nd Hr Hjs Hin Hi).
    rewrite setTypeOf_miss; [assumption|].
    intros Hrj. apply Hj. now rewrite (NoDup_lookup r j i a Hr Hrj Hi).
Qed.

(** After the relabelling the node at position [i] of the chain carries
    the label of that position, and nothing else about it changed. *)
Lemma relabel_lookup r (h : list PropNode.t) (i a : nat) (nd : PropNode.t) :
  NoDup r -> r !! i = Some a -> h !! a = Some nd ->
  relabel r h !! a = Some (PropNode.setType (finalType (length r) i) nd).
Proof.
  intros Hr Hi Ha. unfold relabel.
  assert (i < length r) as Hlt by (apply lookup_lt_is_Some; eauto).
  destruct (0 <? length r) eqn:Hlen0; [|apply Nat.ltb_ge in Hlen0; lia].
  destruct (r !! 0) as [first|] eqn:Hfirst; [|apply lookup_ge_None in Hfirst; lia].
  unfold finalType.
  destruct (1 <? length r) eqn:Hlen.
  - apply Nat.ltb_lt in Hlen.
    destruct (r !! (length r - 1)) as [lastA|] eqn:Hlast;
      [|apply lookup_ge_None in Hlast; lia].
    destruct (Nat.eqb_spec i 0) as [->|Hi0].
    + rewrite usage_loop_miss.
      * rewrite setTypeOf_miss; [now apply setTypeOf_hit|].
        intros Hl. pose proof (NoDup_lookup r _ _ _ Hr Hl Hi). lia.
      * intros j Hj Hrj. apply elem_of_seq in Hj.
        pose proof (NoDup_lookup r _ _ _ Hr Hrj Hi). lia.
    + destruct (Nat.eqb_spec i (length r - 1)) as [->|Hil].
      * rewrite usage_loop_miss.
        -- apply setTypeOf_hit; [assumption|].
           rewrite setTypeOf_miss; [assumption|].
           intros H0. pose proof (NoDup_lookup r _ _ _ Hr H0 Hi). lia.
        -- intros j Hj Hrj. apply elem_of_seq in Hj.
           pose proof (NoDup_lookup r _ _ _ Hr Hrj Hi). lia.
      * apply (usage_loop_hit r _ _ a i nd Hr).
        -- apply NoDup_seq.
        -- apply elem_of_seq. lia.
        -- assumption.
        -- rewrite !setTypeOf_miss; [assumption| |].
           ++ intros H0. pose proof (NoDup_lookup r _ _ _ Hr H0 Hi). lia.
           ++ intros Hl. pose proof (NoDup_lookup r _ _ _ Hr Hl Hi). lia.
  - apply Nat.ltb_ge in Hlen.
    assert (i = 0) as -> by lia.
    now apply setTypeOf_hit.
Qed.

Section WalkFacts.

Variable w : World.

Lemma firstParent_resolution usages node :
  firstParent w usages node
  = option_map nodeOfResolution (firstResolution w usages node).
Proof.
  induction usages as [|location rest IH]; simpl; [reflexivity|].
  destruct (String.eqb _ _); [exact IH|].
  unfold analyzeLocationForPropUsage.
  destruct (resolveUsage w location node) as [[propUsage parent]|];
    [reflexivity | exact IH].
Qed.

Lemma findParentNode_resolution node :
  findParentNode w node = option_map nodeOfResolution (findParentResolution w node).
Proof.
  unfold findParentNode, findParentResolution.
  rewrite <- firstParent_resolution.
  destruct (findComponentUsagesInWorkspace w (PropNode.componentName node));
    reflexivity.
Qed.

Lemma hops_resolutions n : forall node,
  hops w n node = map nodeOfResolution (resolutions w n node).
Proof.
  induction n as [|n IH]; intros node; simpl; [reflexivity|].
  rewrite findParentNode_resolution.
  destruct (findParentResolution w node) as [r|]; simpl;
    [now rewrite IH | reflexivity].
Qed.

Lemma hops_length n : forall node, length (hops w n node) <= n.
Proof.
  induction n as [|n IH]; intros node; simpl; [lia|].
  destruct (findParentNode w node) as [p|]; simpl; [specialize (IH p)|]; lia.
Qed.

Lemma findParentNode_parent node p :
  findParentNode w node = Some p -> PropNode.parent p = None.
Proof.
  rewrite findParentNode_resolution.
  destruct (findParentResolution w node); simpl; [|discriminate].
  intros [= <-]. reflexivity.
Qed.

Lemma hops_parent n : forall node p,
  p ∈ hops w n node -> PropNode.parent p = None.
Proof.
  induction n as [|n IH]; intros node p; simpl; [intros H; inversion H|].
  destruct (findParentNode w node) as [q|] eqn:Hq; [|intros H; inversion H].
  intros [->|Hin]%elem_of_cons; [eapply findParentNode_parent; eassumption|].
  eapply IH; eassumption.
Qed.

(** The loop, from a frame whose current node is the last one allocated:
    it allocates the hops of that node in order and links each node to
    the next. *)
Lemma walk_link maxDepth : forall fuel pre node d am,
  maxDepth - d <= fuel ->
  walk w maxDepth fuel
    {| heap := pre ++ [node]; chain := seq 0 (S (length pre));
       currentNode := length pre; depth := d; ambiguous := am |}
  = {| heap := pre ++ link (length pre)
                        (length (hops w (maxDepth - d) node) <? maxDepth - d)
                        (node :: hops w (maxDepth - d) node);
       chain := seq 0 (S (length pre) + length (hops w (maxDepth - d) node));
       currentNode := length pre + length (hops w (maxDepth - d) node);
       depth := d + min (S (length (hops w (maxDepth - d) node))) (maxDepth - d);
       ambiguous := am || existsb isSpreadNamed (hops w (maxDepth - d) node) |}.
Proof.
  induction fuel as [|fuel IH]; intros pre node d am Hfuel.
  - assert (maxDepth - d = 0) as -> by lia.
    simpl. destruct (d <? maxDepth); rewrite ?Nat.add_0_r, ?orb_false_r; reflexivity.
  - cbn [walk depth].
    destruct (d <? maxDepth) eqn:Hd.
    + apply Nat.ltb_lt in Hd.
      cbn [incrementDepth heap currentNode chain depth ambiguous].
      rewrite (list_lookup_middle pre [] node (length pre) eq_refl).
      replace (maxDepth - d) with (S (maxDepth - S d)) by lia.
      cbn [hops].
      destruct (findParentNode w node) as [p|] eqn:Hp.
      * unfold advance, incrementDepth, setParentAt.
        cbn [heap currentNode chain depth ambiguous].
        rewrite <- (app_assoc pre [node] [p]). cbn [app].
        rewrite alter_last, length_app. cbn [length].
        rewrite Nat.add_1_r.
        change (pre ++ [PropNode.setParent (Some (S (length pre))) node; p])
          with (pre ++ [PropNode.setParent (Some (S (length pre))) node] ++ [p]).
        rewrite app_assoc, <- seq_S.
        set (pre' := pre ++ [PropNode.setParent (Some (S (length pre))) node]).
        assert (length pre' = S (length pre)) as Hlen
          by (unfold pre'; rewrite length_app; simpl; lia).
        rewrite <- Hlen.
        rewrite IH by lia.
        f_equal.
        -- rewrite Hlen. unfold pre'. rewrite <- app_assoc. reflexivity.
        -- f_equal. simpl. lia.
        -- simpl. lia.
        -- simpl. lia.
        -- simpl. unfold isSpreadNamed at 2, spreadSentinel.
           destruct (String.eqb _ _); [rewrite orb_true_r|]; reflexivity.
      * unfold markLastAsSource, incrementDepth, setTypeAt.
        cbn [heap currentNode chain depth ambiguous].
        rewrite seq_S, last_snoc. cbn [plus].
        rewrite alter_last, <- seq_S.
        cbn [length existsb link]. rewrite Nat.add_0_r, orb_false_r.
        f_equal. lia.
    + apply Nat.ltb_ge in Hd.
      assert (maxDepth - d = 0) as -> by lia.
      simpl. rewrite ?Nat.add_0_r, ?orb_false_r. reflexivity.
Qed.

Lemma reverse_seq_lookup (n j : nat) :
  j < n -> reverse (seq 0 n) !! (n - 1 - j) = Some j.
Proof.
  intros Hj. rewrite reverse_lookup by (rewrite length_seq; lia).
  rewrite length_seq. apply lookup_seq. lia.
Qed.

Lemma reverse_seq_lookup_pos (n i : nat) :
  i < n -> reverse (seq 0 n) !! i = Some (n - 1 - i).
Proof.
  intros Hi. rewrite reverse_lookup by (rewrite length_seq; lia).
  rewrite length_seq. apply lookup_seq. lia.
Qed.

(** What [buildPropChain] returns, in terms of the hops of the requested
    node: the chain lists the addresses from the last hop down to the
    requested node, and the store holds the nodes relabelled and
    linked. *)
Lemma buildPropChainWith_spec maxDepth filePath componentName propName components :
  analyzeFile w filePath = Some components ->
  let lineCode := match findComponent componentName components with
                  | Some currentComponent => ciLine currentComponent
                  | None => 0
                  end in
  let n0 := definitionNode filePath componentName propName lineCode in
  let hs := hops w maxDepth n0 in
  exists t,
    buildPropChainWith w maxDepth filePath componentName propName = Some t
    /\ PropTrace.propName t = propName
    /\ PropTrace.chain t = reverse (seq 0 (S (length hs)))
    /\ PropTrace.isComplete t = (S (length hs) <? maxDepth)
    /\ PropTrace.ambiguous t = existsb isSpreadNamed hs
    /\ forall j nd, (n0 :: hs) !! j = Some nd ->
         PropTrace.store t !! j
         = Some (PropNode.setType (finalType (S (length hs)) (length hs - j))
                   (PropNode.setParent (if j <? length hs then Some (S j) else None) nd)).
Proof.
  intros Hcomponents lineCode n0 hs.
  unfold buildPropChainWith. rewrite Hcomponents.
  fold lineCode.
  pose proof (walk_link maxDepth maxDepth [] n0 0 false ltac:(lia)) as Hwalk.
  rewrite Nat.sub_0_r in Hwalk. fold hs in Hwalk.
  cbn [app length] in Hwalk.
  change (seq 0 1) with [0] in Hwalk.
  unfold n0 at 1, definitionNode in Hwalk. rewrite Hwalk. clear Hwalk.
  cbn [heap chain depth ambiguous].
  eexists. split; [reflexivity|]. cbn [PropTrace.propName PropTrace.chain
    PropTrace.isComplete PropTrace.ambiguous PropTrace.store].
  pose proof (hops_length maxDepth n0) as Hlen. fold hs in Hlen.
  repeat split.
  - cbn [plus].
    destruct (Nat.leb_spec maxDepth (S (length hs) `min` maxDepth));
      destruct (Nat.ltb_spec (S (length hs)) maxDepth); simpl; try reflexivity; lia.
  - intros j nd Hj.
    assert (j < S (length hs)) as Hjlt
      by (apply lookup_lt_Some in Hj; simpl in Hj; lia).
    pose proof (link_lookup (n0 :: hs) 0 (length hs <? maxDepth) j nd Hj) as Hlink.
    erewrite (relabel_lookup _ _ (length hs - j) j); [| rewrite reverse_Permutation; apply NoDup_seq | | exact Hlink].
    + rewrite length_reverse, length_seq. f_equal.
      cbn [length]. 
      destruct (Nat.ltb_spec (S j) (S (length hs))); destruct (Nat.ltb_spec j (length hs));
        try lia; [reflexivity|].
      assert (PropNode.parent nd = None) as Hparent.
      { destruct j as [|j]; [injection Hj as <-; reflexivity|].
        apply (hops_parent maxDepth n0). apply list_elem_of_lookup. eauto. }
      destruct nd; simpl in Hparent; subst.
      destruct (length hs <? maxDepth); reflexivity.
    + replace (length hs - j) with (S (length hs) - 1 - j) by lia.
      apply reverse_seq_lookup. lia.
Qed.

End WalkFacts.

(** ** The sentinel and the prop names *)

Lemma takeWhile_isWord_not_sentinel s : Js.takeWhile Js.isWord s <> spreadSentinel.
Proof.
  destruct s as [|c s]; [discriminate|]. cbn [Js.takeWhile].
  destruct (Js.isWord c) eqn:Hc; [|discriminate].
  intros [= -> _]. vm_compute in Hc. discriminate.
Qed.

Lemma matchSimpleIdentifier_word s name :
  Js.matchSimpleIdentifier s = Some name -> exists s', name = Js.takeWhile Js.isWord s'.
Proof.
  unfold Js.matchSimpleIdentifier.
  destruct (Js.truthy _); [|discriminate].
  destruct (Js.dropWhile Js.isSpace (Js.dropWhile Js.isWord _)) as [|c [|c' rest]];
    try discriminate.
  - intros [= <-]. eauto.
  - destruct (Ascii.eqb_spec c "}"%char) as [->|Hne].
    + intros [= <-]. eauto.
    + destruct c as [[] [] [] [] [] [] [] []]; try discriminate. now contradict Hne.
  - destruct c as [[] [] [] [] [] [] [] []]; discriminate.
Qed.

Lemma matchPropsAccess_word s : forall name,
  Js.matchPropsAccess s = Some name -> exists s', name = Js.takeWhile Js.isWord s'.
Proof.
  induction s as [|c s IH]; intros name; [discriminate|].
  cbn [Js.matchPropsAccess].
  destruct (_ && _); [intros [= <-]; eauto | apply IH].
Qed.

(** Only the sentinel is recorded as the sentinel. *)
Lemma extractPropName_sentinel value :
  extractPropName value = spreadSentinel <-> value = Some spreadSentinel.
Proof.
  split; [|intros ->; reflexivity].
  destruct value as [v|]; [|discriminate]. unfold extractPropName.
  destruct (Js.truthy v); [|discriminate]. cbn [negb].
  destruct (String.eqb_spec v "{...spread}") as [->|Hv]; [reflexivity|].
  destruct (Js.matchSimpleIdentifier v) as [name|] eqn:Hsimple.
  - destruct (matchSimpleIdentifier_word _ _ Hsimple) as [s' ->].
    intros H. now apply takeWhile_isWord_not_sentinel in H.
  - destruct (Js.matchPropsAccess v) as [name|] eqn:Haccess.
    + destruct (matchPropsAccess_word _ _ Haccess) as [s' ->].
      intros H. now apply takeWhile_isWord_not_sentinel in H.
    + intros ->. now contradict Hv.
Qed.

Lemma isSpreadNamed_resolution r :
  isSpreadNamed (nodeOfResolution r) = true <-> resolvedValue r = Some spreadSentinel.
Proof.
  unfold isSpreadNamed. rewrite String.eqb_eq. apply extractPropName_sentinel.
Qed.

(** ** Looking for an attribute named like the sentinel *)

Lemma scanAttributes_sentinel attributes :
  forallb (fun name => negb (String.eqb name spreadSentinel))
          (omap (fun attr => match attr with
                             | JsxAttribute name _ _ => Some name
                             | JsxSpreadAttribute => None
                             end) attributes) = true ->
  scanAttributes spreadSentinel attributes = None.
Proof.
  induction attributes as [|[name initializer line|] rest IH]; intros Hall;
    [reflexivity| |exact (IH Hall)].
  cbn in Hall. apply andb_true_iff in Hall as [Hname Hrest].
  cbn [scanAttributes]. apply negb_true_iff in Hname. rewrite Hname. exact (IH Hrest).
Qed.

Lemma usageInTag_sentinel element usage :
  forallb (fun name => negb (String.eqb name spreadSentinel)) (attributeNames element) = true ->
  usageInTag spreadSentinel element = Some usage ->
  usageValue usage = Some spreadSentinel.
Proof.
  intros Hall. unfold usageInTag.
  rewrite (scanAttributes_sentinel _ Hall).
  destruct (hasSpread _); [|discriminate]. now intros [= <-].
Qed.

Lemma closestTo_elem nearLine matching : forall first,
  closestTo nearLine first matching = first \/ In (closestTo nearLine first matching) matching.
Proof.
  unfold closestTo.
  induction matching as [|m rest IH]; intros first; [now left|].
  cbn [fold_left].
  destruct (distance (tagStartLine m) nearLine <? distance (tagStartLine first) nearLine).
  - destruct (IH m) as [->|Hin]; right; [now left | now right].
  - destruct (IH first) as [->|Hin]; [now left | right; now right].
Qed.

Lemma findPropUsageAtLocation_sentinel sf componentName nearLine usage :
  forallb (fun element =>
             forallb (fun name => negb (String.eqb name spreadSentinel))
                     (attributeNames element)) (jsxElements sf) = true ->
  findPropUsageAtLocation sf componentName spreadSentinel nearLine = Some usage ->
  usageValue usage = Some spreadSentinel.
Proof.
  intros Hall. unfold findPropUsageAtLocation.
  set (allElements := (getDescendantsOfKind sf JsxOpeningElement
                       ++ getDescendantsOfKind sf JsxSelfClosingElement)).
  destruct (filter _ allElements) as [|first rest] eqn:Hmatching; [discriminate|].
  apply usageInTag_sentinel.
  rewrite forallb_forall in Hall. apply Hall.
  assert (forall element, In element (first :: rest) -> In element (jsxElements sf)) as Hsub.
  { intros element Hin. rewrite <- Hmatching in Hin.
    apply list_elem_of_In, list_elem_of_filter in Hin as [_ Hin].
    unfold allElements, getDescendantsOfKind in Hin.
    apply elem_of_app in Hin as [Hin|Hin];
      apply list_elem_of_filter in Hin as [_ Hin]; now apply list_elem_of_In. }
  destruct (closestTo_elem nearLine (first :: rest) first) as [->|Hin];
    [apply Hsub; now left | now apply Hsub].
Qed.

(** ** Hops above a node named like the sentinel *)

Section SpreadFacts.

Variable w : World.
Hypothesis attributes_ok : noSentinelAttribute w = true.

Lemma getSourceFile_on_disk filePath sf :
  getSourceFile w filePath = Some sf -> In sf (disk w).
Proof. unfold getSourceFile. intros H. now apply find_some in H. Qed.

Lemma resolveUsage_sentinel location node usage parentComponent :
  PropNode.propName node = spreadSentinel ->
  resolveUsage w location node = Some (usage, parentComponent) ->
  usageValue usage = Some spreadSentinel.
Proof.
  intros Hname. unfold resolveUsage. rewrite Hname.
  destruct (getSourceFile w (locationPath location)) as [sf|] eqn:Hsf; [|discriminate].
  destruct (findPropUsageAtLocation sf _ _ _) as [propUsage|] eqn:Husage; [|discriminate].
  destruct (findComponentAtLine w _ _) as [[parent|]|]; try discriminate.
  intros [= <- _].
  apply (findPropUsageAtLocation_sentinel sf _ _ _) in Husage; [assumption|].
  unfold noSentinelAttribute in attributes_ok. rewrite forallb_forall in attributes_ok.
  apply attributes_ok. eapply getSourceFile_on_disk; eassumption.
Qed.

Lemma firstResolution_sentinel usages node r :
  PropNode.propName node = spreadSentinel ->
  firstResolution w usages node = Some r ->
  resolvedValue r = Some spreadSentinel.
Proof.
  intros Hname. induction usages as [|location rest IH]; [discriminate|].
  cbn [firstResolution]. destruct (String.eqb _ _); [exact IH|].
  destruct (resolveUsage w location node) as [[usage parent]|] eqn:Hresolve;
    [|exact IH].
  intros [= <-]. unfold resolvedValue. cbn [fst snd].
  eapply resolveUsage_sentinel; eassumption.
Qed.

(** Above a node named like the sentinel, a hop resolves through a
    spread or not at all. *)
Lemma findParentResolution_sentinel node r :
  PropNode.propName node = spreadSentinel ->
  findParentResolution w node = Some r ->
  resolvedValue r = Some spreadSentinel.
Proof. intros Hname. now apply firstResolution_sentinel. Qed.

Lemma resolutions_all_spread n : forall node r,
  PropNode.propName node = spreadSentinel ->
  In r (resolutions w n node) ->
  resolvedValue r = Some spreadSentinel.
Proof.
  induction n as [|n IH]; intros node r Hname; [intros []|].
  cbn [resolutions].
  destruct (findParentResolution w node) as [r0|] eqn:Hr0; [|intros []].
  pose proof (findParentResolution_sentinel node r0 Hname Hr0) as Hvalue.
  intros [<-|Hin]; [assumption|].
  apply (IH (nodeOfResolution r0)); [|assumption].
  now apply extractPropName_sentinel.
Qed.

(** Once a resolution records the sentinel, every later one of the walk
    resolves to the sentinel. *)
Lemma resolutions_after_spread n : forall node k k' r r',
  k < k' ->
  resolutions w n node !! k = Some r ->
  PropNode.propName (nodeOfResolution r) = spreadSentinel ->
  resolutions w n node !! k' = Some r' ->
  resolvedValue r' = Some spreadSentinel.
Proof.
  induction n as [|n IH]; intros node k k' r r' Hlt Hk Hname Hk'; [discriminate|].
  cbn [resolutions] in Hk, Hk'.
  destruct (findParentResolution w node) as [r0|]; [|discriminate].
  destruct k' as [|k']; [lia|]. destruct k as [|k].
  - injection Hk as ->.
    apply (resolutions_all_spread n (nodeOfResolution r)); [assumption|].
    apply list_elem_of_In, list_elem_of_lookup. eauto.
  - apply (IH (nodeOfResolution r0) k k' r r'); [lia|assumption..].
Qed.

(** The same on the nodes: from the first node named like the sentinel
    on, every node of the walk is named like it. *)
Lemma hops_after_spread n : forall node j j' a b,
  j' <= j ->
  (node :: hops w n node) !! j' = Some b ->
  PropNode.propName b = spreadSentinel ->
  (node :: hops w n node) !! j = Some a ->
  PropNode.propName a = spreadSentinel.
Proof.
  induction n as [|n IH]; intros node j j' a b Hle Hb Hname Ha.
  - destruct j' as [|j']; [|discriminate]. destruct j as [|j]; [|discriminate].
    congruence.
  - cbn [hops] in Hb, Ha.
    destruct (findParentNode w node) as [p|] eqn:Hp.
    + destruct j as [|j].
      * assert (j' = 0) as -> by lia. congruence.
      * destruct j' as [|j'].
        -- injection Hb as <-.
           apply (IH p j 0 a p); [lia|reflexivity| |exact Ha].
           rewrite findParentNode_resolution in Hp.
           destruct (findParentResolution w node) as [r|] eqn:Hr; [|discriminate].
           injection Hp as <-. apply extractPropName_sentinel.
           eapply findParentResolution_sentinel; eassumption.
        -- apply (IH p j j' a b); [lia|exact Hb|assumption|exact Ha].
    + destruct j' as [|[|j']]; try discriminate.
      destruct j as [|[|j]]; try discriminate. congruence.
Qed.

End SpreadFacts.

(** ** Reading a returned trace *)

Section TraceFacts.

Variable w : World.

(** Every returned trace is the one [buildPropChainWith_spec] describes. *)
Lemma buildPropChainWith_inv maxDepth filePath componentName propName t :
  buildPropChainWith w maxDepth filePath componentName propName = Some t ->
  exists components,
    analyzeFile w filePath = Some components
    /\ let lineCode := match findComponent componentName components with
                       | Some currentComponent => ciLine currentComponent
                       | None => 0
                       end in
       let n0 := definitionNode filePath componentName propName lineCode in
       let hs := hops w maxDepth n0 in
       PropTrace.propName t = propName
       /\ PropTrace.chain t = reverse (seq 0 (S (length hs)))
       /\ PropTrace.isComplete t = (S (length hs) <? maxDepth)
       /\ PropTrace.ambiguous t = existsb isSpreadNamed hs
       /\ forall j nd, (n0 :: hs) !! j = Some nd ->
            PropTrace.store t !! j
            = Some (PropNode.setType (finalType (S (length hs)) (length hs - j))
                      (PropNode.setParent (if j <? length hs then Some (S j) else None) nd)).
Proof.
  intros Ht.
  destruct (analyzeFile w filePath) as [components|] eqn:Hcomponents.
  - exists components. split; [reflexivity|].
    destruct (buildPropChainWith_spec w maxDepth filePath componentName propName
                components Hcomponents) as (t' & Ht' & Hspec).
    rewrite Ht in Ht'. injection Ht' as <-. exact Hspec.
  - unfold buildPropChainWith in Ht. rewrite Hcomponents in Ht. discriminate.
Qed.

(** The entry at position [i] of a chain over the nodes [nodes], read
    through the store. *)
Lemma nodeAt_of_store (nodes : list PropNode.t) (t : PropTrace.t) (i : nat) (nd : PropNode.t) :
  PropTrace.chain t = reverse (seq 0 (length nodes)) ->
  (forall j nd, nodes !! j = Some nd ->
     PropTrace.store t !! j
     = Some (PropNode.setType (finalType (length nodes) (length nodes - 1 - j))
               (PropNode.setParent (if j <? length nodes - 1 then Some (S j) else None) nd))) ->
  nodes !! (length nodes - 1 - i) = Some nd ->
  i < length nodes ->
  PropTrace.chain t !! i = Some (length nodes - 1 - i)
  /\ PropTrace.nodeAt t i
     = Some (PropNode.setType (finalType (length nodes) i)
               (PropNode.setParent (if i =? 0 then None else Some (S (length nodes - 1 - i)))
                  nd)).
Proof.
  intros Hchain Hstore Hnd Hi.
  assert (PropTrace.chain t !! i = Some (length nodes - 1 - i)) as Hlook.
  { rewrite Hchain. now apply reverse_seq_lookup_pos. }
  split; [exact Hlook|].
  unfold PropTrace.nodeAt. rewrite Hlook, (Hstore _ _ Hnd).
  replace (length nodes - 1 - (length nodes - 1 - i)) with i by lia.
  destruct (Nat.eqb_spec i 0) as [Hi0|Hne];
    destruct (Nat.ltb_spec (length nodes - 1 - i) (length nodes - 1)); try lia;
    reflexivity.
Qed.

(** A returned trace, entry by entry: the entry at position [i] is the
    node found [length - 1 - i] hops above the requested one, relabelled
    for its position and linked to the entry before it. *)
Lemma buildPropChainWith_nodes maxDepth filePath componentName propName t :
  buildPropChainWith w maxDepth filePath componentName propName = Some t ->
  exists components,
    analyzeFile w filePath = Some components
    /\ let lineCode := match findComponent componentName components with
                       | Some currentComponent => ciLine currentComponent
                       | None => 0
                       end in
       let n0 := definitionNode filePath componentName propName lineCode in
       let nodes := n0 :: hops w maxDepth n0 in
       length (PropTrace.chain t) = length nodes
       /\ length nodes <= S maxDepth
       /\ PropTrace.isComplete t = (length nodes <? maxDepth)
       /\ PropTrace.ambiguous t = existsb isSpreadNamed (hops w maxDepth n0)
       /\ forall i, i < length nodes ->
            exists nd,
              nodes !! (length nodes - 1 - i) = Some nd
              /\ PropTrace.chain t !! i = Some (length nodes - 1 - i)
              /\ PropTrace.nodeAt t i
                 = Some (PropNode.setType (finalType (length nodes) i)
                           (PropNode.setParent
                              (if i =? 0 then None else Some (S (length nodes - 1 - i)))
                              nd)).
Proof.
  intros Ht.
  destruct (buildPropChainWith_inv _ _ _ _ _ Ht)
    as (components & Hcomponents & _ & Hchain & Hcomplete & Hambiguous & Hstore).
  exists components. split; [assumption|].
  intros lineCode n0 nodes. fold lineCode in Hchain, Hcomplete, Hambiguous, Hstore.
  fold n0 in Hchain, Hcomplete, Hambiguous, Hstore.
  assert (length nodes = S (length (hops w maxDepth n0))) as Hlen by reflexivity.
  pose proof (hops_length w maxDepth n0) as Hle.
  split; [rewrite Hchain, length_reverse, length_seq; exact (eq_sym Hlen)|].
  split; [lia|]. split; [rewrite Hlen; assumption|]. split; [assumption|].
  intros i Hi.
  destruct (lookup_lt_is_Some_2 nodes (length nodes - 1 - i) ltac:(lia)) as [nd Hnd].
  exists nd. split; [assumption|].
  apply nodeAt_of_store; [rewrite Hlen; assumption | | assumption | assumption].
  intros j nd' Hj. rewrite (Hstore j nd' Hj). rewrite Hlen.
    replace (S (length (hops w maxDepth n0)) - 1) with (length (hops w maxDepth n0))
      by lia.
    reflexivity.
Qed.

(** [findParentNode] reads the component, the file and the prop of a
    node, nothing else. *)
Lemma findParentNode_ext a b :
  PropNode.componentName a = PropNode.componentName b ->
  PropNode.filePath a = PropNode.filePath b ->
  PropNode.propName a = PropNode.propName b ->
  findParentNode w a = findParentNode w b.
Proof.
  intros Hc Hf Hp. unfold findParentNode. rewrite Hc.
  destruct (length _ =? 0); [reflexivity|].
  induction (findComponentUsagesInWorkspace w (PropNode.componentName b))
    as [|location rest IH]; [reflexivity|].
  cbn [firstParent]. rewrite Hf, IH.
  unfold analyzeLocationForPropUsage, resolveUsage. rewrite Hc, Hp. reflexivity.
Qed.

Lemma hops_ext n a b :
  PropNode.componentName a = PropNode.componentName b ->
  PropNode.filePath a = PropNode.filePath b ->
  PropNode.propName a = PropNode.propName b ->
  hops w n a = hops w n b.
Proof.
  intros Hc Hf Hp. destruct n as [|n]; [reflexivity|].
  cbn [hops]. now rewrite (findParentNode_ext a b Hc Hf Hp).
Qed.

Lemma findParentResolution_ext a b :
  PropNode.componentName a = PropNode.componentName b ->
  PropNode.filePath a = PropNode.filePath b ->
  PropNode.propName a = PropNode.propName b ->
  findParentResolution w a = findParentResolution w b.
Proof.
  intros Hc Hf Hp. unfold findParentResolution. rewrite Hc.
  induction (findComponentUsagesInWorkspace w (PropNode.componentName b))
    as [|location rest IH]; [reflexivity|].
  cbn [firstResolution]. rewrite Hf, IH.
  unfold resolveUsage. rewrite Hc, Hp. reflexivity.
Qed.

Lemma resolutions_ext n a b :
  PropNode.componentName a = PropNode.componentName b ->
  PropNode.filePath a = PropNode.filePath b ->
  PropNode.propName a = PropNode.propName b ->
  resolutions w n a = resolutions w n b.
Proof.
  intros Hc Hf Hp. destruct n as [|n]; [reflexivity|].
  cbn [resolutions]. now rewrite (findParentResolution_ext a b Hc Hf Hp).
Qed.

(** The loop never clears the flag. *)
Lemma walk_ambiguous_sticky maxDepth fuel : forall f,
  ambiguous f = true -> ambiguous (walk w maxDepth fuel f) = true.
Proof.
  induction fuel as [|fuel IH]; intros f Hf; cbn [walk];
    destruct (depth f <? maxDepth); try assumption.
  cbv zeta. cbn [incrementDepth heap currentNode].
  destruct (heap f !! currentNode f) as [node|]; [|assumption].
  destruct (findParentNode w node) as [parentNode|].
  - apply IH. unfold advance. cbn [ambiguous incrementDepth].
    rewrite Hf. now destruct (String.eqb _ _).
  - unfold markLastAsSource. cbn [chain incrementDepth].
    destruct (last (chain f)); exact Hf.
Qed.

(** A walk that can always go on uses every lookup it is allowed. *)
Lemma hops_full (reachable : PropNode.t -> Prop) :
  (forall nd, reachable nd ->
     exists p, findParentNode w nd = Some p /\ reachable p) ->
  forall n nd, reachable nd -> length (hops w n nd) = n.
Proof.
  intros Hstep. induction n as [|n IH]; intros nd Hnd; [reflexivity|].
  cbn [hops]. destruct (Hstep nd Hnd) as (p & -> & Hp).
  cbn [length]. now rewrite (IH p Hp).
Qed.

End TraceFacts.

(** * The claims *)

Section Claims.

Variable w : World.

(** C1. Every chain [buildPropChain] returns is non-empty and its first
    node is labelled SOURCE; in a chain of more than one node the last
    node is labelled DEFINITION and every node in between USAGE; the
    sole node of a chain of one is the node created as the DEFINITION of
    the request, and it carries the label SOURCE. *)
Theorem buildPropChain_classification filePath componentName propName t :
  buildPropChain w filePath componentName propName = Some t ->
  let len := length (PropTrace.chain t) in
  1 <= len
  /\ (exists first, PropTrace.nodeAt t 0 = Some first /\ PropNode.type first = SOURCE)
  /\ (1 < len ->
      exists final, PropTrace.nodeAt t (len - 1) = Some final
                    /\ PropNode.type final = DEFINITION)
  /\ (forall i, 0 < i < len - 1 ->
      exists nd, PropTrace.nodeAt t i = Some nd /\ PropNode.type nd = USAGE)
  /\ (len = 1 ->
      exists lineCode,
        PropTrace.nodeAt t 0
        = Some (PropNode.setType SOURCE
                  (definitionNode filePath componentName propName lineCode))).
Proof.
  intros Ht len.
  destruct (buildPropChainWith_nodes w _ _ _ _ _ Ht)
    as (components & _ & Hlen & _ & _ & _ & Hnodes).
  cbv zeta in Hlen, Hnodes. fold len in Hlen. rewrite <- Hlen in Hnodes.
  assert (1 <= len) as Hpos by (rewrite Hlen; simpl; lia).
  split; [assumption|]. repeat split.
  - destruct (Hnodes 0 ltac:(lia)) as (nd & _ & _ & Hnd). eauto.
  - intros Hmany. destruct (Hnodes (len - 1) ltac:(lia)) as (nd & _ & _ & Hnd).
    eexists. split; [exact Hnd|]. cbn [PropNode.type PropNode.setType]. unfold finalType.
    destruct (Nat.eqb_spec (len - 1) 0); [lia|]. now rewrite Nat.eqb_refl.
  - intros i Hi. destruct (Hnodes i ltac:(lia)) as (nd & _ & _ & Hnd).
    eexists. split; [exact Hnd|]. cbn [PropNode.type PropNode.setType]. unfold finalType.
    destruct (Nat.eqb_spec i 0); [lia|]. destruct (Nat.eqb_spec i (len - 1)); [lia|].
    reflexivity.
  - intros Hone. destruct (Hnodes 0 ltac:(lia)) as (nd & Hnd & _ & Hat).
    rewrite Hone in Hnd. cbn in Hnd. injection Hnd as <-.
    eexists. rewrite Hat. reflexivity.
Qed.

(** C9. The nodes of a returned chain are distinct objects linked
    through [parent]: the first node has no parent, and the parent of
    every later node is the node just before it in the chain. *)
Theorem buildPropChain_parent_links filePath componentName propName t :
  buildPropChain w filePath componentName propName = Some t ->
  NoDup (PropTrace.chain t)
  /\ (exists first, PropTrace.nodeAt t 0 = Some first /\ PropNode.parent first = None)
  /\ (forall i, 1 <= i < length (PropTrace.chain t) ->
      exists nd a,
        PropTrace.nodeAt t i = Some nd
        /\ PropTrace.chain t !! (i - 1) = Some a
        /\ PropNode.parent nd = Some a).
Proof.
  intros Ht.
  destruct (buildPropChainWith_inv w _ _ _ _ _ Ht)
    as (components0 & _ & _ & Hchain & _).
  destruct (buildPropChainWith_nodes w _ _ _ _ _ Ht)
    as (components & _ & Hlen & _ & _ & _ & Hnodes).
  cbv zeta in Hlen, Hnodes, Hchain. rewrite <- Hlen in Hnodes.
  split; [rewrite Hchain, reverse_Permutation; apply NoDup_seq|].
  split.
  - destruct (Hnodes 0 ltac:(rewrite Hlen; simpl; lia)) as (nd & _ & _ & Hnd). eauto.
  - intros i Hi.
    destruct (Hnodes i ltac:(lia)) as (nd & _ & _ & Hnd).
    destruct (Hnodes (i - 1) ltac:(lia)) as (_ & _ & Hprev & _).
    eexists _, _. split; [exact Hnd|]. split; [exact Hprev|].
    cbn [PropNode.parent PropNode.setType PropNode.setParent].
    destruct (Nat.eqb_spec i 0); [lia|]. f_equal. lia.
Qed.

(** C10. A component that [analyzeFile] does not list for the file is
    traced all the same: the call returns a trace, the node of the
    requested component carries line 0, and the hops above it are the
    ones the walk finds for that component whatever its line. *)
Theorem buildPropChain_undeclared filePath componentName propName components :
  analyzeFile w filePath = Some components ->
  findComponent componentName components = None ->
  exists t,
    buildPropChain w filePath componentName propName = Some t
    /\ (exists requested,
          PropTrace.nodeAt t (length (PropTrace.chain t) - 1) = Some requested
          /\ PropNode.componentName requested = componentName
          /\ PropNode.filePath requested = filePath
          /\ PropNode.propName requested = propName
          /\ PropNode.lineCode requested = 0)
    /\ forall lineCode,
         let hs := hops w maxDepth
                     (definitionNode filePath componentName propName lineCode) in
         length (PropTrace.chain t) = S (length hs)
         /\ forall i hop, hs !! i = Some hop ->
              exists nd,
                PropTrace.nodeAt t (length hs - 1 - i) = Some nd
                /\ PropNode.componentName nd = PropNode.componentName hop
                /\ PropNode.filePath nd = PropNode.filePath hop
                /\ PropNode.propName nd = PropNode.propName hop
                /\ PropNode.lineCode nd = PropNode.lineCode hop.
Proof.
  intros Hcomponents Hmissing.
  destruct (buildPropChainWith_spec w maxDepth filePath componentName propName
              components Hcomponents) as (t & Ht & _).
  exists t. split; [exact Ht|].
  destruct (buildPropChainWith_nodes w _ _ _ _ _ Ht)
    as (components' & Hcomponents' & Hlen & _ & _ & _ & Hnodes).
  rewrite Hcomponents in Hcomponents'. injection Hcomponents' as <-.
  rewrite Hmissing in Hlen, Hnodes. cbv zeta in Hlen, Hnodes.
  set (n0 := definitionNode filePath componentName propName 0) in *.
  cbn [length] in Hlen, Hnodes.
  split.
  - destruct (Hnodes (length (PropTrace.chain t) - 1) ltac:(lia)) as (nd & Hnd & _ & Hat).
    replace (S (length (hops w maxDepth n0)) - 1 - (length (PropTrace.chain t) - 1))
      with 0 in Hnd by lia.
    injection Hnd as <-. eexists. split; [exact Hat|]. repeat split.
  - intros lineCode hs.
    assert (hs = hops w maxDepth n0) as Hhs by (apply hops_ext; reflexivity).
    rewrite Hhs. clear Hhs hs. split; [exact Hlen|].
    intros i hop Hhop.
    assert (i < length (hops w maxDepth n0)) as Hi by (eapply lookup_lt_Some; eauto).
    destruct (Hnodes (length (hops w maxDepth n0) - 1 - i) ltac:(lia))
      as (nd & Hnd & _ & Hat).
    replace (S (length (hops w maxDepth n0)) - 1
             - (length (hops w maxDepth n0) - 1 - i)) with (S i) in Hnd by lia.
    change ((n0 :: hops w maxDepth n0) !! S i) with (hops w maxDepth n0 !! i) in Hnd.
    rewrite Hhop in Hnd. injection Hnd as <-.
    eexists. split; [exact Hat|]. repeat split.
Qed.

(** C4. The trace is ambiguous exactly when the value some hop resolved
    to is the spread sentinel; every resolution of the walk is a node of
    the chain; the loop never clears the flag once it is set; and a hop
    that resolves to the sentinel is pushed on the chain and becomes the
    node the walk goes on from. *)
Theorem buildPropChain_ambiguous filePath componentName propName t :
  buildPropChain w filePath componentName propName = Some t ->
  (forall lineCode,
     let found := resolutions w maxDepth
                    (definitionNode filePath componentName propName lineCode) in
     length (PropTrace.chain t) = S (length found)
     /\ (PropTrace.ambiguous t = true <->
         exists r, In r found /\ resolvedValue r = Some spreadSentinel))
  /\ (forall fuel f,
        ambiguous f = true -> ambiguous (walk w maxDepth fuel f) = true)
  /\ (forall fuel f node parentNode,
        depth f < maxDepth ->
        heap f !! currentNode f = Some node ->
        findParentNode w node = Some parentNode ->
        PropNode.propName parentNode = spreadSentinel ->
        let f' := advance (incrementDepth f) parentNode in
        walk w maxDepth (S fuel) f = walk w maxDepth fuel f'
        /\ chain f' = chain f ++ [length (heap f)]
        /\ currentNode f' = length (heap f)
        /\ ambiguous f' = true).
Proof.
  intros Ht. split; [|split].
  - destruct (buildPropChainWith_nodes w _ _ _ _ _ Ht)
      as (components & _ & Hlen & _ & _ & Hambiguous & _).
    cbv zeta in Hlen, Hambiguous.
    set (n0 := definitionNode filePath componentName propName _) in *.
    intros lineCode found.
    assert (found = resolutions w maxDepth n0) as ->
      by (apply resolutions_ext; reflexivity).
    rewrite Hlen, Hambiguous, hops_resolutions. cbn [length]. rewrite length_map.
    split; [reflexivity|]. rewrite existsb_exists. split.
    + intros (nd & Hin & Hspread). apply in_map_iff in Hin as (r & <- & Hin).
      exists r. split; [assumption|]. now apply isSpreadNamed_resolution.
    + intros (r & Hin & Hvalue). exists (nodeOfResolution r).
      split; [now apply in_map|]. now apply isSpreadNamed_resolution.
  - intros fuel f. apply walk_ambiguous_sticky.
  - intros fuel f node parentNode Hdepth Hnode Hparent Hname f'.
    split; [|split; [|split]]; try reflexivity.
    + cbn [walk]. apply Nat.ltb_lt in Hdepth. rewrite Hdepth.
      cbv zeta. cbn [incrementDepth heap currentNode]. now rewrite Hnode, Hparent.
    + unfold f', advance. cbn [ambiguous]. fold spreadSentinel.
      apply String.eqb_eq in Hname. now rewrite Hname.
Qed.

(** C8. With no attribute named like the sentinel anywhere on disk: in
    a returned chain every node above a node whose recorded prop name is
    the sentinel records the sentinel too, and every hop the walk finds
    after a hop that recorded the sentinel resolves to the sentinel. *)
Theorem buildPropChain_spread_persists filePath componentName propName t :
  noSentinelAttribute w = true ->
  buildPropChain w filePath componentName propName = Some t ->
  (forall i j a b,
     i <= j ->
     PropTrace.nodeAt t j = Some b -> PropNode.propName b = spreadSentinel ->
     PropTrace.nodeAt t i = Some a -> PropNode.propName a = spreadSentinel)
  /\ (forall lineCode k k' r r',
        let found := resolutions w maxDepth
                       (definitionNode filePath componentName propName lineCode) in
        k < k' ->
        found !! k = Some r -> PropNode.propName (nodeOfResolution r) = spreadSentinel ->
        found !! k' = Some r' -> resolvedValue r' = Some spreadSentinel).
Proof.
  intros Hok Ht. split.
  - intros i j a b Hle Hb Hname Ha.
    destruct (buildPropChainWith_nodes w _ _ _ _ _ Ht)
      as (components & _ & Hlen & _ & _ & _ & Hnodes).
    cbv zeta in Hlen, Hnodes.
    set (n0 := definitionNode filePath componentName propName _) in *.
    assert (j < length (PropTrace.chain t)) as Hj.
    { unfold PropTrace.nodeAt in Hb.
      destruct (PropTrace.chain t !! j) eqn:Hlook; [|discriminate].
      eapply lookup_lt_Some; eassumption. }
    rewrite Hlen in Hj.
    destruct (Hnodes j Hj) as (nb & Hnb & _ & Hatb).
    destruct (Hnodes i ltac:(lia)) as (na & Hna & _ & Hata).
    rewrite Hatb in Hb. injection Hb as <-. rewrite Hata in Ha. injection Ha as <-.
    cbn [PropNode.propName PropNode.setType PropNode.setParent] in *.
    eapply (hops_after_spread w Hok maxDepth n0); [|exact Hnb|exact Hname|exact Hna].
    lia.
  - intros lineCode k k' r r' found. apply (resolutions_after_spread w Hok).
Qed.

(** What the flag computes: a trace is reported incomplete exactly when
    its chain has at least [maxDepth] nodes, that is when the loop ran
    [maxDepth] times, whether or not the last lookup found the end. *)
Lemma buildPropChain_isComplete filePath componentName propName t :
  buildPropChain w filePath componentName propName = Some t ->
  PropTrace.isComplete t = false <-> maxDepth <= length (PropTrace.chain t).
Proof.
  intros Ht.
  destruct (buildPropChainWith_nodes w _ _ _ _ _ Ht)
    as (components & _ & Hlen & _ & Hcomplete & _).
  cbv zeta in Hlen, Hcomplete. rewrite Hcomplete, Hlen.
  apply Nat.ltb_ge.
Qed.

End Claims.

(** ** The claims on the example workspaces *)

Import Examples.

(** C3 as the specification states it, with the first node's prop name
    "label", does not hold of Scenario A. *)
Lemma scenarioA_source_prop_is_not_label :
  ~ (exists t first second,
       buildPropChain scenarioA "/ws/Child.tsx" "Child" "label" = Some t
       /\ length (PropTrace.chain t) = 2
       /\ PropTrace.nodeAt t 0 = Some first
       /\ PropNode.componentName first = "Parent"%string
       /\ PropNode.propName first = "label"%string
       /\ PropNode.type first = SOURCE
       /\ PropTrace.nodeAt t 1 = Some second
       /\ PropNode.componentName second = "Child"%string
       /\ PropNode.propName second = "label"%string
       /\ PropNode.type second = DEFINITION
       /\ PropTrace.isComplete t = true
       /\ PropTrace.ambiguous t = false).
Proof.
  intros (t & first & second & Ht & _ & Hfirst & _ & Hprop & _).
  vm_compute in Ht. injection Ht as <-.
  vm_compute in Hfirst. injection Hfirst as <-.
  vm_compute in Hprop. discriminate.
Qed.

(** C3, amended. In Scenario A the chain has exactly two nodes: the
    first is Parent, labelled SOURCE, and its recorded prop name is the
    source text of the literal it passes, quotes included; the second is
    Child with prop "label", labelled DEFINITION; the trace is complete
    and not ambiguous. *)
Theorem scenarioA_trace :
  exists t first second,
    buildPropChain scenarioA "/ws/Child.tsx" "Child" "label" = Some t
    /\ length (PropTrace.chain t) = 2
    /\ PropTrace.nodeAt t 0 = Some first
    /\ PropNode.componentName first = "Parent"%string
    /\ PropNode.propName first = Js.quoted "hi"
    /\ PropNode.type first = SOURCE
    /\ PropTrace.nodeAt t 1 = Some second
    /\ PropNode.componentName second = "Child"%string
    /\ PropNode.propName second = "label"%string
    /\ PropNode.type second = DEFINITION
    /\ PropTrace.isComplete t = true
    /\ PropTrace.ambiguous t = false.
Proof.
  eexists _, _, _.
  split; [vm_compute; reflexivity|].
  repeat split; vm_compute; reflexivity.
Qed.

(** The other scenarios of the specification. *)
Example scenarioC_trace :
  exists t,
    buildPropChain scenarioC "/ws/Child.tsx" "Child" "label" = Some t
    /\ length (PropTrace.chain t) = 2
    /\ PropTrace.isComplete t = true
    /\ PropTrace.ambiguous t = true.
Proof. eexists. split; [vm_compute; reflexivity|]. repeat split. Qed.

Example scenarioD_trace :
  exists t,
    buildPropChain scenarioD "/ws/Orphan.tsx" "Orphan" "label" = Some t
    /\ PropTrace.nodeAt t 0
       = Some (PropNode.setType SOURCE (definitionNode "/ws/Orphan.tsx" "Orphan" "label" 1))
    /\ length (PropTrace.chain t) = 1
    /\ PropTrace.isComplete t = true
    /\ PropTrace.ambiguous t = false.
Proof. eexists. split; [vm_compute; reflexivity|]. repeat split. Qed.

Example scenarioE_trace :
  exists t,
    buildPropChain (ringOf 21) "/ws/A.tsx" "A" "value" = Some t
    /\ length (PropTrace.chain t) = maxDepth + 1
    /\ PropTrace.isComplete t = false.
Proof. eexists. split; [vm_compute; reflexivity|]. repeat split. Qed.

(** On a ring the walk never runs out of parents. *)
Lemma ring3_never_ends nd :
  onRing3 nd -> exists p, findParentNode (ringOf 3) nd = Some p /\ onRing3 p.
Proof.
  destruct nd as [c f p l ty par]. unfold onRing3. cbn [PropNode.propName
    PropNode.componentName PropNode.filePath].
  intros (-> & [(-> & ->)|[(-> & ->)|(-> & ->)]]);
    eexists; (split; [vm_compute; reflexivity|]); vm_compute; tauto.
Qed.

(** C2 at its boundary: twenty components in a line.  The walk finds the
    nineteen parents of A, the twentieth lookup finds that T is rendered
    nowhere and ends the walk at its source, and the trace is reported
    incomplete all the same. *)
Theorem line20_incomplete_at_its_source :
  exists t top,
    buildPropChain (lineOf 20) "/ws/A.tsx" "A" "value" = Some t
    /\ length (PropTrace.chain t) = 20
    /\ PropTrace.nodeAt t 0 = Some top
    /\ PropNode.componentName top = "T"%string
    /\ findParentNode (lineOf 20) top = None
    /\ PropTrace.isComplete t = false.
Proof.
  eexists _, _. split; [vm_compute; reflexivity|].
  split; [reflexivity|]. split; [vm_compute; reflexivity|]. repeat split.
Qed.

(** One component fewer, and the same kind of trace is complete. *)
Example line19_complete :
  exists t,
    buildPropChain (lineOf 19) "/ws/A.tsx" "A" "value" = Some t
    /\ length (PropTrace.chain t) = 19
    /\ PropTrace.isComplete t = true.
Proof. eexists. split; [vm_compute; reflexivity|]. repeat split. Qed.

(** C6 on the input of the repository's own test: [findPropUsage] finds
    nothing on a self-closing tag, where [findPropUsageAtLocation] finds
    the literal. *)
Theorem findPropUsage_misses_self_closing :
  findPropUsage buttonUser "Button" "label" = None
  /\ findPropUsageAtLocation buttonUser "Button" "label" 6
     = Some {| usageLine := 6; usageValue := Some (Js.quoted "Click me") |}.
Proof. split; reflexivity. Qed.

(** [findPropUsage] never looks at a self-closing tag. *)
Lemma findPropUsage_opening_only sf componentName propName :
  findPropUsage sf componentName propName
  = firstUsage componentName propName
      (filter (fun element => isKind JsxOpeningElement element = true) (jsxElements sf)).
Proof. reflexivity. Qed.

(** On the paired tags it does what C6 says: the first tag of the name
    that yields a usage decides, and within a tag the explicit attribute
    goes before the spread. *)
Lemma firstUsage_cons componentName propName element rest :
  firstUsage componentName propName (element :: rest)
  = if String.eqb (tagName element) componentName
    then match scanAttributes propName (tagAttributes element) with
         | Some usage => Some usage
         | None =>
             if hasSpread (tagAttributes element)
             then Some {| usageLine := tagStartLine element;
                          usageValue := Some spreadSentinel |}
             else firstUsage componentName propName rest
         end
    else firstUsage componentName propName rest.
Proof.
  cbn [firstUsage]. unfold usageInTag.
  destruct (String.eqb _ _); [|reflexivity].
  destruct (scanAttributes _ _); [reflexivity|].
  destruct (hasSpread _); reflexivity.
Qed.

(** C7 on [const Widget = disconnect(() => null)]: the callee is none of
    the recognized wrappers, and the variable is listed as a
    component. *)
Theorem disconnect_is_taken_for_a_wrapper :
  ~ In (calleeName (Identifier "disconnect")) wrapperFunctions
  /\ extractComponentFromVariable 8 widgetFile widgetDecl "/ws/Widget.tsx"
     = Some (Some {| ciName := "Widget"; ciFilePath := "/ws/Widget.tsx";
                     ciProps := []; ciLine := 1 |})
  /\ analyzeFile (workspace [widgetFile]) "/ws/Widget.tsx"
     = Some [{| ciName := "Widget"; ciFilePath := "/ws/Widget.tsx";
                ciProps := []; ciLine := 1 |}].
Proof.
  split; [|split; reflexivity].
  cbn. intros [H|[H|[H|[H|[H|[H|[]]]]]]]; discriminate.
Qed.

(** What the recognizer does decide on a call: when it answers with a
    component, the name is upper case, the text of the callee ends with
    one of the listed names, and the first argument is an arrow function
    or a function expression; and under these three conditions it never
    answers [null]. *)
Lemma extractComponentFromVariable_call stack sf varDecl filePath expression args :
  varInitializer varDecl = Some (CallExpression expression args) ->
  extractComponentFromVariable stack sf varDecl filePath <> Some None
  <-> Js.testUpperFirst (varName varDecl) = true
      /\ (exists wrapper, In wrapper wrapperFunctions
                          /\ Js.endsWith (calleeName expression) wrapper = true)
      /\ (exists params rest, args = ArrowFunction params :: rest
                              \/ args = FunctionExpression params :: rest).
Proof.
  intros Hinit. unfold extractComponentFromVariable. rewrite Hinit.
  destruct (Js.testUpperFirst (varName varDecl)); cbn [negb].
  - destruct (isRecognizedWrapper (calleeName expression)) eqn:Hwrapper.
    + apply existsb_exists in Hwrapper.
      assert (forall params,
                wrappedComponent stack sf varDecl filePath params <> Some None) as Hwrapped.
      { intros params. unfold wrappedComponent.
        destruct (propsOfFirstParameter stack sf params); discriminate. }
      destruct args as [|[params|params|e a|text|et n|] rest];
        (split;
         [ intros Hc;
           first [ now contradict Hc
                 | split; [reflexivity|]; split; [exact Hwrapper|]; eauto ]
         | intros (_ & _ & params' & rest' & [Hargs|Hargs]);
           first [ discriminate Hargs | apply Hwrapped ] ]).
    + split; [intros Hc; now contradict Hc|].
      intros (_ & Hex & _).
      assert (isRecognizedWrapper (calleeName expression) = true) as Hyes
        by (apply existsb_exists; exact Hex).
      congruence.
  - split; [intros Hc; now contradict Hc | intros ([=] & _)].
Qed.

Lemma extractComponentFromVariable_lowercase stack sf varDecl filePath :
  Js.testUpperFirst (varName varDecl) = false ->
  extractComponentFromVariable stack sf varDecl filePath = Some None.
Proof. unfold extractComponentFromVariable. now intros ->. Qed.

(** Props through a generic wrapper, as in the repository's tests. *)
Example layout_props :
  analyzeFile (workspace [layoutFile]) "/ws/Layout.tsx"
  = Some [{| ciName := "Layout"; ciFilePath := "/ws/Layout.tsx";
             ciProps := ["children"%string; "sidebar"%string]; ciLine := 7 |}].
Proof. reflexivity. Qed.

(** Interfaces that extend each other exhaust the stack: [analyzeFile]
    throws, and with it a [buildPropChain] on that file. *)
Example knot_throws :
  analyzeFile (workspace [knotFile]) "/ws/Knot.tsx" = None
  /\ buildPropChain (workspace [knotFile]) "/ws/Knot.tsx" "Knot" "a" = None.
Proof. split; reflexivity. Qed.

Example memoCard_is_a_component :
  extractComponentFromVariable 8 widgetFile memoCardDecl "/ws/Card.tsx"
  = Some (Some {| ciName := "MemoCard"; ciFilePath := "/ws/Card.tsx";
                  ciProps := ["title"%string]; ciLine := 1 |}).
Proof. reflexivity. Qed.

(** ** The general claims at work *)

Lemma buildPropChain_classification_witness :
  exists t,
    buildPropChain scenarioSpreads "/ws/Child.tsx" "Child" "label" = Some t
    /\ (let len := length (PropTrace.chain t) in
        1 <= len
        /\ (exists first, PropTrace.nodeAt t 0 = Some first /\ PropNode.type first = SOURCE)
        /\ (1 < len ->
            exists final, PropTrace.nodeAt t (len - 1) = Some final
                          /\ PropNode.type final = DEFINITION)
        /\ (forall i, 0 < i < len - 1 ->
            exists nd, PropTrace.nodeAt t i = Some nd /\ PropNode.type nd = USAGE)
        /\ (len = 1 ->
            exists lineCode,
              PropTrace.nodeAt t 0
              = Some (PropNode.setType SOURCE
                        (definitionNode "/ws/Child.tsx" "Child" "label" lineCode)))).
Proof.
  destruct (buildPropChain scenarioSpreads "/ws/Child.tsx" "Child" "label")
    as [t|] eqn:Ht; [|vm_compute in Ht; discriminate].
  exists t. split; [reflexivity|].
  exact (buildPropChain_classification scenarioSpreads _ _ _ t Ht).
Defined.

Lemma buildPropChain_ambiguous_witness :
  exists t,
    buildPropChain scenarioC "/ws/Child.tsx" "Child" "label" = Some t
    /\ ((forall lineCode,
           let found := resolutions scenarioC maxDepth
                          (definitionNode "/ws/Child.tsx" "Child" "label" lineCode) in
           length (PropTrace.chain t) = S (length found)
           /\ (PropTrace.ambiguous t = true <->
               exists r, In r found /\ resolvedValue r = Some spreadSentinel))
        /\ (forall fuel f,
              ambiguous f = true ->
              ambiguous (walk scenarioC maxDepth fuel f) = true)
        /\ (forall fuel f node parentNode,
              depth f < maxDepth ->
              heap f !! currentNode f = Some node ->
              findParentNode scenarioC node = Some parentNode ->
              PropNode.propName parentNode = spreadSentinel ->
              let f' := advance (incrementDepth f) parentNode in
              walk scenarioC maxDepth (S fuel) f
              = walk scenarioC maxDepth fuel f'
              /\ chain f' = chain f ++ [length (heap f)]
              /\ currentNode f' = length (heap f)
              /\ ambiguous f' = true)).
Proof.
  destruct (buildPropChain scenarioC "/ws/Child.tsx" "Child" "label")
    as [t|] eqn:Ht; [|vm_compute in Ht; discriminate].
  exists t. split; [reflexivity|].
  exact (buildPropChain_ambiguous scenarioC _ _ _ t Ht).
Defined.

Lemma buildPropChain_spread_persists_witness :
  noSentinelAttribute scenarioSpreads = true
  /\ exists t,
       buildPropChain scenarioSpreads "/ws/Child.tsx" "Child" "label" = Some t
       /\ ((forall i j a b,
              i <= j ->
              PropTrace.nodeAt t j = Some b -> PropNode.propName b = spreadSentinel ->
              PropTrace.nodeAt t i = Some a -> PropNode.propName a = spreadSentinel)
           /\ (forall lineCode k k' r r',
                 let found := resolutions scenarioSpreads maxDepth
                                (definitionNode "/ws/Child.tsx" "Child" "label" lineCode) in
                 k < k' ->
                 found !! k = Some r ->
                 PropNode.propName (nodeOfResolution r) = spreadSentinel ->
                 found !! k' = Some r' -> resolvedValue r' = Some spreadSentinel)).
Proof.
  split; [reflexivity|].
  destruct (buildPropChain scenarioSpreads "/ws/Child.tsx" "Child" "label")
    as [t|] eqn:Ht; [|vm_compute in Ht; discriminate].
  exists t. split; [reflexivity|].
  exact (buildPropChain_spread_persists scenarioSpreads _ _ _ t eq_refl Ht).
Defined.

Lemma buildPropChain_parent_links_witness :
  exists t,
    buildPropChain (lineOf 3) "/ws/A.tsx" "A" "value" = Some t
    /\ (NoDup (PropTrace.chain t)
        /\ (exists first, PropTrace.nodeAt t 0 = Some first
                          /\ PropNode.parent first = None)
        /\ (forall i, 1 <= i < length (PropTrace.chain t) ->
            exists nd a,
              PropTrace.nodeAt t i = Some nd
              /\ PropTrace.chain t !! (i - 1) = Some a
              /\ PropNode.parent nd = Some a)).
Proof.
  destruct (buildPropChain (lineOf 3) "/ws/A.tsx" "A" "value")
    as [t|] eqn:Ht; [|vm_compute in Ht; discriminate].
  exists t. split; [reflexivity|].
  exact (buildPropChain_parent_links (lineOf 3) _ _ _ t Ht).
Defined.

Lemma buildPropChain_undeclared_witness :
  exists components,
    analyzeFile scenarioSpreads "/ws/Child.tsx" = Some components
    /\ findComponent "Parent" components = None
    /\ exists t,
         buildPropChain scenarioSpreads "/ws/Child.tsx" "Parent" "label" = Some t
         /\ (exists requested,
               PropTrace.nodeAt t (length (PropTrace.chain t) - 1) = Some requested
               /\ PropNode.componentName requested = "Parent"%string
               /\ PropNode.filePath requested = "/ws/Child.tsx"%string
               /\ PropNode.propName requested = "label"%string
               /\ PropNode.lineCode requested = 0)
         /\ forall lineCode,
              let hs := hops scenarioSpreads maxDepth
                          (definitionNode "/ws/Child.tsx" "Parent" "label" lineCode) in
              length (PropTrace.chain t) = S (length hs)
              /\ forall i hop, hs !! i = Some hop ->
                   exists nd,
                     PropTrace.nodeAt t (length hs - 1 - i) = Some nd
                     /\ PropNode.componentName nd = PropNode.componentName hop
                     /\ PropNode.filePath nd = PropNode.filePath hop
                     /\ PropNode.propName nd = PropNode.propName hop
                     /\ PropNode.lineCode nd = PropNode.lineCode hop.
Proof.
  exists [{| ciName := "Child"; ciFilePath := "/ws/Child.tsx"; ciProps := ["label"%string];
             ciLine := 1 |}].
  split; [reflexivity|]. split; [reflexivity|].
  exact (buildPropChain_undeclared scenarioSpreads "/ws/Child.tsx" "Parent" "label"
           _ eq_refl eq_refl).
Defined.

Example undeclared_component_is_traced :
  option_map (fun t => length (PropTrace.chain t))
    (buildPropChain scenarioSpreads "/ws/Child.tsx" "Parent" "label") = Some 2.
Proof. reflexivity. Qed.

(** * Further facts *)

(** ** Prop names *)

Lemma isWord_not_space c : Js.isWord c = true -> Js.isSpace c = false.
Proof. destruct c as [[] [] [] [] [] [] [] []]; vm_compute; congruence. Qed.

Lemma takeWhile_all p s : Js.all p (Js.takeWhile p s) = true.
Proof.
  induction s as [|c s IH]; [reflexivity|]. cbn [Js.takeWhile].
  destruct (p c) eqn:Hc; [|reflexivity]. cbn [Js.all]. now rewrite Hc.
Qed.

Lemma append_cons c s r : (String c s ++ r)%string = String c (s ++ r)%string.
Proof. reflexivity. Qed.

Lemma takeWhile_app_all p s r :
  Js.all p s = true -> Js.takeWhile p (s ++ r) = (s ++ Js.takeWhile p r)%string.
Proof.
  induction s as [|c s IH]; [reflexivity|]. rewrite !append_cons. cbn [Js.all Js.takeWhile].
  intros [Hc Hs]%andb_true_iff. rewrite Hc. now rewrite IH.
Qed.

Lemma dropWhile_app_all p s r :
  Js.all p s = true -> Js.dropWhile p (s ++ r) = Js.dropWhile p r.
Proof.
  induction s as [|c s IH]; [reflexivity|]. rewrite !append_cons. cbn [Js.all Js.dropWhile].
  intros [Hc Hs]%andb_true_iff. rewrite Hc. now apply IH.
Qed.

Lemma append_empty_r s : (s ++ "")%string = s.
Proof. induction s as [|c s IH]; [reflexivity|]. rewrite append_cons. now rewrite IH. Qed.

Lemma matchSimpleIdentifier_shape v word rest :
  Js.dropWhile Js.isSpace (Js.stripOpen v) = (word ++ rest)%string ->
  Js.truthy word = true -> Js.all Js.isWord word = true -> closes rest ->
  Js.matchSimpleIdentifier v = Some word.
Proof.
  intros Hv Htruthy Hword (ws & Hws & Hrest).
  assert (Js.takeWhile Js.isWord rest = ""%string /\
          (Js.dropWhile Js.isSpace rest = ""%string
           \/ Js.dropWhile Js.isSpace rest = "}"%string)) as [Htake Hdrop].
  { assert (Js.takeWhile Js.isWord (ws ++ "}") = ""%string
            /\ Js.takeWhile Js.isWord ws = ""%string) as [Hbrace Hplain].
    { destruct ws as [|c ws]; [split; reflexivity|]. rewrite append_cons.
      cbn in Hws |- *. apply andb_true_iff in Hws as [Hc _].
      destruct (Js.isWord c) eqn:Hw; [|split; reflexivity].
      apply isWord_not_space in Hw. congruence. }
    destruct Hrest as [->| ->]; (split; [assumption|]).
    - left. rewrite <- (append_empty_r ws) at 1. now rewrite dropWhile_app_all.
    - right. now rewrite dropWhile_app_all. }
  unfold Js.matchSimpleIdentifier. rewrite Hv.
  rewrite takeWhile_app_all, dropWhile_app_all, Htake, append_empty_r by assumption.
  rewrite Htruthy.
  assert (Js.dropWhile Js.isWord rest = rest) as ->.
  { destruct rest as [|c rest']; [reflexivity|]. cbn in Htake |- *.
    destruct (Js.isWord c); [discriminate|reflexivity]. }
  destruct Hdrop as [-> | ->]; reflexivity.
Qed.

Lemma word_starts_plain word rest :
  Js.truthy word = true -> Js.all Js.isWord word = true ->
  Js.dropWhile Js.isSpace (Js.stripOpen (word ++ rest)) = (word ++ rest)%string.
Proof.
  intros Htruthy Hword. destruct word as [|c word]; [discriminate|].
  rewrite append_cons. cbn in Hword. apply andb_true_iff in Hword as [Hc _].
  assert (Js.stripOpen (String c (word ++ rest)) = String c (word ++ rest)) as ->.
  { destruct c as [[] [] [] [] [] [] [] []]; try reflexivity. vm_compute in Hc. discriminate. }
  cbn [Js.dropWhile]. now rewrite (isWord_not_space c Hc).
Qed.

Lemma matchSimpleIdentifier_truthy s name :
  Js.matchSimpleIdentifier s = Some name -> Js.truthy name = true.
Proof.
  unfold Js.matchSimpleIdentifier.
  destruct (Js.truthy _) eqn:Hname; [|discriminate].
  destruct (Js.dropWhile Js.isSpace (Js.dropWhile Js.isWord _)) as [|c [|c' rest]];
    try discriminate.
  - now intros [= <-].
  - destruct (Ascii.eqb_spec c "}"%char) as [->|Hne].
    + now intros [= <-].
    + destruct c as [[] [] [] [] [] [] [] []]; try discriminate. now contradict Hne.
  - destruct c as [[] [] [] [] [] [] [] []]; discriminate.
Qed.

Lemma matchPropsAccess_truthy s : forall name,
  Js.matchPropsAccess s = Some name -> Js.truthy name = true.
Proof.
  induction s as [|c s IH]; intros name; [discriminate|].
  cbn [Js.matchPropsAccess].
  destruct (_ && _) eqn:Hhere; [|apply IH].
  apply andb_true_iff in Hhere as [_ Hname]. now intros [= <-].
Qed.

Lemma extractPropName_truthy value : Js.truthy (extractPropName value) = true.
Proof.
  destruct value as [v|]; [|reflexivity]. unfold extractPropName.
  destruct (Js.truthy v) eqn:Hv; [|reflexivity]. cbn [negb].
  destruct (String.eqb v "{...spread}"); [reflexivity|].
  destruct (Js.matchSimpleIdentifier v) as [name|] eqn:Hsimple;
    [eapply matchSimpleIdentifier_truthy; eassumption|].
  destruct (Js.matchPropsAccess v) as [name|] eqn:Haccess; [|assumption].
  eapply matchPropsAccess_truthy; eassumption.
Qed.

(** X1. The recorded prop name is never empty. *)
Theorem extractPropName_nonempty value : Js.truthy (extractPropName value) = true.
Proof. apply extractPropName_truthy. Qed.

(** A name of word characters stands for itself. *)
Lemma extractPropName_word word :
  Js.truthy word = true -> Js.all Js.isWord word = true ->
  extractPropName (Some word) = word.
Proof.
  intros Htruthy Hword. unfold extractPropName. rewrite Htruthy. cbn [negb].
  assert (Js.matchSimpleIdentifier word = Some word) as Hsimple.
  { apply (matchSimpleIdentifier_shape word word ""); try assumption.
    - rewrite <- (append_empty_r word) at 1. rewrite word_starts_plain by assumption.
      reflexivity.
    - exists ""%string. split; [reflexivity|now left]. }
  rewrite Hsimple. now destruct (String.eqb_spec word "{...spread}") as [->|_].
Qed.

(** X2. An identifier, in braces or not and with white space around it,
    is recorded as it stands: [{name}], [{ name }] and [name] all give
    [name]. *)
Theorem extractPropName_identifier (braced : bool) (ws word rest : string) :
  Js.all Js.isSpace ws = true ->
  Js.truthy word = true -> Js.all Js.isWord word = true -> closes rest ->
  extractPropName (Some ((if braced then "{" else "") ++ ws ++ word ++ rest)%string) = word.
Proof.
  intros Hws Htruthy Hword Hrest.
  set (v := ((if braced then "{" else "") ++ ws ++ word ++ rest)%string).
  assert (Js.matchSimpleIdentifier v = Some word) as Hsimple.
  { apply (matchSimpleIdentifier_shape v word rest); try assumption.
    unfold v. destruct braced.
    - change ("{" ++ ws ++ word ++ rest)%string with (String "{"%char (ws ++ word ++ rest)).
      cbn [Js.stripOpen]. rewrite dropWhile_app_all by assumption.
      rewrite <- (word_starts_plain word rest) at 2 by assumption.
      destruct word as [|c word]; [discriminate|]. rewrite append_cons.
      cbn in Hword. apply andb_true_iff in Hword as [Hc _].
      assert (Js.stripOpen (String c (word ++ rest)) = String c (word ++ rest)) as ->.
      { destruct c as [[] [] [] [] [] [] [] []]; try reflexivity.
        vm_compute in Hc. discriminate. }
      cbn [Js.dropWhile]. now rewrite (isWord_not_space c Hc).
    - change ("" ++ ws ++ word ++ rest)%string with (ws ++ word ++ rest)%string.
      assert (Js.stripOpen (ws ++ word ++ rest) = (ws ++ word ++ rest)%string) as ->.
      { destruct ws as [|c ws].
        - change ("" ++ word ++ rest)%string with (word ++ rest)%string.
          destruct word as [|c word]; [discriminate|]. rewrite append_cons.
          cbn in Hword. apply andb_true_iff in Hword as [Hc _].
          destruct c as [[] [] [] [] [] [] [] []]; try reflexivity.
          vm_compute in Hc. discriminate.
        - rewrite append_cons. cbn in Hws. apply andb_true_iff in Hws as [Hc _].
          destruct c as [[] [] [] [] [] [] [] []]; try reflexivity.
          vm_compute in Hc. discriminate. }
      rewrite dropWhile_app_all by assumption.
      destruct word as [|c word]; [discriminate|]. rewrite append_cons.
      cbn in Hword. apply andb_true_iff in Hword as [Hc _].
      cbn [Js.dropWhile]. now rewrite (isWord_not_space c Hc). }
  unfold extractPropName. rewrite Hsimple.
  assert (Js.truthy v = true) as ->.
  { unfold v. destruct braced; [reflexivity|].
    change ("" ++ ws ++ word ++ rest)%string with (ws ++ word ++ rest)%string.
    destruct ws as [|c ws]; [|reflexivity].
    change ("" ++ word ++ rest)%string with (word ++ rest)%string.
    destruct word; [discriminate|reflexivity]. }
  cbn [negb].
  destruct (String.eqb_spec v "{...spread}") as [Heq|_]; [|reflexivity].
  rewrite Heq in Hsimple. vm_compute in Hsimple. discriminate.
Qed.

(** X4. Extracting from a recorded prop name gives that name again. *)
Theorem extractPropName_idempotent value :
  extractPropName (Some (extractPropName value)) = extractPropName value.
Proof.
  destruct value as [v|]; [|reflexivity].
  unfold extractPropName at 2 3.
  destruct (Js.truthy v) eqn:Hv; [|reflexivity]. cbn [negb].
  destruct (String.eqb_spec v "{...spread}") as [->|Hne]; [reflexivity|].
  destruct (Js.matchSimpleIdentifier v) as [name|] eqn:Hsimple.
  - pose proof (matchSimpleIdentifier_truthy _ _ Hsimple) as Hname.
    destruct (matchSimpleIdentifier_word _ _ Hsimple) as [s' ->].
    apply extractPropName_word; [assumption|apply takeWhile_all].
  - destruct (Js.matchPropsAccess v) as [name|] eqn:Haccess.
    + pose proof (matchPropsAccess_truthy _ _ Haccess) as Hname.
      destruct (matchPropsAccess_word _ _ Haccess) as [s' ->].
      apply extractPropName_word; [assumption|apply takeWhile_all].
    + unfold extractPropName. rewrite Hv, Hsimple, Haccess. cbn [negb].
      now destruct (String.eqb_spec v "{...spread}").
Qed.

Lemma substring_all s : substring 0 (String.length s) s = s.
Proof. induction s as [|c s IH]; [reflexivity|]. cbn. now rewrite IH. Qed.

Lemma takeWhile_whole p s : Js.all p s = true -> Js.takeWhile p s = s.
Proof.
  induction s as [|c s IH]; [reflexivity|]. cbn.
  intros [-> Hs]%andb_true_iff. now rewrite IH.
Qed.

Ltac eval_classes :=
  repeat match goal with
         | |- context [Js.isSpace (Ascii ?a ?b ?c ?d ?e ?f ?g ?h)] =>
             let v := eval vm_compute in (Js.isSpace (Ascii a b c d e f g h)) in
             change (Js.isSpace (Ascii a b c d e f g h)) with v
         | |- context [Js.isWord (Ascii ?a ?b ?c ?d ?e ?f ?g ?h)] =>
             let v := eval vm_compute in (Js.isWord (Ascii a b c d e f g h)) in
             change (Js.isWord (Ascii a b c d e f g h)) with v
         end.

Lemma matchPropsAccess_head s :
  Js.startsWith s "props." = true ->
  Js.truthy (Js.takeWhile Js.isWord (substring 6 (String.length s - 6) s)) = true ->
  Js.matchPropsAccess s
  = Some (Js.takeWhile Js.isWord (substring 6 (String.length s - 6) s)).
Proof.
  intros Hstarts Hname. destruct s as [|c s]; [discriminate|].
  cbn [Js.matchPropsAccess]. now rewrite Hstarts, Hname.
Qed.

(** X3. A property access on [props] records the accessed name. *)
Theorem extractPropName_props_access word :
  Js.truthy word = true -> Js.all Js.isWord word = true ->
  extractPropName (Some ("props." ++ word)%string) = word.
Proof.
  intros Htruthy Hword.
  change ("props." ++ word)%string
    with (String "p" (String "r" (String "o" (String "p" (String "s" (String "." word)))))).
  set (v := String "p" (String "r" (String "o" (String "p" (String "s" (String "." word)))))).
  assert (substring 6 (String.length v - 6) v = word) as Hsub.
  { unfold v. cbn [String.length Nat.sub substring].
    rewrite Nat.sub_0_r. apply substring_all. }
  assert (Js.matchSimpleIdentifier v = None) as Hsimple.
  { unfold Js.matchSimpleIdentifier, v.
    cbn [Js.stripOpen Js.dropWhile Js.takeWhile]. eval_classes.
    cbn [Js.stripOpen Js.dropWhile Js.takeWhile Js.truthy]. eval_classes.
    cbn [Js.dropWhile]. eval_classes.
    destruct word; [discriminate|reflexivity]. }
  assert (Js.matchPropsAccess v = Some word) as Haccess.
  { rewrite matchPropsAccess_head; rewrite ?Hsub, ?takeWhile_whole by assumption;
      [reflexivity| |assumption].
    unfold Js.startsWith. apply prefix_correct. unfold v. now destruct word. }
  unfold extractPropName. rewrite Hsimple, Haccess.
  assert (String.eqb v "{...spread}" = false) as -> by (unfold v; vm_compute; reflexivity).
  reflexivity.
Qed.

(** ** Tags and attributes *)

Lemma scanAttributes_explicit propName attributes :
  scanAttributes propName attributes
  = scanAttributes propName (List.filter isExplicit attributes).
Proof.
  induction attributes as [|[name initializer line|] rest IH]; [reflexivity| |exact IH].
  cbn [List.filter isExplicit isSpreadAttribute negb scanAttributes].
  now rewrite IH.
Qed.

Lemma scanAttributes_first propName before : forall initializer line after value,
  forallb (fun attr => negb (decides propName attr)) before = true ->
  attributeValue initializer = Some value ->
  scanAttributes propName (before ++ JsxAttribute propName initializer line :: after)
  = Some {| usageLine := line; usageValue := value |}.
Proof.
  induction before as [|[name initializer' line'|] before IH];
    intros initializer line after value Hbefore Hvalue.
  - cbn [app scanAttributes]. rewrite String.eqb_refl.
    destruct initializer as [[text|expression|]|]; cbn in Hvalue;
      first [discriminate | now injection Hvalue as <-].
  - cbn [forallb decides] in Hbefore. apply andb_true_iff in Hbefore as [Hattr Hbefore].
    cbn [app scanAttributes].
    destruct (String.eqb name propName); [|now apply IH].
    destruct initializer' as [[text|expression|]|]; cbn in Hattr; try discriminate.
    now apply IH.
  - cbn [forallb] in Hbefore. apply andb_true_iff in Hbefore as [_ Hbefore].
    cbn [app scanAttributes]. now apply IH.
Qed.

Lemma scanAttributes_undecided propName attributes :
  forallb (fun attr => negb (decides propName attr)) attributes = true ->
  scanAttributes propName attributes = None.
Proof.
  induction attributes as [|[name initializer line|] attributes IH]; [reflexivity| |].
  - cbn [forallb decides scanAttributes]. intros [Hattr Hrest]%andb_true_iff.
    destruct (String.eqb name propName); [|now apply IH].
    destruct initializer as [[text|expression|]|]; cbn in Hattr; try discriminate.
    now apply IH.
  - cbn [forallb scanAttributes]. intros [_ Hrest]%andb_true_iff. now apply IH.
Qed.

(** X5. An explicit attribute decides whatever spreads stand around it: the
    first attribute named like the prop whose initializer is absent, a
    string literal or a brace expression gives the usage, with spreads
    and other attributes before it or not.  Only when no attribute
    decides does a spread give the sentinel, at the line of the tag, and
    without a spread the tag gives nothing. *)
Theorem usageInTag_explicit_first propName element :
  (forall before initializer line after value,
     tagAttributes element = before ++ JsxAttribute propName initializer line :: after ->
     forallb (fun attr => negb (decides propName attr)) before = true ->
     attributeValue initializer = Some value ->
     usageInTag propName element = Some {| usageLine := line; usageValue := value |})
  /\ (forallb (fun attr => negb (decides propName attr)) (tagAttributes element) = true ->
      usageInTag propName element
      = if hasSpread (tagAttributes element)
        then Some {| usageLine := tagStartLine element;
                     usageValue := Some spreadSentinel |}
        else None).
Proof.
  split.
  - intros before initializer line after value Hattributes Hbefore Hvalue.
    unfold usageInTag.
    now rewrite Hattributes, (scanAttributes_first _ _ _ _ _ _ Hbefore Hvalue).
  - intros Hnone. unfold usageInTag. now rewrite (scanAttributes_undecided _ _ Hnone).
Qed.

Lemma firstUsage_Some componentName propName elements : forall usage,
  firstUsage componentName propName elements = Some usage ->
  exists before element after,
    elements = before ++ element :: after
    /\ tagName element = componentName
    /\ usageInTag propName element = Some usage
    /\ forall other, In other before -> tagName other = componentName ->
         usageInTag propName other = None.
Proof.
  induction elements as [|element rest IH]; intros usage; [discriminate|].
  cbn [firstUsage].
  destruct (String.eqb_spec (tagName element) componentName) as [Hname|Hname].
  - destruct (usageInTag propName element) as [u|] eqn:Hu.
    + intros [= <-]. exists [], element, rest. repeat split; try assumption.
      intros other [].
    + intros Hrest. destruct (IH _ Hrest) as (before & e & after & -> & He & Hue & Hbefore).
      exists (element :: before), e, after. repeat split; try assumption.
      intros other [<-|Hin] Hother; [assumption|now apply Hbefore].
  - intros Hrest. destruct (IH _ Hrest) as (before & e & after & -> & He & Hue & Hbefore).
    exists (element :: before), e, after. repeat split; try assumption.
    intros other [<-|Hin] Hother; [contradiction|now apply Hbefore].
Qed.

Lemma firstUsage_None componentName propName elements :
  firstUsage componentName propName elements = None
  <-> forall element, In element elements -> tagName element = componentName ->
        usageInTag propName element = None.
Proof.
  induction elements as [|element rest IH]; [split; [intros _ ? []|reflexivity]|].
  cbn [firstUsage].
  destruct (String.eqb_spec (tagName element) componentName) as [Hname|Hname].
  - destruct (usageInTag propName element) as [u|] eqn:Hu.
    + split; [discriminate|]. intros Hall.
      rewrite (Hall element (or_introl eq_refl) Hname) in Hu. discriminate.
    + rewrite IH. split.
      * intros Hall e [<-|Hin] He; [assumption|now apply Hall].
      * intros Hall e Hin. apply Hall. now right.
  - rewrite IH. split.
    + intros Hall e [<-|Hin] He; [contradiction|now apply Hall].
    + intros Hall e Hin. apply Hall. now right.
Qed.

Lemma getDescendantsOfKind_In sf k element :
  In element (getDescendantsOfKind sf k)
  <-> In element (jsxElements sf) /\ tagKind element = k.
Proof.
  unfold getDescendantsOfKind.
  rewrite <- !list_elem_of_In, list_elem_of_filter.
  split.
  - intros [Hkind Hin]. split; [assumption|].
    unfold isKind in Hkind. destruct k, (tagKind element); congruence.
  - intros [Hin Hkind]. split; [|assumption].
    unfold isKind. rewrite Hkind. now destruct k.
Qed.

(** X6. [findPropUsage] answers with the first paired tag of the name that
    yields a usage, and with nothing exactly when no paired tag of the
    name does. *)
Theorem findPropUsage_first_paired_tag sf componentName propName :
  (forall usage,
     findPropUsage sf componentName propName = Some usage ->
     exists before element after,
       getDescendantsOfKind sf JsxOpeningElement = before ++ element :: after
       /\ tagName element = componentName
       /\ usageInTag propName element = Some usage
       /\ forall other, In other before -> tagName other = componentName ->
            usageInTag propName other = None)
  /\ (findPropUsage sf componentName propName = None
      <-> forall element,
            In element (jsxElements sf) -> tagKind element = JsxOpeningElement ->
            tagName element = componentName -> usageInTag propName element = None).
Proof.
  split; [intros usage; apply firstUsage_Some|].
  unfold findPropUsage. rewrite firstUsage_None. split.
  - intros Hall element Hin Hkind. apply Hall. now apply getDescendantsOfKind_In.
  - intros Hall element [Hin Hkind]%getDescendantsOfKind_In. now apply Hall.
Qed.

Lemma closestTo_least nearLine matching : forall first,
  let closest := closestTo nearLine first matching in
  distance (tagStartLine closest) nearLine <= distance (tagStartLine first) nearLine
  /\ forall m, In m matching ->
       distance (tagStartLine closest) nearLine <= distance (tagStartLine m) nearLine.
Proof.
  unfold closestTo.
  induction matching as [|m rest IH]; intros first; cbn [fold_left]; [split; [lia|intros ? []]|].
  destruct (Nat.ltb_spec (distance (tagStartLine m) nearLine)
                         (distance (tagStartLine first) nearLine)) as [Hlt|Hge].
  - destruct (IH m) as [Hm Hrest]. split; [lia|].
    intros m' [<-|Hin]; [assumption|now apply Hrest].
  - destruct (IH first) as [Hf Hrest]. split; [assumption|].
    intros m' [<-|Hin]; [lia|now apply Hrest].
Qed.

Lemma tagsNamed_filter sf componentName :
  filter (fun element => String.eqb (tagName element) componentName = true)
         (getDescendantsOfKind sf JsxOpeningElement
          ++ getDescendantsOfKind sf JsxSelfClosingElement)
  = tagsNamed sf componentName.
Proof.
  unfold tagsNamed.
  induction (getDescendantsOfKind sf JsxOpeningElement
             ++ getDescendantsOfKind sf JsxSelfClosingElement) as [|e l IH];
    [reflexivity|].
  cbn [List.filter]. rewrite filter_cons.
  destruct (String.eqb (tagName e) componentName) eqn:E.
  - rewrite decide_True by reflexivity. now rewrite IH.
  - rewrite decide_False by discriminate. exact IH.
Qed.

Lemma tagsNamed_In sf componentName element :
  In element (tagsNamed sf componentName)
  <-> In element (jsxElements sf) /\ tagName element = componentName.
Proof.
  unfold tagsNamed. rewrite filter_In, in_app_iff, !getDescendantsOfKind_In, String.eqb_eq.
  split.
  - intros [[[Hin _]|[Hin _]] Hname]; now split.
  - intros [Hin Hname]. split; [|assumption].
    destruct (tagKind element) eqn:E; [left|right]; now split.
Qed.

(** X7. [findPropUsageAtLocation] reads one tag, paired or self-closing: a
    tag of the name at the least distance from the line.  It answers
    nothing when no tag has the name. *)
Theorem findPropUsageAtLocation_closest sf componentName propName nearLine :
  (findPropUsageAtLocation sf componentName propName nearLine = None
   /\ forall element, In element (jsxElements sf) -> tagName element <> componentName)
  \/ exists closest,
       In closest (jsxElements sf)
       /\ tagName closest = componentName
       /\ findPropUsageAtLocation sf componentName propName nearLine
          = usageInTag propName closest
       /\ forall element,
            In element (jsxElements sf) -> tagName element = componentName ->
            distance (tagStartLine closest) nearLine
            <= distance (tagStartLine element) nearLine.
Proof.
  unfold findPropUsageAtLocation. rewrite tagsNamed_filter.
  destruct (tagsNamed sf componentName) as [|first rest] eqn:Hnamed.
  - left. split; [reflexivity|]. intros element Hin Hname.
    assert (In element (tagsNamed sf componentName)) as H by now apply tagsNamed_In.
    rewrite Hnamed in H. destruct H.
  - right. exists (closestTo nearLine first (first :: rest)).
    destruct (closestTo_least nearLine (first :: rest) first) as [_ Hleast].
    assert (In (closestTo nearLine first (first :: rest)) (first :: rest)) as Hin.
    { destruct (closestTo_elem nearLine (first :: rest) first) as [->|H];
        [now left|assumption]. }
    assert (forall x, In x (first :: rest)
                      <-> In x (jsxElements sf) /\ tagName x = componentName) as Hsub
      by (intros x; rewrite <- Hnamed; apply tagsNamed_In).
    apply Hsub in Hin as [Hin Hname].
    split; [assumption|]. split; [assumption|]. split; [reflexivity|].
    intros element He Hn. apply Hleast. now apply Hsub.
Qed.

(** ** Type resolution *)

Lemma dedupe_fold (props : list string) : forall seen,
  let result := fold_left dedupeStep props seen in
  (NoDup seen -> NoDup result)
  /\ (forall x, In x result <-> In x seen \/ In x props)
  /\ exists tail, result = seen ++ tail.
Proof.
  induction props as [|p props IH]; intros seen; cbn [fold_left].
  - split; [auto|]. split; [intros x; cbn; tauto|]. exists []. now rewrite app_nil_r.
  - destruct (IH (dedupeStep seen p)) as (Hnodup & Hin & tail & Htail).
    assert (forall x, In x (dedupeStep seen p) <-> In x seen \/ x = p) as Hstep.
    { intros x. unfold dedupeStep.
      destruct (existsb (String.eqb p) seen) eqn:Hseen.
      - apply existsb_exists in Hseen as (y & Hy & Heq). apply String.eqb_eq in Heq.
        subst y. split; [tauto|]. now intros [H| ->].
      - rewrite in_app_iff. cbn. split; [intros [H|[H|[]]]; auto | intros [H|H]; auto]. }
    split; [|split].
    + intros Hseen. apply Hnodup. unfold dedupeStep.
      destruct (existsb (String.eqb p) seen) eqn:Hp; [assumption|].
      apply NoDup_app. split; [assumption|]. split; [|apply NoDup_singleton].
      intros x Hx Hxp. apply list_elem_of_singleton in Hxp as ->.
      assert (existsb (String.eqb p) seen = true) as Hyes.
      { apply existsb_exists. exists p. split; [now apply list_elem_of_In|].
        apply String.eqb_refl. }
      congruence.
    + intros x. rewrite Hin, Hstep. cbn. split; [intros [[H|H]|H]|intros [H|[H|H]]]; auto.
    + unfold dedupeStep in Htail |- *.
      destruct (existsb (String.eqb p) seen); [eauto|].
      exists ([p] ++ tail). now rewrite app_assoc.
Qed.

Lemma dedupe_NoDup props : NoDup (dedupe props).
Proof. apply (dedupe_fold props []). apply NoDup_nil_2. Qed.

Lemma dedupe_In props x : In x (dedupe props) <-> In x props.
Proof.
  destruct (dedupe_fold props []) as (_ & Hin & _). unfold dedupe.
  change (fun seen p => if existsb (String.eqb p) seen then seen else seen ++ [p])
    with dedupeStep.
  rewrite Hin. cbn. tauto.
Qed.

Lemma dedupe_head p props : head (dedupe (p :: props)) = Some p.
Proof.
  unfold dedupe. cbn [fold_left existsb app].
  destruct (dedupe_fold props [p]) as (_ & _ & tail & Htail).
  change (fun seen p => if existsb (String.eqb p) seen then seen else seen ++ [p])
    with dedupeStep.
  cbv zeta in Htail. now rewrite Htail.
Qed.

Lemma getTypeAlias_In sf n a : getTypeAlias sf n = Some a -> In a (typeAliases sf) /\ aliasName a = n.
Proof.
  unfold getTypeAlias. intros H. apply find_some in H as [Hin Hname].
  now apply String.eqb_eq in Hname.
Qed.

Lemma getInterface_In sf n i : getInterface sf n = Some i -> In i (interfaces sf) /\ interfaceName i = n.
Proof.
  unfold getInterface. intros H. apply find_some in H as [Hin Hname].
  now apply String.eqb_eq in Hname.
Qed.

Lemma resolveTypeToProps_distinct sf :
  (forall a members,
     In a (typeAliases sf) -> aliasTypeNode a = Some (TypeLiteral members) ->
     NoDup (memberNames members)) ->
  forall stack typeName props,
    resolveTypeToProps stack sf typeName = Some props -> NoDup props.
Proof.
  intros Hliterals. induction stack as [|stack IH]; intros typeName props; [discriminate|].
  cbn [resolveTypeToProps].
  assert (match getInterface sf typeName with
            | Some interfaceDecl =>
                match mapM (resolveTypeToProps stack sf) (interfaceExtends interfaceDecl) with
                | Some extendedProps =>
                    Some (dedupe (filter (fun n => Js.truthy n = true)
                                         (interfaceProperties interfaceDecl)
                                  ++ concat extendedProps))
                | None => None
                end
            | None => Some []
            end = Some props -> NoDup props) as Hinterface.
  { destruct (getInterface sf typeName) as [i|].
    - destruct (mapM _ _); [|discriminate]. intros [= <-]. apply dedupe_NoDup.
    - intros [= <-]. apply NoDup_nil_2. }
  destruct (Js.matchGenericWrapper "PropsWithChildren" typeName).
  { destruct (resolveTypeToProps stack sf _); [|discriminate].
    intros [= <-]. apply dedupe_NoDup. }
  destruct (Js.matchGenericWrapper "PropsWithRef" typeName).
  { destruct (resolveTypeToProps stack sf _); [|discriminate].
    intros [= <-]. apply dedupe_NoDup. }
  destruct (getTypeAlias sf typeName) as [a|] eqn:Halias; [|now apply Hinterface].
  apply getTypeAlias_In in Halias as [Halias _].
  destruct (aliasTypeNode a) as [[members|name text args|types|types|]|] eqn:Hnode;
    try (now apply Hinterface).
  - intros [= <-]. eapply Hliterals; eassumption.
  - apply IH.
  - destruct (mapM _ _); [|discriminate]. intros [= <-]. apply dedupe_NoDup.
  - destruct (mapM _ _); [|discriminate]. intros [= <-]. apply dedupe_NoDup.
Qed.

(** X8. When no type-literal alias of the file repeats a member name, a
    resolved prop list never repeats a name. *)
Theorem resolveTypeToProps_NoDup sf stack typeName props :
  literalsDistinct sf = true ->
  resolveTypeToProps stack sf typeName = Some props -> NoDup props.
Proof.
  intros Hdistinct. apply resolveTypeToProps_distinct.
  intros a members Ha Hnode. unfold literalsDistinct in Hdistinct.
  rewrite forallb_forall in Hdistinct. specialize (Hdistinct a Ha).
  rewrite Hnode in Hdistinct. now apply bool_decide_eq_true in Hdistinct.
Qed.

Lemma mapM_mono {A B} (f g : A -> option B) (l : list A) :
  (forall x y, f x = Some y -> g x = Some y) ->
  forall ys, mapM f l = Some ys -> mapM g l = Some ys.
Proof.
  intros Hfg. induction l as [|x l IH]; intros ys; [trivial|].
  cbn. destruct (f x) as [y|] eqn:Hx; [|discriminate]. rewrite (Hfg x y Hx). cbn.
  destruct (mapM f l) as [k|]; [|discriminate]. now rewrite (IH k eq_refl).
Qed.

(** X9. A resolution that succeeds gives the same props under any deeper
    stack. *)
Theorem resolveTypeToProps_more_stack sf : forall stack stack' typeName props,
  stack <= stack' ->
  resolveTypeToProps stack sf typeName = Some props ->
  resolveTypeToProps stack' sf typeName = Some props.
Proof.
  induction stack as [|stack IH]; intros stack' typeName props Hle; [discriminate|].
  destruct stack' as [|stack']; [lia|].
  assert (forall n ps, resolveTypeToProps stack sf n = Some ps ->
                       resolveTypeToProps stack' sf n = Some ps) as Hstep
    by (intros n ps; apply IH; lia).
  cbn [resolveTypeToProps].
  assert (forall i,
            match mapM (resolveTypeToProps stack sf) (interfaceExtends i) with
            | Some extendedProps =>
                Some (dedupe (filter (fun n => Js.truthy n = true) (interfaceProperties i)
                              ++ concat extendedProps))
            | None => None
            end = Some props ->
            match mapM (resolveTypeToProps stack' sf) (interfaceExtends i) with
            | Some extendedProps =>
                Some (dedupe (filter (fun n => Js.truthy n = true) (interfaceProperties i)
                              ++ concat extendedProps))
            | None => None
            end = Some props) as Hinterface.
  { intros i. destruct (mapM (resolveTypeToProps stack sf) _) as [k|] eqn:Hk; [|discriminate].
    now rewrite (mapM_mono _ _ _ Hstep k Hk). }
  destruct (Js.matchGenericWrapper "PropsWithChildren" typeName).
  { destruct (resolveTypeToProps stack sf _) as [ps|] eqn:Hps; [|discriminate].
    now rewrite (Hstep _ _ Hps). }
  destruct (Js.matchGenericWrapper "PropsWithRef" typeName).
  { destruct (resolveTypeToProps stack sf _) as [ps|] eqn:Hps; [|discriminate].
    now rewrite (Hstep _ _ Hps). }
  assert (forall ts,
            match mapM (branchProps (resolveTypeToProps stack sf)) ts with
            | Some parts => Some (dedupe (concat parts))
            | None => None
            end = Some props ->
            match mapM (branchProps (resolveTypeToProps stack' sf)) ts with
            | Some parts => Some (dedupe (concat parts))
            | None => None
            end = Some props) as Hbranches.
  { intros ts. destruct (mapM (branchProps (resolveTypeToProps stack sf)) ts) as [k|] eqn:Hk;
      [|discriminate].
    assert (forall x y, branchProps (resolveTypeToProps stack sf) x = Some y ->
                        branchProps (resolveTypeToProps stack' sf) x = Some y) as Hbranch
      by (intros [ms|n t args|ts'|ts'|] y; cbn; auto).
    now rewrite (mapM_mono _ _ _ Hbranch k Hk). }
  destruct (getTypeAlias sf typeName) as [a|].
  - destruct (aliasTypeNode a) as [[members|name text args|types|types|]|]; auto;
      destruct (getInterface sf typeName); auto.
  - destruct (getInterface sf typeName); auto.
Qed.

(** X10. A [PropsWithChildren<T>] wrapper puts [children] in front of the
    props of [T]. *)
Theorem resolveTypeToProps_PropsWithChildren stack sf typeName inner innerProps :
  Js.matchGenericWrapper "PropsWithChildren" typeName = Some inner ->
  resolveTypeToProps stack sf (Js.trim inner) = Some innerProps ->
  exists props,
    resolveTypeToProps (S stack) sf typeName = Some props
    /\ head props = Some "children"%string
    /\ NoDup props
    /\ forall p, In p props <-> p = "children"%string \/ In p innerProps.
Proof.
  intros Hwrapper Hinner. cbn [resolveTypeToProps]. rewrite Hwrapper, Hinner.
  eexists. split; [reflexivity|]. split; [apply dedupe_head|].
  split; [apply dedupe_NoDup|].
  intros p. rewrite dedupe_In. cbn. split; intros [H|H]; auto.
Qed.

(** X11. An interface that no alias shadows yields its own named properties
    together with the props of every interface it extends. *)
Theorem resolveTypeToProps_interface stack sf typeName interfaceDecl props :
  Js.matchGenericWrapper "PropsWithChildren" typeName = None ->
  Js.matchGenericWrapper "PropsWithRef" typeName = None ->
  getTypeAlias sf typeName = None ->
  getInterface sf typeName = Some interfaceDecl ->
  resolveTypeToProps (S stack) sf typeName = Some props ->
  forall p,
    In p props
    <-> (Js.truthy p = true /\ In p (interfaceProperties interfaceDecl))
        \/ exists base baseProps,
             In base (interfaceExtends interfaceDecl)
             /\ resolveTypeToProps stack sf base = Some baseProps
             /\ In p baseProps.
Proof.
  intros Hchildren Href Halias Hinterface. cbn [resolveTypeToProps].
  rewrite Hchildren, Href, Halias, Hinterface.
  destruct (mapM (resolveTypeToProps stack sf) (interfaceExtends interfaceDecl))
    as [extendedProps|] eqn:Hextended; [|discriminate].
  intros [= <-] p. rewrite dedupe_In, in_app_iff.
  apply mapM_Some_1 in Hextended.
  assert (In p (concat extendedProps)
          <-> exists base baseProps,
                In base (interfaceExtends interfaceDecl)
                /\ resolveTypeToProps stack sf base = Some baseProps
                /\ In p baseProps) as Hconcat.
  { induction Hextended as [|base baseProps bases rest Hbase Hrest IH].
    - cbn. split; [intros []|intros (? & ? & [] & _)].
    - cbn [concat]. rewrite in_app_iff, IH. split.
      + intros [H|(b & bp & Hb & Hr & Hp)].
        * exists base, baseProps. split; [now left|]. now split.
        * exists b, bp. split; [now right|]. now split.
      + intros (b & bp & [<-|Hb] & Hr & Hp).
        * left. congruence.
        * right. exists b, bp. now split. }
  rewrite Hconcat.
  rewrite <- list_elem_of_In, list_elem_of_filter, list_elem_of_In. tauto.
Qed.

(** ** Components of a file *)

Lemma extractComponentFromFunction_info stack sf func filePath c :
  extractComponentFromFunction stack sf func filePath = Some (Some c) ->
  Js.testUpperFirst (ciName c) = true /\ ciFilePath c = filePath
  /\ funcName func = Some (ciName c).
Proof.
  unfold extractComponentFromFunction.
  destruct (funcName func) as [name|]; [|discriminate].
  destruct (Js.truthy name); [|discriminate]. cbn [negb].
  destruct (Js.testUpperFirst name) eqn:Hupper; [|discriminate]. cbn [negb].
  destruct (propsOfFirstParameter stack sf (funcParameters func)); [|discriminate].
  intros [= <-]. cbn. auto.
Qed.

Lemma extractComponentFromVariable_info stack sf varDecl filePath c :
  extractComponentFromVariable stack sf varDecl filePath = Some (Some c) ->
  Js.testUpperFirst (ciName c) = true /\ ciFilePath c = filePath
  /\ varName varDecl = ciName c /\ ciLine c = variableLine varDecl.
Proof.
  unfold extractComponentFromVariable, wrappedComponent.
  destruct (Js.testUpperFirst (varName varDecl)) eqn:Hupper; [|discriminate]. cbn [negb].
  destruct (varInitializer varDecl) as [[params|params|expression args|text|e n|]|];
    try discriminate.
  - destruct (propsOfFirstParameter stack sf params); [|discriminate].
    destruct (if length l =? 0 then _ else _); [|discriminate].
    intros [= <-]. cbn. auto.
  - destruct (propsOfFirstParameter stack sf params); [|discriminate].
    destruct (if length l =? 0 then _ else _); [|discriminate].
    intros [= <-]. cbn. auto.
  - destruct (isRecognizedWrapper (calleeName expression)); [|discriminate].
    destruct args as [|[params|params|e a|text|e n|] args]; try discriminate.
    + destruct (propsOfFirstParameter stack sf params); [|discriminate].
      intros [= <-]. cbn. auto.
    + destruct (propsOfFirstParameter stack sf params); [|discriminate].
      intros [= <-]. cbn. auto.
Qed.

Lemma reExportedComponent_info w analyze filePath resolvedPath line namedExport c :
  reExportedComponent w analyze filePath resolvedPath line namedExport = Some c ->
  Js.testUpperFirst (ciName c) = true /\ ciFilePath c = filePath /\ ciLine c = line.
Proof.
  unfold reExportedComponent.
  destruct (Js.testUpperFirst _) eqn:Hupper; [|discriminate]. cbn [negb].
  destruct (getSourceFile w resolvedPath); [|discriminate].
  destruct (analyze resolvedPath) as [originalComponents|]; [|discriminate].
  destruct (findComponent (exportName namedExport) originalComponents); [|discriminate].
  intros [= <-]. cbn. auto.
Qed.

Lemma findReExportedComponents_info w analyze sf filePath c :
  In c (findReExportedComponents w analyze sf filePath) ->
  Js.testUpperFirst (ciName c) = true /\ ciFilePath c = filePath.
Proof.
  unfold findReExportedComponents. rewrite in_flat_map.
  intros (exportDecl & _ & Hin).
  destruct (exportModuleSpecifier exportDecl) as [moduleSpecifier|]; [|destruct Hin].
  destruct (negb (Js.truthy moduleSpecifier)); [destruct Hin|].
  destruct (exportResolvedPath exportDecl) as [resolvedPath|]; [|destruct Hin].
  apply list_elem_of_In, list_elem_of_omap in Hin as (namedExport & _ & Hc).
  apply reExportedComponent_info in Hc. tauto.
Qed.

Lemma analyzeFileAt_components w stack filePath components c :
  analyzeFileAt w stack filePath = Some components -> In c components ->
  Js.testUpperFirst (ciName c) = true /\ ciFilePath c = filePath.
Proof.
  destruct stack as [|stack]; [discriminate|]. cbn [analyzeFileAt].
  destruct (getSourceFile w filePath) as [sf|]; [|discriminate].
  destruct (mapM _ (functions sf)) as [fromFunctions|] eqn:Hfunctions; [|discriminate].
  destruct (mapM _ (variableDeclarations sf)) as [fromVariables|] eqn:Hvariables;
    [|discriminate].
  intros [= <-]. rewrite !in_app_iff. intros [Hin|[Hin|Hin]].
  - apply list_elem_of_In, list_elem_of_omap in Hin as (x & Hx & Hc). cbn in Hc. subst x.
    apply mapM_Some_1 in Hfunctions.
    apply list_elem_of_lookup in Hx as [i Hi].
    destruct (Forall2_lookup_r _ _ _ _ _ Hfunctions Hi) as (func & _ & Hfunc).
    apply extractComponentFromFunction_info in Hfunc. tauto.
  - apply list_elem_of_In, list_elem_of_omap in Hin as (x & Hx & Hc). cbn in Hc. subst x.
    apply mapM_Some_1 in Hvariables.
    apply list_elem_of_lookup in Hx as [i Hi].
    destruct (Forall2_lookup_r _ _ _ _ _ Hvariables Hi) as (varDecl & _ & Hvar).
    apply extractComponentFromVariable_info in Hvar. tauto.
  - eapply findReExportedComponents_info; eassumption.
Qed.

(** X12. Every component [analyzeFile] lists is named with an upper-case first
    letter and carries the analysed path, re-exports included. *)
Theorem analyzeFile_components w filePath components c :
  analyzeFile w filePath = Some components -> In c components ->
  Js.testUpperFirst (ciName c) = true /\ ciFilePath c = filePath.
Proof. apply analyzeFileAt_components. Qed.

(** A path that is not on disk makes [analyzeFile] throw, whatever the
    stack. *)
Lemma analyzeFileAt_on_disk w stack filePath components :
  analyzeFileAt w stack filePath = Some components ->
  exists sf, getSourceFile w filePath = Some sf.
Proof.
  destruct stack as [|stack]; [discriminate|]. cbn [analyzeFileAt].
  destruct (getSourceFile w filePath) as [sf|]; [eauto|discriminate].
Qed.

(** ** The component at a line *)

Lemma closestStep_invariant line seen closestComponent comp :
  closestInvariant line seen closestComponent ->
  closestInvariant line (seen ++ [comp]) (closestStep line closestComponent comp).
Proof.
  unfold closestStep.
  destruct (Nat.leb_spec (ciLine comp) line) as [Hle|Hgt].
  - destruct closestComponent as [[name closestLine]|]; cbn [closestInvariant].
    + intros ((c & Hin & Hname & Hline) & Hclosest & Hmax).
      destruct (Nat.ltb_spec closestLine (ciLine comp)) as [Hlt|Hge]; cbn [closestInvariant].
      * split; [exists comp; rewrite in_app_iff; cbn; auto|]. split; [assumption|].
        intros c' [Hc'|[<-|[]]]%in_app_iff Hc'line; [|lia].
        specialize (Hmax c' Hc' Hc'line). lia.
      * split; [exists c; rewrite in_app_iff; auto|]. split; [assumption|].
        intros c' [Hc'|[<-|[]]]%in_app_iff Hc'line; [auto|lia].
    + intros Hnone. split; [exists comp; rewrite in_app_iff; cbn; auto|].
      split; [assumption|].
      intros c' [Hc'|[<-|[]]]%in_app_iff Hc'line; [|lia].
      specialize (Hnone c' Hc'). lia.
  - destruct closestComponent as [[name closestLine]|]; cbn [closestInvariant].
    + intros ((c & Hin & Hname & Hline) & Hclosest & Hmax).
      split; [exists c; rewrite in_app_iff; auto|]. split; [assumption|].
      intros c' [Hc'|[<-|[]]]%in_app_iff Hc'line; [auto|lia].
    + intros Hnone c' [Hc'|[<-|[]]]%in_app_iff; [auto|lia].
Qed.

Lemma closest_fold line components : forall seen closestComponent,
  closestInvariant line seen closestComponent ->
  closestInvariant line (seen ++ components)
    (fold_left (closestStep line) components closestComponent).
Proof.
  induction components as [|comp rest IH]; intros seen closestComponent Hinv; cbn [fold_left].
  - now rewrite app_nil_r.
  - replace (seen ++ comp :: rest) with ((seen ++ [comp]) ++ rest)
      by now rewrite <- app_assoc.
    apply IH. now apply closestStep_invariant.
Qed.

Lemma findComponentAtLine_fold w filePath line components :
  analyzeFile w filePath = Some components ->
  findComponentAtLine w filePath line
  = Some (option_map fst (fold_left (closestStep line) components None)).
Proof. intros Hcomponents. unfold findComponentAtLine. now rewrite Hcomponents. Qed.

Lemma findComponentAtLine_component w filePath line name :
  findComponentAtLine w filePath line = Some (Some name) ->
  exists components c,
    analyzeFile w filePath = Some components
    /\ In c components /\ ciName c = name /\ ciLine c <= line
    /\ forall c', In c' components -> ciLine c' <= line -> ciLine c' <= ciLine c.
Proof.
  destruct (analyzeFile w filePath) as [components|] eqn:Hcomponents;
    [|unfold findComponentAtLine; rewrite Hcomponents; discriminate].
  rewrite (findComponentAtLine_fold _ _ _ _ Hcomponents).
  pose proof (closest_fold line components [] None) as Hinv.
  destruct (fold_left (closestStep line) components None) as [[n closestLine]|];
    [|discriminate].
  intros [= <-]. cbn [closestInvariant app] in Hinv.
  destruct Hinv as ((c & Hin & Hname & Hline) & Hclosest & Hmax); [intros c []|].
  exists components, c. subst closestLine. auto.
Qed.

(** X15. [findComponentAtLine] answers with a component of the file that
    starts at or before the line and no earlier than any other such
    component, and with nothing exactly when every component starts
    after the line. *)
Theorem findComponentAtLine_closest w filePath line components :
  analyzeFile w filePath = Some components ->
  exists closest,
    findComponentAtLine w filePath line = Some closest
    /\ match closest with
       | Some name =>
           exists c, In c components /\ ciName c = name /\ ciLine c <= line
                     /\ forall c', In c' components -> ciLine c' <= line ->
                          ciLine c' <= ciLine c
       | None => forall c, In c components -> line < ciLine c
       end.
Proof.
  intros Hcomponents. rewrite (findComponentAtLine_fold _ _ _ _ Hcomponents).
  eexists. split; [reflexivity|].
  pose proof (closest_fold line components [] None) as Hinv.
  destruct (fold_left (closestStep line) components None) as [[n closestLine]|];
    cbn [closestInvariant app option_map fst] in *.
  - destruct Hinv as ((c & Hin & Hname & Hline) & Hclosest & Hmax); [intros c []|].
    exists c. subst closestLine. auto.
  - apply Hinv. intros c [].
Qed.

(** ** The cursor loop of the commands *)

Lemma linesIncrease_app components : forall comp,
  linesIncrease (components ++ [comp]) = true ->
  linesIncrease components = true
  /\ forall c, In c components -> ciLine c < ciLine comp.
Proof.
  induction components as [|c rest IH]; intros comp; cbn [linesIncrease app].
  - split; [reflexivity|intros ? []].
  - rewrite !andb_true_iff, !forallb_forall.
    intros [Hc Hrest]. destruct (IH comp Hrest) as [Hsorted Hbelow].
    split.
    + split; [|assumption]. intros c' Hc'. apply Hc. rewrite in_app_iff. auto.
    + intros c' [<-|Hc'].
      * apply Nat.ltb_lt, Hc. rewrite in_app_iff. cbn. auto.
      * now apply Hbelow.
Qed.

(** X16. Where the components of a file are listed by increasing line, the
    loop of the commands and [findComponentAtLine] name the same
    component. *)
Theorem componentUnderCursor_increasing w filePath line components :
  analyzeFile w filePath = Some components ->
  linesIncrease components = true ->
  findComponentAtLine w filePath line = Some (componentUnderCursor components line).
Proof.
  intros Hcomponents Hsorted. rewrite (findComponentAtLine_fold _ _ _ _ Hcomponents).
  f_equal. clear Hcomponents. unfold componentUnderCursor.
  induction components as [|comp components IH] using rev_ind; [reflexivity|].
  apply linesIncrease_app in Hsorted as [Hsorted Hbelow].
  rewrite !fold_left_app. cbn [fold_left]. rewrite <- (IH Hsorted).
  pose proof (closest_fold line components [] None) as Hinv.
  unfold closestStep at 1.
  destruct (ciLine comp <=? line); [|reflexivity].
  destruct (fold_left (closestStep line) components None) as [[n closestLine]|];
    [|reflexivity].
  cbn [closestInvariant app] in Hinv.
  destruct Hinv as ((c & Hin & _ & Hline) & _); [intros c []|].
  specialize (Hbelow c Hin).
  destruct (Nat.ltb_spec closestLine (ciLine comp)); [reflexivity|lia].
Qed.

(** ** Parents *)

Lemma findComponentUsagesInWorkspace_In w componentName location :
  In location (findComponentUsagesInWorkspace w componentName) ->
  In (locationPath location) (firstn 200 (workspaceFiles w))
  /\ exists document hit,
       getSourceFile w (locationPath location) = Some document
       /\ In hit (textHits document)
       /\ hitName hit = componentName
       /\ locationLine location = hitLine hit.
Proof.
  unfold findComponentUsagesInWorkspace. rewrite in_flat_map.
  intros (file & Hfile & Hin).
  destruct (getSourceFile w file) as [document|] eqn:Hdocument; [|destruct Hin].
  apply in_map_iff in Hin as (hit & <- & Hhit). cbn.
  apply list_elem_of_In, list_elem_of_filter in Hhit as [Hname Hhit].
  split; [assumption|]. exists document, hit.
  split; [assumption|]. split; [now apply list_elem_of_In|].
  split; [now apply String.eqb_eq|reflexivity].
Qed.

Lemma firstResolution_Some w usages node location r :
  firstResolution w usages node = Some (location, r) ->
  In location usages
  /\ locationPath location <> PropNode.filePath node
  /\ resolveUsage w location node = Some r.
Proof.
  induction usages as [|l rest IH]; [discriminate|]. cbn [firstResolution].
  destruct (String.eqb_spec (locationPath l) (PropNode.filePath node)) as [Hsame|Hother].
  - intros H. destruct (IH H) as (Hin & Hpath & Hr). split; [now right|]. now split.
  - destruct (resolveUsage w l node) as [r'|] eqn:Hr'.
    + intros [= <- <-]. split; [now left|]. now split.
    + intros H. destruct (IH H) as (Hin & Hpath & Hr). split; [now right|]. now split.
Qed.

Lemma findPropUsageAtLocation_tag sf componentName propName nearLine usage :
  findPropUsageAtLocation sf componentName propName nearLine = Some usage ->
  exists element,
    In element (jsxElements sf)
    /\ tagName element = componentName
    /\ usageInTag propName element = Some usage.
Proof.
  unfold findPropUsageAtLocation. rewrite tagsNamed_filter.
  destruct (tagsNamed sf componentName) as [|first rest] eqn:Hnamed; [discriminate|].
  intros Husage. exists (closestTo nearLine first (first :: rest)).
  assert (In (closestTo nearLine first (first :: rest)) (tagsNamed sf componentName)) as Hin.
  { rewrite Hnamed.
    destruct (closestTo_elem nearLine (first :: rest) first) as [->|H];
      [now left|assumption]. }
  apply tagsNamed_In in Hin as [Hin Hname]. auto.
Qed.

Lemma determineNodeType_not_definition value : determineNodeType value <> DEFINITION.
Proof.
  unfold determineNodeType. destruct value as [v|]; [|discriminate].
  destruct (negb (Js.truthy v)); [discriminate|].
  destruct (_ || _); discriminate.
Qed.

Lemma findParentNode_found w node p :
  findParentNode w node = Some p ->
  PropNode.filePath p <> PropNode.filePath node
  /\ In (PropNode.filePath p) (firstn 200 (workspaceFiles w))
  /\ PropNode.type p <> DEFINITION
  /\ Js.truthy (PropNode.propName p) = true
  /\ (exists sf element usage,
        getSourceFile w (PropNode.filePath p) = Some sf
        /\ In element (jsxElements sf)
        /\ tagName element = PropNode.componentName node
        /\ usageInTag (PropNode.propName node) element = Some usage
        /\ PropNode.lineCode p = usageLine usage
        /\ PropNode.propName p = extractPropName (usageValue usage)
        /\ PropNode.type p = determineNodeType (usageValue usage))
  /\ exists components c,
       analyzeFile w (PropNode.filePath p) = Some components
       /\ In c components
       /\ ciName c = PropNode.componentName p
       /\ ciLine c <= PropNode.lineCode p
       /\ forall c', In c' components -> ciLine c' <= PropNode.lineCode p ->
            ciLine c' <= ciLine c.
Proof.
  rewrite findParentNode_resolution. unfold findParentResolution.
  destruct (firstResolution w _ node) as [[location [usage parentComponent]]|] eqn:Hfirst;
    [|discriminate].
  intros [= <-]. cbn.
  apply firstResolution_Some in Hfirst as (Hin & Hpath & Hresolve).
  apply findComponentUsagesInWorkspace_In in Hin as [Hfile _].
  unfold resolveUsage in Hresolve.
  destruct (getSourceFile w (locationPath location)) as [sf|] eqn:Hsf; [|discriminate].
  destruct (findPropUsageAtLocation sf _ _ _) as [propUsage|] eqn:Husage; [|discriminate].
  destruct (findComponentAtLine w _ _) as [[name|]|] eqn:Hcomponent; try discriminate.
  injection Hresolve as <- <-.
  apply findPropUsageAtLocation_tag in Husage as (element & Helement & Hname & Husage).
  apply findComponentAtLine_component in Hcomponent
    as (components & c & Hcomponents & Hc & Hcname & Hcline & Hclosest).
  split; [assumption|]. split; [assumption|].
  split; [apply determineNodeType_not_definition|].
  split; [apply extractPropName_truthy|].
  split.
  - exists sf, element, propUsage. repeat (split; [first [assumption|reflexivity]|]).
    reflexivity.
  - exists components, c. auto.
Qed.

(** X17. A parent is found in another file than the node's, one of the first
    200 files of the workspace search that is on disk; it is never
    labelled a definition and has no parent of its own yet. *)
Theorem findParentNode_other_file w node p :
  findParentNode w node = Some p ->
  PropNode.filePath p <> PropNode.filePath node
  /\ In (PropNode.filePath p) (firstn 200 (workspaceFiles w))
  /\ (exists sf, getSourceFile w (PropNode.filePath p) = Some sf)
  /\ PropNode.type p <> DEFINITION
  /\ PropNode.parent p = None.
Proof.
  intros Hp. pose proof (findParentNode_parent _ _ _ Hp) as Hparent.
  apply findParentNode_found in Hp
    as (Hpath & Hfile & Htype & _ & (sf & _ & _ & Hsf & _) & _).
  eauto 10.
Qed.

(** X18. The parent records a tag of the node's component in the parent's
    file: the line and the value of the usage the tag yields for the
    node's prop, and a prop name that is never empty. *)
Theorem findParentNode_tag w node p :
  findParentNode w node = Some p ->
  Js.truthy (PropNode.propName p) = true
  /\ exists sf element usage,
       getSourceFile w (PropNode.filePath p) = Some sf
       /\ In element (jsxElements sf)
       /\ tagName element = PropNode.componentName node
       /\ usageInTag (PropNode.propName node) element = Some usage
       /\ PropNode.lineCode p = usageLine usage
       /\ PropNode.propName p = extractPropName (usageValue usage)
       /\ PropNode.type p = determineNodeType (usageValue usage).
Proof.
  intros Hp. apply findParentNode_found in Hp as (_ & _ & _ & Hname & Htag & _).
  now split.
Qed.

(** X19. The parent is named after a component of its file: one with an
    upper-case first letter that starts at or before the usage line, and
    no earlier than any other such component. *)
Theorem findParentNode_component w node p :
  findParentNode w node = Some p ->
  Js.testUpperFirst (PropNode.componentName p) = true
  /\ exists components c,
       analyzeFile w (PropNode.filePath p) = Some components
       /\ In c components
       /\ ciName c = PropNode.componentName p
       /\ ciLine c <= PropNode.lineCode p
       /\ forall c', In c' components -> ciLine c' <= PropNode.lineCode p ->
            ciLine c' <= ciLine c.
Proof.
  intros Hp. apply findParentNode_found in Hp
    as (_ & _ & _ & _ & _ & components & c & Hcomponents & Hc & Hname & Hrest).
  split.
  - rewrite <- Hname. eapply analyzeFileAt_components; eassumption.
  - exists components, c. auto.
Qed.

(** ** Chains *)

Lemma hops_step w n : forall node j a b,
  (node :: hops w n node) !! j = Some b ->
  (node :: hops w n node) !! S j = Some a ->
  findParentNode w b = Some a.
Proof.
  induction n as [|n IH]; intros node j a b; cbn [hops].
  - destruct j; discriminate.
  - destruct (findParentNode w node) as [p|] eqn:Hp; [|destruct j; discriminate].
    destruct j as [|j].
    + cbn. intros [= <-] [= <-]. assumption.
    + intros Hb Ha. exact (IH p j a b Hb Ha).
Qed.

Lemma hops_stop w n : forall node final,
  length (hops w n node) < n ->
  last (node :: hops w n node) = Some final ->
  findParentNode w final = None.
Proof.
  induction n as [|n IH]; intros node final; [lia|]. cbn [hops].
  destruct (findParentNode w node) as [p|] eqn:Hp.
  - cbn [length]. intros Hlen Hlast. apply (IH p final); [lia|].
    rewrite last_cons in Hlast. destruct (last (p :: hops w n p)) eqn:E; [assumption|].
    now apply last_None in E.
  - cbn. intros _ [= <-]. assumption.
Qed.

Lemma hops_none w n node :
  findParentNode w node = None -> hops w n node = [].
Proof. intros Hnone. destruct n; [reflexivity|]. cbn [hops]. now rewrite Hnone. Qed.

Lemma findParentNode_decorated w ty parent nd :
  findParentNode w (PropNode.setType ty (PropNode.setParent parent nd))
  = findParentNode w nd.
Proof. now apply findParentNode_ext. Qed.

Section ChainFacts.

Variable w : World.

(** X22. The trace carries the requested prop name, and its last node is the
    requested one, at the line of the first component of that name. *)
Theorem buildPropChain_requested filePath componentName propName t components :
  buildPropChain w filePath componentName propName = Some t ->
  analyzeFile w filePath = Some components ->
  PropTrace.propName t = propName
  /\ exists requested,
       PropTrace.nodeAt t (length (PropTrace.chain t) - 1) = Some requested
       /\ PropNode.componentName requested = componentName
       /\ PropNode.filePath requested = filePath
       /\ PropNode.propName requested = propName
       /\ PropNode.lineCode requested
          = match findComponent componentName components with
            | Some currentComponent => ciLine currentComponent
            | None => 0
            end.
Proof.
  intros Ht Hcomponents. unfold buildPropChain in Ht.
  destruct (buildPropChainWith_inv _ _ _ _ _ _ Ht) as (cs & Hcs & Hname & _).
  destruct (buildPropChainWith_nodes _ _ _ _ _ _ Ht)
    as (cs' & Hcs' & Hlen & _ & _ & _ & Hnodes).
  assert (cs = components) as -> by congruence.
  assert (cs' = components) as -> by congruence.
  split; [exact Hname|].
  cbv zeta in Hlen, Hnodes. rewrite Hlen.
  set (nodes := definitionNode filePath componentName propName _ :: _) in *.
  destruct (Hnodes (length nodes - 1)) as (nd & Hnd & _ & Hat);
    [unfold nodes; cbn [length]; lia|].
  replace (length nodes - 1 - (length nodes - 1)) with 0 in Hnd by lia.
  cbn in Hnd. injection Hnd as <-.
  eexists. split; [exact Hat|]. cbn. auto.
Qed.

(** X23. Each node of the chain is the parent [findParentNode] finds for the
    node after it, and lies in another file. *)
Theorem buildPropChain_adjacent filePath componentName propName t i a b :
  buildPropChain w filePath componentName propName = Some t ->
  PropTrace.nodeAt t i = Some a ->
  PropTrace.nodeAt t (S i) = Some b ->
  PropNode.filePath a <> PropNode.filePath b
  /\ exists p,
       findParentNode w b = Some p
       /\ PropNode.componentName p = PropNode.componentName a
       /\ PropNode.filePath p = PropNode.filePath a
       /\ PropNode.propName p = PropNode.propName a
       /\ PropNode.lineCode p = PropNode.lineCode a.
Proof.
  intros Ht Ha Hb. unfold buildPropChain in Ht.
  destruct (buildPropChainWith_nodes _ _ _ _ _ _ Ht)
    as (cs & _ & Hlen & _ & _ & _ & Hnodes).
  cbv zeta in Hlen, Hnodes.
  set (n0 := definitionNode filePath componentName propName _) in *.
  set (nodes := n0 :: hops w maxDepth n0) in *.
  assert (S i < length nodes) as Hi.
  { rewrite <- Hlen. unfold PropTrace.nodeAt in Hb.
    destruct (PropTrace.chain t !! S i) eqn:E; [|discriminate].
    now apply lookup_lt_Some in E. }
  destruct (Hnodes i) as (na & Hna & _ & Hat); [lia|].
  destruct (Hnodes (S i)) as (nb & Hnb & _ & Hbt); [lia|].
  rewrite Ha in Hat. rewrite Hb in Hbt. injection Hat as ->. injection Hbt as ->.
  replace (length nodes - 1 - i) with (S (length nodes - 1 - S i)) in Hna by lia.
  pose proof (hops_step _ _ _ _ _ _ Hnb Hna) as Hparent.
  rewrite findParentNode_decorated.
  split.
  - cbn. apply findParentNode_found in Hparent. tauto.
  - exists na. split; [assumption|]. cbn. auto.
Qed.

(** X24. A chain that stops short of the depth limit starts at a node for
    which no parent is found. *)
Theorem buildPropChain_top filePath componentName propName t first :
  buildPropChain w filePath componentName propName = Some t ->
  length (PropTrace.chain t) <= maxDepth ->
  PropTrace.nodeAt t 0 = Some first ->
  findParentNode w first = None.
Proof.
  intros Ht Hshort Hfirst. unfold buildPropChain in Ht.
  destruct (buildPropChainWith_nodes _ _ _ _ _ _ Ht)
    as (cs & _ & Hlen & _ & _ & _ & Hnodes).
  cbv zeta in Hlen, Hnodes.
  set (n0 := definitionNode filePath componentName propName _) in *.
  destruct (Hnodes 0) as (nd & Hnd & _ & Hat); [cbn [length]; lia|].
  rewrite Hfirst in Hat. injection Hat as ->.
  rewrite findParentNode_decorated.
  apply (hops_stop w maxDepth n0).
  - rewrite Hlen in Hshort. cbn [length] in Hshort. lia.
  - rewrite last_lookup, <- Hnd. f_equal. cbn [length]. lia.
Qed.

End ChainFacts.

(** ** Usages whose analysis fails *)

Lemma analyzeLocationForPropUsage_throws w location node :
  analysisThrows w (locationPath location) = true ->
  analyzeLocationForPropUsage w location node = None.
Proof.
  unfold analysisThrows, analyzeLocationForPropUsage, resolveUsage, findComponentAtLine.
  destruct (analyzeFile w (locationPath location)); [discriminate|]. intros _.
  destruct (getSourceFile w (locationPath location)); [|reflexivity].
  now destruct (findPropUsageAtLocation _ _ _ _).
Qed.

Lemma firstParent_skips w node skipped : forall rest,
  forallb (fun location =>
             String.eqb (locationPath location) (PropNode.filePath node)
             || analysisThrows w (locationPath location)) skipped = true ->
  firstParent w (skipped ++ rest) node = firstParent w rest node.
Proof.
  induction skipped as [|location skipped IH]; intros rest; [reflexivity|].
  cbn [forallb app firstParent]. intros [Hlocation Hskipped]%andb_true_iff.
  destruct (String.eqb (locationPath location) (PropNode.filePath node));
    [now apply IH|].
  cbn [orb] in Hlocation.
  rewrite (analyzeLocationForPropUsage_throws _ _ _ Hlocation). now apply IH.
Qed.

(** X21. An error thrown while a usage is analysed is caught for that usage
    alone: the search passes over the usages in files on which
    [analyzeFile] throws, as it does over those in the node's own file,
    and answers with the first usage after them that resolves. *)
Theorem findParentNode_skips_failing_usages w node skipped good rest p :
  findComponentUsagesInWorkspace w (PropNode.componentName node)
  = skipped ++ good :: rest ->
  forallb (fun location =>
             String.eqb (locationPath location) (PropNode.filePath node)
             || analysisThrows w (locationPath location)) skipped = true ->
  String.eqb (locationPath good) (PropNode.filePath node) = false ->
  analyzeLocationForPropUsage w good node = Some p ->
  findParentNode w node = Some p.
Proof.
  intros Husages Hskipped Hother Hgood. unfold findParentNode. rewrite Husages.
  rewrite length_app. cbn [length]. rewrite Nat.add_succ_r. cbn [Nat.eqb].
  rewrite (firstParent_skips _ _ _ _ Hskipped). cbn [firstParent].
  now rewrite Hother, Hgood.
Qed.

(** ** Ambiguity *)

Lemma scanAttributes_carries propName attributes usage :
  scanAttributes propName attributes = Some usage ->
  usageValue usage = Some spreadSentinel ->
  exists attr, In attr attributes /\ carriesSentinel attr = true.
Proof.
  induction attributes as [|[name initializer line|] rest IH]; [discriminate| |].
  - cbn [scanAttributes].
    assert (scanAttributes propName rest = Some usage ->
            usageValue usage = Some spreadSentinel ->
            exists attr, In attr (JsxAttribute name initializer line :: rest)
                         /\ carriesSentinel attr = true) as Hrest.
    { intros Hscan Hvalue. destruct (IH Hscan Hvalue) as (attr & Hin & Hattr).
      exists attr. split; [now right|assumption]. }
    destruct (String.eqb name propName); [|exact Hrest].
    destruct initializer as [[text|[expression|]|]|]; try exact Hrest.
    + intros [= <-] [= Htext]. eexists. split; [now left|]. cbn. rewrite Htext.
      reflexivity.
    + intros [= <-] [= Htext]. eexists. split; [now left|]. cbn. rewrite Htext.
      reflexivity.
    + intros [= <-]. discriminate.
    + intros [= <-]. discriminate.
  - cbn [scanAttributes]. intros Hscan Hvalue.
    destruct (IH Hscan Hvalue) as (attr & Hin & Hattr).
    exists attr. split; [now right|assumption].
Qed.

Lemma usageInTag_carries propName element usage :
  usageInTag propName element = Some usage ->
  usageValue usage = Some spreadSentinel ->
  exists attr, In attr (tagAttributes element)
               /\ (isSpreadAttribute attr = true \/ carriesSentinel attr = true).
Proof.
  unfold usageInTag.
  destruct (scanAttributes propName (tagAttributes element)) as [u|] eqn:Hscan.
  - intros [= <-] Hvalue.
    destruct (scanAttributes_carries _ _ _ Hscan Hvalue) as (attr & Hin & Hattr). eauto.
  - destruct (hasSpread (tagAttributes element)) eqn:Hspread; [|discriminate].
    intros _ _. apply existsb_exists in Hspread as (attr & Hin & Hattr). eauto.
Qed.

Lemma find_fsPath_In (files : list SourceFile) filePath sf :
  find (fun f => String.eqb (fsPath f) filePath) files = Some sf -> In sf files.
Proof. intros H. now apply find_some in H. Qed.

Lemma hops_In w n : forall node p,
  In p (hops w n node) -> exists b, findParentNode w b = Some p.
Proof.
  induction n as [|n IH]; intros node p; [intros []|]. cbn [hops].
  destruct (findParentNode w node) as [q|] eqn:Hq; [|intros []].
  intros [<-|Hin]; [eauto|]. exact (IH q p Hin).
Qed.

(** X25. In a workspace without spreads and without values that read like
    the sentinel, no trace is ambiguous. *)
Theorem buildPropChain_spread_free w filePath componentName propName t :
  spreadFree w = true ->
  buildPropChain w filePath componentName propName = Some t ->
  PropTrace.ambiguous t = false.
Proof.
  intros Hfree Ht. unfold buildPropChain in Ht.
  destruct (buildPropChainWith_nodes _ _ _ _ _ _ Ht)
    as (cs & _ & _ & _ & _ & Hambiguous & _).
  cbv zeta in Hambiguous. rewrite Hambiguous.
  apply not_true_is_false. intros (p & Hin & Hp)%existsb_exists.
  apply hops_In in Hin as [b Hb].
  apply findParentNode_found in Hb
    as (_ & _ & _ & _ & (sf & element & usage & Hsf & Helement & _ & Husage & _ & Hname & _)
        & _).
  unfold isSpreadNamed in Hp. apply String.eqb_eq in Hp.
  rewrite Hname in Hp. apply extractPropName_sentinel in Hp.
  destruct (usageInTag_carries _ _ _ Husage Hp) as (attr & Hattr & Hbad).
  unfold spreadFree in Hfree. rewrite forallb_forall in Hfree.
  apply find_fsPath_In in Hsf. specialize (Hfree sf Hsf).
  rewrite forallb_forall in Hfree. specialize (Hfree element Helement).
  rewrite forallb_forall in Hfree. specialize (Hfree attr Hattr).
  apply andb_true_iff in Hfree as [Hspread Hsentinel].
  destruct Hbad as [H|H]; rewrite H in *; discriminate.
Qed.

(** ** Components rendered in their own file only *)

Lemma firstParent_same_file w usages node :
  forallb (fun location => String.eqb (locationPath location) (PropNode.filePath node))
          usages = true ->
  firstParent w usages node = None.
Proof.
  induction usages as [|location rest IH]; [reflexivity|].
  cbn [forallb firstParent]. intros [Hsame Hrest]%andb_true_iff.
  rewrite Hsame. now apply IH.
Qed.

(** X26. A component that the workspace search finds in its own file only is
    reported as the source of its prop: a chain of one node, complete
    and not ambiguous. *)
Theorem buildPropChain_own_file_only w filePath componentName propName components :
  analyzeFile w filePath = Some components ->
  forallb (fun location => String.eqb (locationPath location) filePath)
          (findComponentUsagesInWorkspace w componentName) = true ->
  exists t lineCode,
    buildPropChain w filePath componentName propName = Some t
    /\ length (PropTrace.chain t) = 1
    /\ PropTrace.isComplete t = true
    /\ PropTrace.ambiguous t = false
    /\ PropTrace.nodeAt t 0
       = Some (PropNode.setType SOURCE
                 (definitionNode filePath componentName propName lineCode)).
Proof.
  intros Hcomponents Hown.
  destruct (buildPropChainWith_spec w maxDepth filePath componentName propName
              components Hcomponents) as (t & Ht & _ & Hchain & Hcomplete & Hambiguous & Hstore).
  cbv zeta in Hchain, Hcomplete, Hambiguous, Hstore.
  set (n0 := definitionNode filePath componentName propName _) in *.
  assert (hops w maxDepth n0 = []) as Hhops.
  { apply hops_none. unfold findParentNode.
    destruct (length _ =? 0); [reflexivity|]. now apply firstParent_same_file. }
  rewrite Hhops in *. cbn [length] in *.
  exists t, (PropNode.lineCode n0). split; [exact Ht|].
  split; [now rewrite Hchain|]. split; [exact Hcomplete|]. split; [exact Hambiguous|].
  unfold PropTrace.nodeAt. rewrite Hchain. cbn.
  rewrite (Hstore 0 n0 eq_refl). reflexivity.
Qed.

(** ** Props of one component *)

(** X14. For a function component that shares its name with no variable,
    [extractPropsFromComponent] lists the props [analyzeFile] records
    for it. *)
Theorem extractPropsFromComponent_function stack project filePath sf func c :
  find (fun f => String.eqb (fsPath f) filePath) project = Some sf ->
  extractComponentFromFunction stack sf func filePath = Some (Some c) ->
  getFunction sf (ciName c) = Some func ->
  getVariableDeclaration sf (ciName c) = None ->
  extractPropsFromComponent stack project filePath (ciName c) = Some (ciProps c).
Proof.
  intros Hsf Hc Hfunc Hvar. unfold extractPropsFromComponent.
  rewrite Hsf, Hfunc, Hvar.
  unfold extractComponentFromFunction in Hc.
  destruct (funcName func) as [name|]; [|discriminate].
  destruct (negb (Js.truthy name)); [discriminate|].
  destruct (negb (Js.testUpperFirst name)); [discriminate|].
  destruct (propsOfFirstParameter stack sf (funcParameters func)) as [props|];
    [|discriminate].
  injection Hc as <-. cbn [ciName ciProps]. now rewrite app_nil_r.
Qed.

(** ** Navigating upstream *)

Lemma componentUnderCursor_In components line name :
  componentUnderCursor components line = Some name ->
  exists c, In c components /\ ciName c = name /\ ciLine c <= line.
Proof.
  unfold componentUnderCursor.
  induction components as [|comp components IH] using rev_ind; [discriminate|].
  rewrite fold_left_app. cbn [fold_left].
  destruct (Nat.leb_spec (ciLine comp) line) as [Hle|Hgt].
  - intros [= <-]. exists comp. rewrite in_app_iff. cbn. auto.
  - intros H. destruct (IH H) as (c & Hin & Hc). exists c. rewrite in_app_iff. auto.
Qed.

Lemma testUpperFirst_truthy s : Js.testUpperFirst s = true -> Js.truthy s = true.
Proof. destruct s; [discriminate|reflexivity]. Qed.

(** X27. When the chain has two nodes, the command opens the component under
    the cursor itself: the second node of the chain is the requested
    one. *)
Theorem tracePropUpstream_two_nodes w filePath positionLine propName components
  componentName t :
  analyzeFile w filePath = Some components ->
  componentUnderCursor components (positionLine + 1) = Some componentName ->
  buildPropChain w filePath componentName propName = Some t ->
  length (PropTrace.chain t) = 2 ->
  exists target,
    tracePropUpstream w filePath positionLine propName = Some (NavigateTo target)
    /\ PropNode.componentName target = componentName
    /\ PropNode.filePath target = filePath
    /\ PropNode.propName target = propName
    /\ PropNode.type target = DEFINITION.
Proof.
  intros Hcomponents Hcursor Ht Hlen. unfold tracePropUpstream.
  rewrite Hcomponents, Hcursor.
  destruct (componentUnderCursor_In _ _ _ Hcursor) as (c & Hc & Hname & _).
  pose proof (analyzeFileAt_components _ _ _ _ _ Hcomponents Hc) as [Hupper _].
  rewrite Hname in Hupper. rewrite (testUpperFirst_truthy _ Hupper). cbn [negb].
  rewrite Ht, Hlen. cbn [Nat.ltb Nat.leb].
  unfold buildPropChain in Ht.
  destruct (buildPropChainWith_nodes _ _ _ _ _ _ Ht)
    as (cs & _ & Hnodes_len & _ & _ & _ & Hnodes).
  cbv zeta in Hnodes_len, Hnodes. rewrite Hlen in Hnodes_len.
  rewrite <- Hnodes_len in Hnodes.
  destruct (Hnodes 1) as (nd & Hnd & _ & Hat); [lia|].
  cbn [Nat.sub] in Hnd. cbn [lookup list_lookup] in Hnd. injection Hnd as <-.
  rewrite Hat. eexists. split; [reflexivity|]. cbn. auto.
Qed.

(** ** Re-exports *)

Lemma reExportedComponent_original w analyze filePath resolvedPath line namedExport c :
  reExportedComponent w analyze filePath resolvedPath line namedExport = Some c ->
  exists originalComponents originalComponent,
    analyze resolvedPath = Some originalComponents
    /\ findComponent (exportName namedExport) originalComponents = Some originalComponent
    /\ ciProps c = ciProps originalComponent
    /\ ciLine c = line
    /\ ciName c = match exportAlias namedExport with
                  | Some alias => if Js.truthy alias then alias else exportName namedExport
                  | None => exportName namedExport
                  end.
Proof.
  unfold reExportedComponent.
  destruct (negb (Js.testUpperFirst _)); [discriminate|].
  destruct (getSourceFile w resolvedPath); [|discriminate].
  destruct (analyze resolvedPath) as [originalComponents|]; [|discriminate].
  destruct (findComponent (exportName namedExport) originalComponents)
    as [originalComponent|] eqn:Horiginal; [|discriminate].
  intros [= <-]. exists originalComponents, originalComponent. cbn.
  split; [reflexivity|]. split; [assumption|]. split; [reflexivity|].
  split; reflexivity.
Qed.

(** X13. A re-exported component carries the props of the component of that
    name in the module it comes from, at the line of the export
    declaration, and is named by the alias of the export when it has a
    non-empty one and by the exported name otherwise. *)
Theorem findReExportedComponents_original w analyze sf filePath c :
  In c (findReExportedComponents w analyze sf filePath) ->
  exists exportDecl namedExport resolvedPath originalComponents originalComponent,
    In exportDecl (exportDeclarations sf)
    /\ In namedExport (exportNamedExports exportDecl)
    /\ exportResolvedPath exportDecl = Some resolvedPath
    /\ analyze resolvedPath = Some originalComponents
    /\ findComponent (exportName namedExport) originalComponents = Some originalComponent
    /\ ciProps c = ciProps originalComponent
    /\ ciLine c = exportStartLine exportDecl
    /\ ciFilePath c = filePath
    /\ ciName c = match exportAlias namedExport with
                  | Some alias => if Js.truthy alias then alias else exportName namedExport
                  | None => exportName namedExport
                  end.
Proof.
  unfold findReExportedComponents. rewrite in_flat_map.
  intros (exportDecl & Hdecl & Hin).
  destruct (exportModuleSpecifier exportDecl) as [moduleSpecifier|]; [|destruct Hin].
  destruct (negb (Js.truthy moduleSpecifier)); [destruct Hin|].
  destruct (exportResolvedPath exportDecl) as [resolvedPath|] eqn:Hpath; [|destruct Hin].
  apply list_elem_of_In, list_elem_of_omap in Hin as (namedExport & Hexport & Hc).
  pose proof (reExportedComponent_info _ _ _ _ _ _ _ Hc) as (_ & Hfile & _).
  apply reExportedComponent_original in Hc
    as (originalComponents & originalComponent & Hanalyze & Hfind & Hprops & Hline & Hname).
  exists exportDecl, namedExport, resolvedPath, originalComponents, originalComponent.
  split; [assumption|]. split; [now apply list_elem_of_In|]. auto 10.
Qed.

(** ** What the search for a parent reads *)

(** X20. The search for a parent reads the component name, the file and the
    prop name of a node, and neither its label nor its line: a node
    labelled as a source is searched like any other. *)
Theorem findParentNode_reads_three_fields w a b :
  PropNode.componentName a = PropNode.componentName b ->
  PropNode.filePath a = PropNode.filePath b ->
  PropNode.propName a = PropNode.propName b ->
  findParentNode w a = findParentNode w b.
Proof. apply findParentNode_ext. Qed.

(** ** The further facts at work *)

Import Samples.

Lemma extractPropName_identifier_witness :
  extractPropName (Some "{ userName }"%string) = "userName"%string.
Proof.
  apply (extractPropName_identifier true " " "userName" " }");
    [reflexivity|reflexivity|reflexivity|].
  exists " "%string. split; [reflexivity|]. right. reflexivity.
Defined.

Lemma extractPropName_props_access_witness :
  extractPropName (Some "props.title"%string) = "title"%string.
Proof. apply (extractPropName_props_access "title"); reflexivity. Defined.

Lemma usageInTag_explicit_first_witness :
  usageInTag "label" spreadFirst
  = Some {| usageLine := 3; usageValue := Some "title"%string |}
  /\ usageInTag "other" spreadFirst
     = Some {| usageLine := 3; usageValue := Some spreadSentinel |}.
Proof.
  split.
  - apply (proj1 (usageInTag_explicit_first "label" spreadFirst) [JsxSpreadAttribute]
             (Some (JsxExpression (Some "title"%string))) 3 []); reflexivity.
  - apply (proj2 (usageInTag_explicit_first "other" spreadFirst)); reflexivity.
Defined.

Lemma resolveTypeToProps_NoDup_witness : NoDup ["text"%string; "tone"%string].
Proof.
  apply (resolveTypeToProps_NoDup cardFile 1 "BadgeProps"); [vm_compute|]; reflexivity.
Defined.

Lemma resolveTypeToProps_more_stack_witness :
  resolveTypeToProps 64 layoutFile "Props" = Some ["children"%string; "sidebar"%string].
Proof. apply (resolveTypeToProps_more_stack layoutFile 3); [lia|reflexivity]. Defined.

Lemma resolveTypeToProps_PropsWithChildren_witness :
  exists props,
    resolveTypeToProps 2 layoutFile "React.PropsWithChildren<LayoutProps>" = Some props
    /\ head props = Some "children"%string
    /\ NoDup props
    /\ forall p, In p props <-> p = "children"%string \/ In p ["sidebar"%string].
Proof.
  apply (resolveTypeToProps_PropsWithChildren 1 layoutFile _ "LayoutProps"); reflexivity.
Defined.

Lemma resolveTypeToProps_interface_witness :
  In "id"%string ["title"%string; "id"%string]
  <-> (Js.truthy "id" = true /\ In "id"%string ["title"%string])
      \/ exists base baseProps,
           In base ["Base"%string]
           /\ resolveTypeToProps 1 cardFile base = Some baseProps
           /\ In "id"%string baseProps.
Proof.
  apply (resolveTypeToProps_interface 1 cardFile "CardProps"
           {| interfaceName := "CardProps"; interfaceProperties := ["title"];
              interfaceExtends := ["Base"] |}); reflexivity.
Defined.

Lemma analyzeFile_components_witness :
  Js.testUpperFirst "Kid" = true /\ ciFilePath kid = "/ws/index.ts"%string.
Proof.
  apply (analyzeFile_components barrelWorld "/ws/index.ts" [kid] kid);
    [reflexivity|now left].
Defined.

Lemma findReExportedComponents_original_witness :
  exists exportDecl namedExport resolvedPath originalComponents originalComponent,
    In exportDecl (exportDeclarations barrelFile)
    /\ In namedExport (exportNamedExports exportDecl)
    /\ exportResolvedPath exportDecl = Some resolvedPath
    /\ analyzeFile barrelWorld resolvedPath = Some originalComponents
    /\ findComponent (exportName namedExport) originalComponents = Some originalComponent
    /\ ciProps kid = ciProps originalComponent
    /\ ciLine kid = exportStartLine exportDecl
    /\ ciFilePath kid = "/ws/index.ts"%string
    /\ ciName kid = match exportAlias namedExport with
                    | Some alias => if Js.truthy alias then alias else exportName namedExport
                    | None => exportName namedExport
                    end.
Proof.
  apply (findReExportedComponents_original barrelWorld (analyzeFile barrelWorld) barrelFile).
  vm_compute. now left.
Defined.

Lemma extractPropsFromComponent_function_witness :
  extractPropsFromComponent 8 [childA] "/ws/Child.tsx" "Child" = Some ["label"%string].
Proof.
  apply (extractPropsFromComponent_function 8 [childA] "/ws/Child.tsx" childA
           (func "Child" ["label"] 1)
           {| ciName := "Child"; ciFilePath := "/ws/Child.tsx"; ciProps := ["label"];
              ciLine := 1 |}); reflexivity.
Defined.

Lemma findComponentAtLine_closest_witness :
  exists closest,
    findComponentAtLine panelWorld "/ws/Panel.tsx" 3 = Some closest
    /\ match closest with
       | Some name =>
           exists c, In c [{| ciName := "Panel"; ciFilePath := "/ws/Panel.tsx";
                              ciProps := []; ciLine := 1 |};
                           {| ciName := "Row"; ciFilePath := "/ws/Panel.tsx";
                              ciProps := ["label"%string]; ciLine := 4 |}]
                     /\ ciName c = name /\ ciLine c <= 3
                     /\ forall c', In c' [{| ciName := "Panel"; ciFilePath := "/ws/Panel.tsx";
                                             ciProps := []; ciLine := 1 |};
                                          {| ciName := "Row"; ciFilePath := "/ws/Panel.tsx";
                                             ciProps := ["label"%string]; ciLine := 4 |}] ->
                          ciLine c' <= 3 -> ciLine c' <= ciLine c
       | None => forall c, In c [{| ciName := "Panel"; ciFilePath := "/ws/Panel.tsx";
                                    ciProps := []; ciLine := 1 |};
                                 {| ciName := "Row"; ciFilePath := "/ws/Panel.tsx";
                                    ciProps := ["label"%string]; ciLine := 4 |}] ->
                     3 < ciLine c
       end.
Proof. apply (findComponentAtLine_closest panelWorld "/ws/Panel.tsx" 3). reflexivity. Defined.

Lemma componentUnderCursor_increasing_witness :
  findComponentAtLine panelWorld "/ws/Panel.tsx" 5 = Some (Some "Row"%string).
Proof.
  apply (componentUnderCursor_increasing panelWorld "/ws/Panel.tsx" 5
           [{| ciName := "Panel"; ciFilePath := "/ws/Panel.tsx"; ciProps := []; ciLine := 1 |};
            {| ciName := "Row"; ciFilePath := "/ws/Panel.tsx"; ciProps := ["label"%string];
               ciLine := 4 |}]); reflexivity.
Defined.

Lemma findParentNode_other_file_witness :
  exists p,
    findParentNode scenarioA (definitionNode "/ws/Child.tsx" "Child" "label" 1) = Some p
    /\ PropNode.filePath p <> "/ws/Child.tsx"%string
    /\ In (PropNode.filePath p) (firstn 200 (workspaceFiles scenarioA))
    /\ (exists sf, getSourceFile scenarioA (PropNode.filePath p) = Some sf)
    /\ PropNode.type p <> DEFINITION
    /\ PropNode.parent p = None.
Proof.
  destruct (findParentNode scenarioA (definitionNode "/ws/Child.tsx" "Child" "label" 1))
    as [p|] eqn:Hp; [|vm_compute in Hp; discriminate].
  exists p. split; [reflexivity|].
  exact (findParentNode_other_file scenarioA _ p Hp).
Defined.

Lemma findParentNode_tag_witness :
  exists p,
    findParentNode scenarioA (definitionNode "/ws/Child.tsx" "Child" "label" 1) = Some p
    /\ Js.truthy (PropNode.propName p) = true
    /\ exists sf element usage,
         getSourceFile scenarioA (PropNode.filePath p) = Some sf
         /\ In element (jsxElements sf)
         /\ tagName element = "Child"%string
         /\ usageInTag "label" element = Some usage
         /\ PropNode.lineCode p = usageLine usage
         /\ PropNode.propName p = extractPropName (usageValue usage)
         /\ PropNode.type p = determineNodeType (usageValue usage).
Proof.
  destruct (findParentNode scenarioA (definitionNode "/ws/Child.tsx" "Child" "label" 1))
    as [p|] eqn:Hp; [|vm_compute in Hp; discriminate].
  exists p. split; [reflexivity|].
  exact (findParentNode_tag scenarioA _ p Hp).
Defined.

Lemma findParentNode_component_witness :
  exists p,
    findParentNode scenarioA (definitionNode "/ws/Child.tsx" "Child" "label" 1) = Some p
    /\ Js.testUpperFirst (PropNode.componentName p) = true
    /\ exists components c,
         analyzeFile scenarioA (PropNode.filePath p) = Some components
         /\ In c components
         /\ ciName c = PropNode.componentName p
         /\ ciLine c <= PropNode.lineCode p
         /\ forall c', In c' components -> ciLine c' <= PropNode.lineCode p ->
              ciLine c' <= ciLine c.
Proof.
  destruct (findParentNode scenarioA (definitionNode "/ws/Child.tsx" "Child" "label" 1))
    as [p|] eqn:Hp; [|vm_compute in Hp; discriminate].
  exists p. split; [reflexivity|].
  exact (findParentNode_component scenarioA _ p Hp).
Defined.

Lemma findParentNode_reads_three_fields_witness :
  findParentNode scenarioA (definitionNode "/ws/Child.tsx" "Child" "label" 1)
  = findParentNode scenarioA
      (PropNode.setType SOURCE (definitionNode "/ws/Child.tsx" "Child" "label" 7)).
Proof. apply findParentNode_reads_three_fields; reflexivity. Defined.

Lemma findParentNode_skips_failing_usages_witness :
  analyzeFile tangleWorld "/ws/Tangle.tsx" = None
  /\ findParentNode tangleWorld (definitionNode "/ws/Child.tsx" "Child" "label" 1)
     = Some {| PropNode.componentName := "Parent"; PropNode.filePath := "/ws/Parent.tsx";
               PropNode.propName := Js.quoted "hi"; PropNode.lineCode := 1;
               PropNode.type := SOURCE; PropNode.parent := None |}.
Proof.
  split; [reflexivity|].
  apply (findParentNode_skips_failing_usages tangleWorld _
           [{| locationPath := "/ws/Tangle.tsx"; locationLine := 3 |}]
           {| locationPath := "/ws/Parent.tsx"; locationLine := 0 |} []);
    reflexivity.
Defined.

Lemma buildPropChain_requested_witness :
  exists t,
    buildPropChain (lineOf 3) "/ws/A.tsx" "A" "value" = Some t
    /\ PropTrace.propName t = "value"%string
    /\ exists requested,
         PropTrace.nodeAt t (length (PropTrace.chain t) - 1) = Some requested
         /\ PropNode.componentName requested = "A"%string
         /\ PropNode.filePath requested = "/ws/A.tsx"%string
         /\ PropNode.propName requested = "value"%string
         /\ PropNode.lineCode requested = 1.
Proof.
  destruct (buildPropChain (lineOf 3) "/ws/A.tsx" "A" "value")
    as [t|] eqn:Ht; [|vm_compute in Ht; discriminate].
  exists t. split; [reflexivity|].
  exact (buildPropChain_requested (lineOf 3) "/ws/A.tsx" "A" "value" t
           [{| ciName := "A"; ciFilePath := "/ws/A.tsx"; ciProps := ["value"%string];
               ciLine := 1 |}] Ht eq_refl).
Defined.

Lemma buildPropChain_adjacent_witness :
  exists t a b,
    buildPropChain (lineOf 3) "/ws/A.tsx" "A" "value" = Some t
    /\ PropTrace.nodeAt t 0 = Some a
    /\ PropTrace.nodeAt t 1 = Some b
    /\ PropNode.filePath a <> PropNode.filePath b
    /\ exists p,
         findParentNode (lineOf 3) b = Some p
         /\ PropNode.componentName p = PropNode.componentName a
         /\ PropNode.filePath p = PropNode.filePath a
         /\ PropNode.propName p = PropNode.propName a
         /\ PropNode.lineCode p = PropNode.lineCode a.
Proof.
  destruct (buildPropChain (lineOf 3) "/ws/A.tsx" "A" "value")
    as [t|] eqn:Ht; [|vm_compute in Ht; discriminate].
  destruct (PropTrace.nodeAt t 0) as [a|] eqn:Ha;
    [|vm_compute in Ht; injection Ht as <-; vm_compute in Ha; discriminate].
  destruct (PropTrace.nodeAt t 1) as [b|] eqn:Hb;
    [|vm_compute in Ht; injection Ht as <-; vm_compute in Hb; discriminate].
  exists t, a, b. split; [reflexivity|]. split; [exact Ha|]. split; [exact Hb|].
  exact (buildPropChain_adjacent (lineOf 3) "/ws/A.tsx" "A" "value" t 0 a b Ht Ha Hb).
Defined.

Lemma buildPropChain_top_witness :
  exists t first,
    buildPropChain (lineOf 3) "/ws/A.tsx" "A" "value" = Some t
    /\ PropTrace.nodeAt t 0 = Some first
    /\ findParentNode (lineOf 3) first = None.
Proof.
  destruct (buildPropChain (lineOf 3) "/ws/A.tsx" "A" "value")
    as [t|] eqn:Ht; [|vm_compute in Ht; discriminate].
  destruct (PropTrace.nodeAt t 0) as [first|] eqn:Hfirst;
    [|vm_compute in Ht; injection Ht as <-; vm_compute in Hfirst; discriminate].
  exists t, first. split; [reflexivity|]. split; [exact Hfirst|].
  apply (buildPropChain_top (lineOf 3) "/ws/A.tsx" "A" "value" t first Ht); [|exact Hfirst].
  vm_compute in Ht. injection Ht as <-. vm_compute. lia.
Defined.

Lemma buildPropChain_spread_free_witness :
  exists t,
    buildPropChain scenarioA "/ws/Child.tsx" "Child" "label" = Some t
    /\ PropTrace.ambiguous t = false.
Proof.
  destruct (buildPropChain scenarioA "/ws/Child.tsx" "Child" "label")
    as [t|] eqn:Ht; [|vm_compute in Ht; discriminate].
  exists t. split; [reflexivity|].
  exact (buildPropChain_spread_free scenarioA _ _ _ t eq_refl Ht).
Defined.

Lemma buildPropChain_own_file_only_witness :
  exists t lineCode,
    buildPropChain panelWorld "/ws/Panel.tsx" "Row" "label" = Some t
    /\ length (PropTrace.chain t) = 1
    /\ PropTrace.isComplete t = true
    /\ PropTrace.ambiguous t = false
    /\ PropTrace.nodeAt t 0
       = Some (PropNode.setType SOURCE
                 (definitionNode "/ws/Panel.tsx" "Row" "label" lineCode)).
Proof.
  apply (buildPropChain_own_file_only panelWorld "/ws/Panel.tsx" "Row" "label"
           [{| ciName := "Panel"; ciFilePath := "/ws/Panel.tsx"; ciProps := []; ciLine := 1 |};
            {| ciName := "Row"; ciFilePath := "/ws/Panel.tsx"; ciProps := ["label"%string];
               ciLine := 4 |}]); reflexivity.
Defined.

Lemma tracePropUpstream_two_nodes_witness :
  exists target,
    tracePropUpstream scenarioA "/ws/Child.tsx" 0 "label" = Some (NavigateTo target)
    /\ PropNode.componentName target = "Child"%string
    /\ PropNode.filePath target = "/ws/Child.tsx"%string
    /\ PropNode.propName target = "label"%string
    /\ PropNode.type target = DEFINITION.
Proof.
  destruct (buildPropChain scenarioA "/ws/Child.tsx" "Child" "label")
    as [t|] eqn:Ht; [|vm_compute in Ht; discriminate].
  apply (tracePropUpstream_two_nodes scenarioA "/ws/Child.tsx" 0 "label"
           [{| ciName := "Child"; ciFilePath := "/ws/Child.tsx"; ciProps := ["label"%string];
               ciLine := 1 |}] "Child" t); [reflexivity|reflexivity|exact Ht|].
  vm_compute in Ht. injection Ht as <-. reflexivity.
Defined.

(** * Chains of full length *)

Lemma length_append_string (s r : string) :
  String.length (s ++ r)%string = String.length s + String.length r.
Proof. induction s as [|c s IH]; [reflexivity|]. rewrite append_cons. cbn. now rewrite IH. Qed.

Lemma append_inj_r (a b suffix : string) :
  (a ++ suffix)%string = (b ++ suffix)%string -> a = b.
Proof.
  revert b. induction a as [|c a IH]; intros [|d b] H.
  - reflexivity.
  - apply (f_equal String.length) in H. rewrite !length_append_string in H. cbn in H. lia.
  - apply (f_equal String.length) in H. rewrite !length_append_string in H. cbn in H. lia.
  - rewrite !append_cons in H. injection H as -> H. f_equal. now apply IH.
Qed.

Lemma pathName_inj a b : pathName a = pathName b -> a = b.
Proof.
  unfold pathName. intros H.
  change ("/ws/" ++ a ++ ".tsx")%string
    with (String "/" (String "w" (String "s" (String "/" (a ++ ".tsx")%string)))) in H.
  change ("/ws/" ++ b ++ ".tsx")%string
    with (String "/" (String "w" (String "s" (String "/" (b ++ ".tsx")%string)))) in H.
  injection H as H. now apply append_inj_r in H.
Qed.

Section PassWorld.

Variable links : list (string * string).

Hypothesis rendered : allRendered links = true.

Lemma allRendered_facts :
  NoDup (map fst links)
  /\ (forall name, In name (map fst links) -> Js.testUpperFirst name = true)
  /\ (forall name child, In (name, child) links -> name <> child)
  /\ (forall name, In name (map fst links) -> exists parent, In (parent, name) links)
  /\ length links <= 200.
Proof.
  unfold allRendered in rendered.
  apply andb_true_iff in rendered as [H Hlen].
  apply andb_true_iff in H as [H Hrendered].
  apply andb_true_iff in H as [H Hself].
  apply andb_true_iff in H as [Hnodup Hupper].
  split; [now apply bool_decide_eq_true in Hnodup|].
  split; [now apply forallb_forall|].
  split.
  - intros name child Hin Heq. rewrite forallb_forall in Hself.
    specialize (Hself _ Hin). cbn in Hself. subst child.
    now rewrite String.eqb_refl in Hself.
  - split; [|now apply Nat.leb_le].
    intros name Hin. rewrite forallb_forall in Hrendered.
    specialize (Hrendered _ Hin). apply existsb_exists in Hrendered as (c & Hc & Heq).
    apply String.eqb_eq in Heq. subst c.
    apply in_map_iff in Hc as ([parent child] & Hchild & Hlink). cbn in Hchild.
    subst child. eauto.
Qed.

Lemma passWorld_disk sf :
  In sf (disk (passWorld links)) <-> exists name child, In (name, child) links
                                                       /\ sf = passName name child.
Proof.
  cbn. rewrite in_map_iff. split.
  - intros ([name child] & <- & Hin). eauto.
  - intros (name & child & Hin & ->). exists (name, child). auto.
Qed.

Lemma getSourceFile_passWorld_inv filePath sf :
  getSourceFile (passWorld links) filePath = Some sf ->
  exists name child, In (name, child) links /\ sf = passName name child
                     /\ filePath = pathName name.
Proof.
  unfold getSourceFile. intros H. apply find_some in H as [Hin Hpath].
  apply passWorld_disk in Hin as (name & child & Hin & ->).
  apply String.eqb_eq in Hpath. cbn in Hpath. eauto.
Qed.

Lemma getSourceFile_passWorld name child :
  In (name, child) links ->
  getSourceFile (passWorld links) (pathName name) = Some (passName name child).
Proof.
  intros Hin. destruct allRendered_facts as (Hnodup & _).
  unfold getSourceFile. cbn [passWorld Examples.workspace disk].
  clear rendered. induction links as [|[n c] rest IH]; [destruct Hin|].
  cbn [map find fst snd]. cbn [map fst] in Hnodup. apply NoDup_cons in Hnodup as [Hfresh Hrest].
  destruct Hin as [[= -> ->]|Hin].
  - cbn [passName Examples.file fsPath]. now rewrite String.eqb_refl.
  - cbn [passName Examples.file fsPath].
    destruct (String.eqb_spec (pathName n) (pathName name)) as [Heq|_].
    + apply pathName_inj in Heq. subst n. exfalso. apply Hfresh.
      apply list_elem_of_In, in_map_iff. exists (name, child). auto.
    + now apply IH.
Qed.

Lemma analyzeFile_passWorld name child :
  In (name, child) links ->
  analyzeFile (passWorld links) (pathName name)
  = Some [{| ciName := name; ciFilePath := pathName name; ciProps := ["value"%string];
             ciLine := 1 |}].
Proof.
  intros Hin. destruct allRendered_facts as (_ & Hupper & _).
  assert (Js.testUpperFirst name = true) as Hname.
  { apply Hupper, in_map_iff. exists (name, child). auto. }
  unfold analyzeFile. cbn [passWorld Examples.workspace stackLimit].
  change 64 with (S 63). cbn [analyzeFileAt].
  change (Examples.workspace (map (fun link => passName (fst link) (snd link)) links))
    with (passWorld links).
  rewrite (getSourceFile_passWorld _ _ Hin).
  cbn [passName Examples.file functions variableDeclarations exportDeclarations
       findReExportedComponents flat_map mapM Examples.func].
  unfold extractComponentFromFunction, Examples.func. cbn [funcName].
  rewrite Hname, (testUpperFirst_truthy _ Hname). cbn. reflexivity.
Qed.

Lemma findComponentAtLine_passWorld name child :
  In (name, child) links ->
  findComponentAtLine (passWorld links) (pathName name) 2 = Some (Some name).
Proof.
  intros Hin. unfold findComponentAtLine. now rewrite (analyzeFile_passWorld _ _ Hin).
Qed.

Lemma findPropUsageAtLocation_passName name child nearLine :
  findPropUsageAtLocation (passName name child) child "value" nearLine
  = Some {| usageLine := 2; usageValue := Some "value"%string |}.
Proof.
  unfold findPropUsageAtLocation, getDescendantsOfKind.
  cbn [passName Examples.file jsxElements Examples.selfClosing].
  rewrite !filter_cons, !filter_nil. cbn [isKind tagKind].
  rewrite decide_False by discriminate. rewrite decide_True by reflexivity.
  cbn [app]. rewrite filter_cons, filter_nil. cbn [tagName].
  rewrite decide_True by apply String.eqb_refl.
  unfold closestTo. cbn [fold_left].
  destruct (_ <? _); reflexivity.
Qed.

Lemma analyzeLocationForPropUsage_passWorld name child location nd :
  In (name, child) links ->
  locationPath location = pathName name ->
  PropNode.componentName nd = child ->
  PropNode.propName nd = "value"%string ->
  analyzeLocationForPropUsage (passWorld links) location nd
  = Some {| PropNode.componentName := name; PropNode.filePath := pathName name;
            PropNode.propName := "value"; PropNode.lineCode := 2;
            PropNode.type := USAGE; PropNode.parent := None |}.
Proof.
  intros Hin Hpath Hchild Hprop.
  unfold analyzeLocationForPropUsage, resolveUsage.
  rewrite Hpath, (getSourceFile_passWorld _ _ Hin), Hchild, Hprop.
  rewrite findPropUsageAtLocation_passName. cbn [usageLine usageValue].
  rewrite (findComponentAtLine_passWorld _ _ Hin). reflexivity.
Qed.

Lemma usages_passWorld child location :
  In location (findComponentUsagesInWorkspace (passWorld links) child) ->
  exists name, In (name, child) links /\ locationPath location = pathName name.
Proof.
  intros Hin. apply findComponentUsagesInWorkspace_In in Hin
    as (_ & document & hit & Hdocument & Hhit & Hname & _).
  apply getSourceFile_passWorld_inv in Hdocument as (name & c & Hlink & -> & Hpath).
  cbn in Hhit. destruct Hhit as [<-|[]]. cbn in Hname. subst c. eauto.
Qed.

Lemma usages_passWorld_In name child :
  In (name, child) links ->
  In {| locationPath := pathName name; locationLine := 1 |}
     (findComponentUsagesInWorkspace (passWorld links) child).
Proof.
  intros Hin. destruct allRendered_facts as (_ & _ & _ & _ & Hlen).
  unfold findComponentUsagesInWorkspace. apply in_flat_map.
  exists (pathName name). split.
  - cbn [passWorld Examples.workspace workspaceFiles].
    rewrite firstn_all2 by (rewrite !length_map; exact Hlen).
    apply in_map_iff. exists (passName name child). split; [reflexivity|].
    apply in_map_iff. exists (name, child). auto.
  - rewrite (getSourceFile_passWorld _ _ Hin).
    cbn [passName Examples.file textHits]. rewrite filter_cons, filter_nil. cbn [hitName].
    rewrite decide_True by apply String.eqb_refl. now left.
Qed.

Lemma firstParent_Some w (good : PropNode.t -> Prop) usages nd :
  (forall location, In location usages ->
     locationPath location <> PropNode.filePath nd ->
     exists p, analyzeLocationForPropUsage w location nd = Some p /\ good p) ->
  (exists location, In location usages /\ locationPath location <> PropNode.filePath nd) ->
  exists p, firstParent w usages nd = Some p /\ good p.
Proof.
  induction usages as [|location rest IH]; intros Hall (l & Hl & Hother); [destruct Hl|].
  cbn [firstParent].
  destruct (String.eqb_spec (locationPath location) (PropNode.filePath nd)) as [Hsame|Hpath].
  - apply IH.
    + intros l' Hl'. apply Hall. now right.
    + destruct Hl as [<-|Hl]; [contradiction|eauto].
  - destruct (Hall location (or_introl eq_refl) Hpath) as (p & -> & Hp). eauto.
Qed.

(** Where every component is rendered from another file, the search for
    a parent always succeeds, and stays among the components. *)
Lemma findParentNode_passWorld nd :
  onLinks links nd ->
  exists p, findParentNode (passWorld links) nd = Some p /\ onLinks links p.
Proof.
  intros (Hprop & Hname & Hfile).
  destruct allRendered_facts as (_ & _ & Hself & Hrendered & _).
  destruct (Hrendered _ Hname) as [parent Hparent].
  pose proof (usages_passWorld_In _ _ Hparent) as Hin.
  unfold findParentNode.
  destruct (length _ =? 0) eqn:Hempty.
  { apply Nat.eqb_eq, length_zero_iff_nil in Hempty. rewrite Hempty in Hin. destruct Hin. }
  apply firstParent_Some.
  - intros location Hlocation _.
    apply usages_passWorld in Hlocation as (name & Hlink & Hpath).
    rewrite (analyzeLocationForPropUsage_passWorld name _ location nd Hlink Hpath eq_refl Hprop).
    eexists. split; [reflexivity|]. split; [reflexivity|]. split; [|reflexivity].
    cbn. apply in_map_iff. exists (name, PropNode.componentName nd). auto.
  - eexists. split; [exact Hin|]. cbn. rewrite Hfile. intros Heq.
    apply pathName_inj in Heq. exact (Hself _ _ Hparent Heq).
Qed.

End PassWorld.

(** The ring of Scenario E is such a workspace. *)
Lemma passWorld_ringLinks n : passWorld (ringLinks n) = ringOf n.
Proof. unfold passWorld, ringLinks, ringOf. now rewrite map_map. Qed.



(** The walk from A in the shared ring: one node. *)
Example shared_file_cycle_trace :
  exists t,
    buildPropChain sharedRing "/ws/AB.tsx" "A" "value" = Some t
    /\ length (PropTrace.chain t) = 1
    /\ PropTrace.isComplete t = true.
Proof. eexists. split; [vm_compute; reflexivity|]. repeat split. Qed.

